(** * CV review request handler: a shallow embedding of [POST]

    The handler of the review endpoint reads a multipart form (pasted text
    and/or an uploaded file), extracts text, builds a prompt, calls a chat
    model once, parses the reply as JSON and coerces it into a [Review].

    The embedding keeps the shape of the TypeScript source:
    - JavaScript strings are sequences of UTF-16 code units;
    - JavaScript numbers are IEEE 754 binary64 values ([spec_float]);
    - exceptions are an error monad, early [return]s of a response are a
      second exit of the handler monad, and the one outbound model call is
      recorded in a log;
    - the collaborators the source imports (environment, pdf-parse, mammoth,
      the OpenAI client) are fields of a [World] record.

    The ECMAScript built-ins the handler calls ([JSON.parse], [String],
    [Number], [Math.round], [String.prototype.trim], the regular expression
    [/\{[\s\S]*\}/]) are modelled after the language specification. *)

From Stdlib Require Import ZArith List String Ascii Bool Lia QArith Qabs.
From Stdlib Require Import Floats.SpecFloat DecimalString.
Import ListNotations.

Local Open Scope Z_scope.

(** ** JavaScript strings *)

Module JsString.

(** A UTF-16 code unit. *)
Definition char16 := N.

Definition jsstring := list char16.

(** The JavaScript string with the same characters as an ASCII literal. *)
Definition js (s : string) : jsstring :=
  map N_of_ascii (list_ascii_of_string s).

Fixpoint eqb (a b : jsstring) : bool :=
  match a, b with
  | [], [] => true
  | x :: a', y :: b' => N.eqb x y && eqb a' b'
  | _, _ => false
  end.

(** [!s] on a string: the empty string is the only falsy one. *)
Definition is_empty (s : jsstring) : bool :=
  match s with [] => true | _ => false end.

(** WhiteSpace and LineTerminator code points of ECMAScript, the set that
    [trim] and [Number] strip. *)
Definition is_whitespace (c : char16) : bool :=
  let c := Z.of_N c in
  ((9 <=? c) && (c <=? 13)) || (c =? 32) || (c =? 160) || (c =? 5760)
  || ((8192 <=? c) && (c <=? 8202)) || (c =? 8232) || (c =? 8233)
  || (c =? 8239) || (c =? 8287) || (c =? 12288) || (c =? 65279).

Fixpoint trim_start (s : jsstring) : jsstring :=
  match s with
  | c :: s' => if is_whitespace c then trim_start s' else s
  | [] => []
  end.

(** [s.trim()] *)
Definition trim (s : jsstring) : jsstring :=
  rev (trim_start (rev (trim_start s))).

(** [a] occurs in [s] as a contiguous substring. *)
Definition substring_of (a s : jsstring) : Prop :=
  exists pre post, s = pre ++ a ++ post.

Definition is_digit (c : char16) : bool :=
  (N.leb 48 c && N.leb c 57)%N.

Definition digit_value (c : char16) : Z := Z.of_N c - 48.

(** Longest prefix of decimal digits, and what follows it. *)
Fixpoint take_digits (s : jsstring) : jsstring * jsstring :=
  match s with
  | c :: s' =>
      if is_digit c
      then let '(d, r) := take_digits s' in (c :: d, r)
      else ([], s)
  | [] => ([], [])
  end.

(** Value of a digit sequence read in base ten. *)
Definition decimal_value (d : jsstring) : Z :=
  fold_left (fun acc c => 10 * acc + digit_value c) d 0.

(** Decimal digits of a natural number, ["0"] for zero. *)
Definition of_N (n : N) : jsstring :=
  js (NilZero.string_of_uint (N.to_uint n)).

End JsString.
Export JsString.

(** ** JavaScript numbers *)

Module JsNumber.

(** A Number value: an IEEE 754 binary64 value with a single NaN. *)
Definition number := spec_float.

Definition prec : Z := 53.
Definition emax : Z := 1024.

Definition NaN : number := S754_nan.
Definition zero : number := S754_zero false.

(** The Number nearest to [(-1)^neg * digits * 10^exp10], ties to even:
    the rounding of numeric literals in JSON text and in [Number(string)]. *)
Definition of_decimal (neg : bool) (digits exp10 : Z) : number :=
  if digits <=? 0 then S754_zero neg
  else if 0 <=? exp10
  then binary_normalize prec emax (cond_Zopp neg (digits * 10 ^ exp10)) 0 neg
  else
    let '(m, e, l) :=
      SFdiv_core_binary prec emax digits 0 (10 ^ (- exp10)) 0 in
    binary_round_aux prec emax neg m e l.

(** The Number for an integer. *)
Definition of_Z (z : Z) : number :=
  binary_normalize prec emax z 0 false.

(** [Number.isFinite(x)] for a Number [x]. *)
Definition isFinite (x : number) : bool :=
  match x with
  | S754_zero _ | S754_finite _ _ _ => true
  | S754_infinity _ | S754_nan => false
  end.

(** The real value of a finite Number (0 for the others). *)
Definition to_Q (x : number) : Q :=
  match x with
  | S754_finite s m e =>
      if 0 <=? e
      then inject_Z (cond_Zopp s (Zpos m) * 2 ^ e)
      else Qmake (cond_Zopp s (Zpos m)) (Z.to_pos (2 ^ (- e)))
  | _ => 0%Q
  end.

(** [Math.round(x)] for a finite [x]: the integer closest to [x], the one
    towards +∞ when two are equally close.  The result is an integral
    Number and is given here by its integer value; the sign of a zero
    result is not kept (the handler passes it to [Math.max(1, _)]). *)
Definition Math_round (x : number) : Z :=
  match x with
  | S754_finite s m e =>
      let n := cond_Zopp s (Zpos m) in
      if 0 <=? e then n * 2 ^ e
      else (2 * n + 2 ^ (- e)) / 2 ^ (1 - e)
  | _ => 0
  end.

(** *** Number::toString (radix 10)

    For a positive finite [x] the language specification asks for
    integers [n], [k], [s] with [k >= 1], [10^(k-1) <= s < 10^k], such that
    [s * 10^(n-k)] reads back as [x] and [k] is as small as possible; the
    digits of [s] are then laid out according to [n]. *)

(** [(p, q)] with [x = p / q] for the positive finite [m * 2^e]. *)
Definition ratio_of (m : positive) (e : Z) : Z * Z :=
  if 0 <=? e then (Zpos m * 2 ^ e, 1) else (Zpos m, 2 ^ (- e)).

(** [p/q * 10^j] as a fraction. *)
Definition scale10 (x : Z * Z) (j : Z) : Z * Z :=
  let '(p, q) := x in
  if 0 <=? j then (p * 10 ^ j, q) else (p, q * 10 ^ (- j)).

Definition floor_ratio (x : Z * Z) : Z := fst x / snd x.

(** The least [n >= n0] with [x < 10^n]. *)
Fixpoint decimal_exponent (fuel : nat) (x : Z * Z) (n0 : Z) : Z :=
  match fuel with
  | O => n0
  | S fuel' =>
      if floor_ratio (scale10 x (- n0)) =? 0 then n0
      else decimal_exponent fuel' x (n0 + 1)
  end.

(** A starting point below the decimal exponent of [m * 2^e], from its
    binary exponent and [log10 2 < 0.30103]. *)
Definition decimal_exponent_below (m : positive) (e : Z) : Z :=
  (Zpos (digits2_pos m) + e - 1) * 30103 / 100000 - 1.

Definition reads_back (x : number) (s e10 : Z) : bool :=
  SFeqb (of_decimal false s e10) x.

(** The candidates with [k] digits: the two [k]-digit decimals around
    [x], the one closer to [x] first. *)
Definition candidates (x : Z * Z) (n k : Z) : list (Z * Z) :=
  let t := scale10 x (k - n) in
  let s1 := floor_ratio t in
  let hi := if s1 + 1 <? 10 ^ k then (s1 + 1, n) else (10 ^ (k - 1), n + 1) in
  match (2 * fst t) ?= ((2 * s1 + 1) * snd t) with
  | Lt => [(s1, n); hi]
  | Gt => [hi; (s1, n)]
  | Eq => if Z.even s1 then [(s1, n); hi] else [hi; (s1, n)]
  end.

(** The digits [s], the exponent [n] and the digit count [k]. *)
Fixpoint shortest (fuel : nat) (x : number) (r : Z * Z) (n k : Z)
  : Z * Z * Z :=
  match fuel with
  | O => (floor_ratio (scale10 r (k - n)), n, k)
  | S fuel' =>
      match filter (fun c => reads_back x (fst c) (snd c - k))
                   (candidates r n k) with
      | (s, n') :: _ => (s, n', k)
      | [] => shortest fuel' x r n (k + 1)
      end
  end.

Definition zeros (n : Z) : jsstring := repeat 48%N (Z.to_nat n).

Definition exponent_suffix (n : Z) : jsstring :=
  js "e" ++ (if 0 <=? n - 1 then js "+" else js "-")
         ++ JsString.of_N (Z.abs_N (n - 1)).

Definition layout (s n k : Z) : jsstring :=
  let d := JsString.of_N (Z.to_N s) in
  if (k <=? n) && (n <=? 21) then d ++ zeros (n - k)
  else if (0 <? n) && (n <=? 21)
  then firstn (Z.to_nat n) d ++ js "." ++ skipn (Z.to_nat n) d
  else if (-6 <? n) && (n <=? 0) then js "0." ++ zeros (- n) ++ d
  else if k =? 1 then d ++ exponent_suffix n
  else firstn 1 d ++ js "." ++ skipn 1 d ++ exponent_suffix n.

(** [String(x)] for a Number [x]. *)
Definition to_string (x : number) : jsstring :=
  match x with
  | S754_nan => js "NaN"
  | S754_zero _ => js "0"
  | S754_infinity s => if s then js "-Infinity" else js "Infinity"
  | S754_finite s m e =>
      let r := ratio_of m e in
      let n := decimal_exponent 8 r (decimal_exponent_below m e) in
      let '(d, n', k) := shortest 17 (S754_finite false m e) r n 1 in
      (if s then js "-" else []) ++ layout d n' k
  end.

(** *** Decimal literals *)

(** An unsigned decimal literal split into its integer digits, its
    fraction digits (when there is a dot) and its exponent. *)
Record decimal := {
  int_digits : jsstring;
  frac_digits : option jsstring;
  exponent : Z
}.

Definition is_e (c : char16) : bool := (N.eqb c 101 || N.eqb c 69)%N.

(** [e] or [E], an optional sign and at least one digit. *)
Definition scan_exponent (s : jsstring) : option (Z * jsstring) :=
  match s with
  | c :: r =>
      if is_e c then
        let '(neg, r') :=
          match r with
          | 43%N :: r' => (false, r')
          | 45%N :: r' => (true, r')
          | _ => (false, r)
          end in
        match take_digits r' with
        | ([], _) => None
        | (d, rest) => Some (cond_Zopp neg (decimal_value d), rest)
        end
      else Some (0, s)
  | [] => Some (0, s)
  end.

(** Reads [digits? (. digits?)? exponent?] and requires the end of the
    string after it. *)
Definition scan_decimal (s : jsstring) : option decimal :=
  let '(ip, r1) := take_digits s in
  let '(fp, r2) :=
    match r1 with
    | 46%N :: r => let '(d, r') := take_digits r in (Some d, r')
    | _ => (None, r1)
    end in
  match scan_exponent r2 with
  | Some (ex, []) =>
      Some {| int_digits := ip; frac_digits := fp; exponent := ex |}
  | _ => None
  end.

Definition fraction (d : decimal) : jsstring :=
  match frac_digits d with Some f => f | None => [] end.

(** The Number a scanned literal denotes. *)
Definition decimal_number (neg : bool) (d : decimal) : number :=
  of_decimal neg (decimal_value (int_digits d ++ fraction d))
             (exponent d - Z.of_nat (List.length (fraction d))).

(** The JSON number grammar: an optional minus sign; an integer part
    that is [0] or a digit sequence without a leading [0]; an optional
    fraction of a dot and at least one digit; an optional exponent. *)
Definition json_number (s : jsstring) : option number :=
  let '(neg, u) :=
    match s with 45%N :: u => (true, u) | _ => (false, s) end in
  match scan_decimal u with
  | Some d =>
      let int_ok :=
        match int_digits d with
        | [] => false
        | [_] => true
        | c :: _ => negb (N.eqb c 48)
        end in
      let frac_ok :=
        match frac_digits d with Some [] => false | _ => true end in
      if int_ok && frac_ok then Some (decimal_number neg d) else None
  | None => None
  end.

(** *** StringToNumber, the conversion behind [Number(string)] *)

Definition radix_digit (radix : Z) (c : char16) : option Z :=
  let c := Z.of_N c in
  let v := if (48 <=? c) && (c <=? 57) then c - 48
           else if (97 <=? c) && (c <=? 102) then c - 87
           else if (65 <=? c) && (c <=? 70) then c - 55
           else radix in
  if v <? radix then Some v else None.

Fixpoint radix_value (radix : Z) (acc : Z) (s : jsstring) : option Z :=
  match s with
  | [] => Some acc
  | c :: s' =>
      match radix_digit radix c with
      | Some v => radix_value radix (radix * acc + v) s'
      | None => None
      end
  end.

(** [0x], [0o] and [0b] integer literals (either case of the letter). *)
Definition non_decimal (s : jsstring) : option Z :=
  match s with
  | 48%N :: p :: ((_ :: _) as d) =>
      if (N.eqb p 120 || N.eqb p 88)%N then radix_value 16 0 d
      else if (N.eqb p 111 || N.eqb p 79)%N then radix_value 8 0 d
      else if (N.eqb p 98 || N.eqb p 66)%N then radix_value 2 0 d
      else None
  | _ => None
  end.

Definition str_decimal (s : jsstring) : number :=
  let '(neg, u) :=
    match s with
    | 43%N :: u => (false, u)
    | 45%N :: u => (true, u)
    | _ => (false, s)
    end in
  if JsString.eqb u (js "Infinity") then S754_infinity neg
  else
    match scan_decimal u with
    | Some d =>
        match int_digits d, frac_digits d with
        | [], (None | Some []) => NaN
        | _, _ => decimal_number neg d
        end
    | None => NaN
    end.

(** [Number(s)] for a string [s]. *)
Definition of_string (s : jsstring) : number :=
  match trim s with
  | [] => zero
  | t =>
      match non_decimal t with
      | Some v => of_Z v
      | None => str_decimal t
      end
  end.

End JsNumber.
Export JsNumber.

(** ** Exceptions *)

Module Exn.

(** What a [throw] carries.  [Error] is [new Error(message)]; the other
    two are raised by built-ins, and their message text is the engine's. *)
Inductive exn :=
| Error (message : jsstring)
| SyntaxError
| TypeError.

Inductive result (A : Type) :=
| Ok (a : A)
| Throw (e : exn).
Arguments Ok {A} a.
Arguments Throw {A} e.

Definition bind {A B} (r : result A) (k : A -> result B) : result B :=
  match r with
  | Ok a => k a
  | Throw e => Throw e
  end.

(** [try { body } catch (e) { handler(e) }] *)
Definition try_catch {A} (body : result A) (handler : exn -> result A)
  : result A :=
  match body with
  | Ok a => Ok a
  | Throw e => handler e
  end.

Fixpoint mapM {A B} (f : A -> result B) (l : list A) : result (list B) :=
  match l with
  | [] => Ok []
  | x :: l' => bind (f x) (fun y => bind (mapM f l') (fun r => Ok (y :: r)))
  end.

End Exn.
Export Exn.

Declare Scope result_scope.
Delimit Scope result_scope with result.
Notation "x <- r ;; k" := (Exn.bind r (fun x => k))
  (at level 61, r at next level, right associativity) : result_scope.

(** ** JavaScript values *)

Module JsValue.

(** The values [JSON.parse] can produce, and [undefined], which reading
    an absent property gives.  An object is its own data properties in
    insertion order; its prototype is [Object.prototype]. *)
#[warnings="-register-all"]
Inductive value :=
| Undefined
| Null
| Bool (b : bool)
| Num (n : number)
| Str (s : jsstring)
| Arr (elems : list value)
| Obj (props : list (jsstring * value)).

(** Own property lookup. *)
Fixpoint own (props : list (jsstring * value)) (key : jsstring)
  : option value :=
  match props with
  | [] => None
  | (k, v) :: props' => if JsString.eqb k key then Some v else own props' key
  end.

(** CreateDataProperty: a repeated key overwrites the earlier value and
    keeps its place. *)
Fixpoint define (props : list (jsstring * value)) (key : jsstring)
         (v : value) : list (jsstring * value) :=
  match props with
  | [] => [(key, v)]
  | (k, v0) :: props' =>
      if JsString.eqb k key then (k, v) :: props'
      else (k, v0) :: define props' key v
  end.

(** [x.key] for one of the names the handler reads ([strengths],
    [weaknesses], [suggestions], [score]): names that no built-in
    prototype defines, so that only an own property of an object can
    supply a value. *)
Definition Get (x : value) (key : jsstring) : result value :=
  match x with
  | Undefined | Null => Throw TypeError
  | Obj props =>
      Ok match own props key with Some v => v | None => Undefined end
  | _ => Ok Undefined
  end.

(** ToBoolean: what [!x] and [filter(Boolean)] test. *)
Definition ToBoolean (x : value) : bool :=
  match x with
  | Undefined | Null => false
  | Bool b => b
  | Num (S754_zero _) | Num S754_nan => false
  | Num _ => true
  | Str s => negb (is_empty s)
  | Arr _ | Obj _ => true
  end.

Definition Array_isArray (x : value) : bool :=
  match x with Arr _ => true | _ => false end.

Definition comma : jsstring := js ",".

(** [String(x)].  An array is joined with commas, [null] and [undefined]
    elements giving the empty string.  For an object, OrdinaryToPrimitive
    calls [toString] then [valueOf] when they are callable: a parsed
    object inherits both from [Object.prototype] (giving
    ["[object Object]"]), unless it has an own [toString] property, which
    is data and not callable; then the inherited [valueOf] returns the
    object itself and the conversion throws a TypeError. *)
Fixpoint String_ (x : value) : result jsstring :=
  match x with
  | Undefined => Ok (js "undefined")
  | Null => Ok (js "null")
  | Bool b => Ok (if b then js "true" else js "false")
  | Num n => Ok (to_string n)
  | Str s => Ok s
  | Arr elems =>
      let element (e : value) : result jsstring :=
        match e with
        | Undefined | Null => Ok []
        | _ => String_ e
        end in
      (fix join (l : list value) : result jsstring :=
         match l with
         | [] => Ok []
         | [e] => element e
         | e :: l' =>
             (s <- element e ;; r <- join l' ;; Ok (s ++ comma ++ r))%result
         end) elems
  | Obj props =>
      match own props (js "toString") with
      | Some _ => Throw TypeError
      | None => Ok (js "[object Object]")
      end
  end.

(** [Number(x)]: objects and arrays go through ToPrimitive, which for the
    values at hand ends in the same string as [String(x)]. *)
Definition Number_ (x : value) : result number :=
  match x with
  | Undefined => Ok NaN
  | Null => Ok zero
  | Bool b => Ok (if b then of_Z 1 else zero)
  | Num n => Ok n
  | Str s => Ok (of_string s)
  | Arr _ | Obj _ => (s <- String_ x ;; Ok (of_string s))%result
  end.

End JsValue.
Export JsValue.

(** ** JSON.parse *)

Module JSON.

Inductive token :=
| TLBrace | TRBrace | TLBracket | TRBracket | TColon | TComma
| TString (s : jsstring)
| TNumber (n : number)
| TTrue | TFalse | TNull.

(** *** Tokens

    The scanner reads one code unit at a time.  Accumulated characters
    are kept in reverse. *)
Inductive mode :=
| Between
| InString (acc : jsstring)
| InEscape (acc : jsstring)
| InUnicode (todo : nat) (code : N) (acc : jsstring)
| InNumber (acc : jsstring)
| InWord (acc : jsstring).

(** JSON white space: tab, line feed, carriage return, space. *)
Definition is_json_space (c : char16) : bool :=
  (N.eqb c 9 || N.eqb c 10 || N.eqb c 13 || N.eqb c 32)%N.

(** The characters a number token is made of: digits, signs, dot, [e]. *)
Definition is_number_char (c : char16) : bool :=
  (is_digit c || N.eqb c 43 || N.eqb c 45 || N.eqb c 46 || is_e c)%N.

Definition is_letter (c : char16) : bool := (N.leb 97 c && N.leb c 122)%N.

Definition finish_number (acc : jsstring) (toks : list token)
  : option (list token) :=
  match json_number (rev acc) with
  | Some n => Some (TNumber n :: toks)
  | None => None
  end.

Definition finish_word (acc : jsstring) (toks : list token)
  : option (list token) :=
  let w := rev acc in
  if JsString.eqb w (js "true") then Some (TTrue :: toks)
  else if JsString.eqb w (js "false") then Some (TFalse :: toks)
  else if JsString.eqb w (js "null") then Some (TNull :: toks)
  else None.

(** A code unit met between tokens. *)
Definition start (c : char16) (toks : list token)
  : option (mode * list token) :=
  if is_json_space c then Some (Between, toks)
  else if N.eqb c 123 then Some (Between, TLBrace :: toks)
  else if N.eqb c 125 then Some (Between, TRBrace :: toks)
  else if N.eqb c 91 then Some (Between, TLBracket :: toks)
  else if N.eqb c 93 then Some (Between, TRBracket :: toks)
  else if N.eqb c 58 then Some (Between, TColon :: toks)
  else if N.eqb c 44 then Some (Between, TComma :: toks)
  else if N.eqb c 34 then Some (InString [], toks)
  else if (N.eqb c 45 || is_digit c)%bool then Some (InNumber [c], toks)
  else if is_letter c then Some (InWord [c], toks)
  else None.

(** The character an escape letter stands for. *)
Definition escape (c : char16) : option char16 :=
  if (N.eqb c 34 || N.eqb c 92 || N.eqb c 47)%bool then Some c
  else if N.eqb c 98 then Some 8%N
  else if N.eqb c 102 then Some 12%N
  else if N.eqb c 110 then Some 10%N
  else if N.eqb c 114 then Some 13%N
  else if N.eqb c 116 then Some 9%N
  else None.

Definition step (m : mode) (toks : list token) (c : char16)
  : option (mode * list token) :=
  match m with
  | Between => start c toks
  | InString acc =>
      if N.eqb c 34 then Some (Between, TString (rev acc) :: toks)
      else if N.eqb c 92 then Some (InEscape acc, toks)
      else if N.ltb c 32 then None
      else Some (InString (c :: acc), toks)
  | InEscape acc =>
      if N.eqb c 117 then Some (InUnicode 4 0 acc, toks)
      else match escape c with
           | Some c' => Some (InString (c' :: acc), toks)
           | None => None
           end
  | InUnicode todo code acc =>
      match radix_digit 16 c, todo with
      | Some v, S O => Some (InString ((16 * code + Z.to_N v)%N :: acc), toks)
      | Some v, S todo' =>
          Some (InUnicode todo' (16 * code + Z.to_N v)%N acc, toks)
      | _, _ => None
      end
  | InNumber acc =>
      if is_number_char c then Some (InNumber (c :: acc), toks)
      else match finish_number acc toks with
           | Some toks' => start c toks'
           | None => None
           end
  | InWord acc =>
      if is_letter c then Some (InWord (c :: acc), toks)
      else match finish_word acc toks with
           | Some toks' => start c toks'
           | None => None
           end
  end.

Fixpoint scan (m : mode) (toks : list token) (text : jsstring)
  : option (list token) :=
  match text with
  | c :: text' =>
      match step m toks c with
      | Some (m', toks') => scan m' toks' text'
      | None => None
      end
  | [] =>
      match m with
      | Between => Some toks
      | InNumber acc => finish_number acc toks
      | InWord acc => finish_word acc toks
      | InString _ | InEscape _ | InUnicode _ _ _ => None
      end
  end.

Definition tokens (text : jsstring) : option (list token) :=
  option_map (@rev token) (scan Between [] text).

(** *** Values

    A push-down recogniser over the tokens.  A frame is an enclosing
    array with the elements read so far (in reverse), or an enclosing
    object with its properties so far and the key whose value is being
    read. *)
Inductive frame :=
| InArray (elems : list value)
| InObject (props : list (jsstring * value)) (key : jsstring).

Inductive state :=
| WantValue                                   (* a value must follow *)
| ArrayOpen                                   (* after [[] *)
| ObjectOpen                                  (* after [{] *)
| WantKey (props : list (jsstring * value))   (* after a comma in an object *)
| WantColon (props : list (jsstring * value)) (key : jsstring)
| ArrayNext (elems : list value)              (* after an element *)
| ObjectNext (props : list (jsstring * value))(* after a property *)
| Finished (v : value).                       (* the whole text was a value *)

(** A value is complete: hand it to the enclosing frame. *)
Definition complete (v : value) (stack : list frame) : state * list frame :=
  match stack with
  | [] => (Finished v, [])
  | InArray elems :: stack' => (ArrayNext (v :: elems), stack')
  | InObject props key :: stack' => (ObjectNext (define props key v), stack')
  end.

(** A token where a value is expected. *)
Definition value_token (t : token) (stack : list frame)
  : option (state * list frame) :=
  match t with
  | TString s => Some (complete (Str s) stack)
  | TNumber n => Some (complete (Num n) stack)
  | TTrue => Some (complete (Bool true) stack)
  | TFalse => Some (complete (Bool false) stack)
  | TNull => Some (complete Null stack)
  | TLBracket => Some (ArrayOpen, stack)
  | TLBrace => Some (ObjectOpen, stack)
  | TRBrace | TRBracket | TColon | TComma => None
  end.

Definition feed (st : state) (stack : list frame) (t : token)
  : option (state * list frame) :=
  match st, t with
  | WantValue, _ => value_token t stack
  | ArrayOpen, TRBracket => Some (complete (Arr []) stack)
  | ArrayOpen, _ => value_token t (InArray [] :: stack)
  | ObjectOpen, TRBrace => Some (complete (Obj []) stack)
  | ObjectOpen, TString k => Some (WantColon [] k, stack)
  | WantKey props, TString k => Some (WantColon props k, stack)
  | WantColon props k, TColon => Some (WantValue, InObject props k :: stack)
  | ArrayNext elems, TComma => Some (WantValue, InArray elems :: stack)
  | ArrayNext elems, TRBracket => Some (complete (Arr (rev elems)) stack)
  | ObjectNext props, TComma => Some (WantKey props, stack)
  | ObjectNext props, TRBrace => Some (complete (Obj props) stack)
  | _, _ => None
  end.

Fixpoint run (st : state) (stack : list frame) (toks : list token)
  : option value :=
  match toks with
  | t :: toks' =>
      match feed st stack t with
      | Some (st', stack') => run st' stack' toks'
      | None => None
      end
  | [] => match st with Finished v => Some v | _ => None end
  end.

(** [JSON.parse(text)]: the value, or a SyntaxError. *)
Definition parse (text : jsstring) : result value :=
  match tokens text with
  | Some toks =>
      match run WantValue [] toks with
      | Some v => Ok v
      | None => Throw SyntaxError
      end
  | None => Throw SyntaxError
  end.

End JSON.

(** ** The request, the response and the collaborators *)

Definition bytes := list N.

(** An uploaded [File]: its declared MIME type and its content. *)
Record File := {
  type : jsstring;
  arrayBuffer : bytes
}.

(** The two form fields, [formData.get(...)] being [null] for an absent
    one. *)
Record FormData := {
  text : option jsstring;
  file : option File
}.

Record Request := {
  formData : result FormData
}.

Record Review := {
  strengths : list jsstring;
  weaknesses : list jsstring;
  suggestions : list jsstring;
  score : Z
}.

(** The [error] string of a failure body: a string of the source, or the
    message an engine error carries. *)
Inductive error_text :=
| Plain (s : jsstring)
| EngineMessage (e : exn).

Inductive body :=
| ErrorBody (error : error_text)
| ReviewBody (r : Review).

Record Response := {
  status : Z;
  json : body
}.

(** The argument of [openai.chat.completions.create]. *)
Record ChatRequest := {
  apiKey : jsstring;
  baseURL : option jsstring;
  model : jsstring;
  temperature : number;
  system_content : jsstring;
  user_content : jsstring
}.

(** What the handler reaches outside itself.  The three environment
    variables are [undefined] or a string; the decoders and the model call
    return or throw.  [chat_completions_create] yields
    [completion.choices?.[0]?.message?.content], [None] when the chain ends
    in [null] or [undefined]. *)
Record World := {
  OPENAI_API_KEY : option jsstring;
  OPENAI_BASE_URL : option jsstring;
  OPENAI_MODEL : option jsstring;
  pdf : bytes -> result jsstring;
  mammoth_extractRawText : bytes -> result jsstring;
  buffer_toString_utf8 : bytes -> jsstring;
  chat_completions_create : ChatRequest -> result (option jsstring)
}.

(** [x || y] on strings that may be [null]/[undefined]. *)
Definition or_else (x : option jsstring) (y : jsstring) : jsstring :=
  match x with
  | Some ((_ :: _) as s) => s
  | _ => y
  end.

(** [!x] for a string that may be [null]/[undefined]. *)
Definition falsy (x : option jsstring) : bool :=
  match x with
  | Some (_ :: _) => false
  | _ => true
  end.

(** [err.message || fallback] *)
Definition message_or (err : exn) (fallback : jsstring) : error_text :=
  match err with
  | Error [] => Plain fallback
  | Error m => Plain m
  | _ => EngineMessage err
  end.

(** [NextResponse.json({ error }, { status })] *)
Definition error_response (error : error_text) (st : Z) : Response :=
  {| status := st; json := ErrorBody error |}.

(** ** The handler monad

    A computation of the handler logs the model calls it makes and ends in
    one of three ways: it goes on with a value, it [return]s a response, or
    it throws. *)

Module Handler.

Inductive exit (A : Type) :=
| Next (a : A)
| Return (r : Response)
| Raise (e : exn).
Arguments Next {A} a.
Arguments Return {A} r.
Arguments Raise {A} e.

Definition handler (A : Type) : Type := exit A * list ChatRequest.

Definition next {A} (a : A) : handler A := (Next a, []).
Definition return_ {A} (r : Response) : handler A := (Return r, []).

Definition bind {A B} (h : handler A) (k : A -> handler B) : handler B :=
  match h with
  | (Next a, log) => let '(x, log') := k a in (x, log ++ log')
  | (Return r, log) => (Return r, log)
  | (Raise e, log) => (Raise e, log)
  end.

(** A computation that may throw and makes no call. *)
Definition lift {A} (r : result A) : handler A :=
  match r with
  | Ok a => next a
  | Throw e => (Raise e, [])
  end.

(** The outbound call, logged whether it returns or throws. *)
Definition call (w : World) (c : ChatRequest) : handler (option jsstring) :=
  match chat_completions_create w c with
  | Ok completion => (Next completion, [c])
  | Throw e => (Raise e, [c])
  end.

End Handler.
Import Handler.

Declare Scope handler_scope.
Delimit Scope handler_scope with handler.
Notation "x <- h ;; k" := (Handler.bind h (fun x => k))
  (at level 61, h at next level, right associativity) : handler_scope.
Notation "'when' c 'return' r ;; k" :=
  (if c then Handler.return_ r else k)
  (at level 61, c at next level, r at next level, right associativity)
  : handler_scope.

(** ** The handler *)

Definition quote : char16 := 34%N.
Definition newline : jsstring := [10%N].

(** The lines of a template literal, joined by line feeds. *)
Fixpoint lines (l : list string) : jsstring :=
  match l with
  | [] => []
  | [x] => js x
  | x :: l' => js x ++ newline ++ lines l'
  end.

Definition readFileAsBuffer (f : File) : bytes := arrayBuffer f.

Definition extractTextFromPdf (w : World) (buffer : bytes) : result jsstring :=
  try_catch (pdf w buffer)
            (fun _ => Throw (Error (js "Failed to extract text from PDF"))).

Definition extractTextFromDocx (w : World) (buffer : bytes) : result jsstring :=
  try_catch (mammoth_extractRawText w buffer)
            (fun _ => Throw (Error (js "Failed to extract text from DOCX"))).

Definition mime_pdf : jsstring := js "application/pdf".
Definition mime_docx : jsstring :=
  js "application/vnd.openxmlformats-officedocument.wordprocessingml.document".
Definition mime_text : jsstring := js "text/plain".

Definition processFile (w : World) (f : File) : result jsstring :=
  let buffer := readFileAsBuffer f in
  if JsString.eqb (type f) mime_pdf then extractTextFromPdf w buffer
  else if JsString.eqb (type f) mime_docx then extractTextFromDocx w buffer
  else if JsString.eqb (type f) mime_text then Ok (buffer_toString_utf8 w buffer)
  else Throw (Error (js
    "Unsupported file type. Please upload a PDF, DOCX, or text file.")).

(** What precedes the CV in the prompt, up to the opening quotes. *)
Definition prompt_head : jsstring :=
  lines [
    "You are an expert career coach and recruiter. Analyze the following CV/resume content and produce a structured review.";
    "";
    "    Return strictly a JSON object with the following keys:";
    "    - strengths: string[] (3-7 concise bullet points)";
    "    - weaknesses: string[] (3-7 concise bullet points)";
    "    - suggestions: string[] (actionable improvements, 3-7 items)";
    "    - score: number (integer from 1 to 10)";
    "";
    "    CV:";
    "    "
  ]%string ++ [quote; quote; quote].

Definition prompt_tail : jsstring := [quote; quote; quote].

Definition buildPrompt (cv : jsstring) : jsstring :=
  prompt_head ++ cv ++ prompt_tail.

(** [content.match(/\{[\s\S]*\}/)]: from the first [{] to the last [}]
    after it. *)
Fixpoint through_last_close (s : jsstring) : option jsstring :=
  match s with
  | [] => None
  | c :: s' =>
      match through_last_close s' with
      | Some m => Some (c :: m)
      | None => if N.eqb c 125 then Some [c] else None
      end
  end.

Fixpoint match_braces (content : jsstring) : option jsstring :=
  match content with
  | [] => None
  | c :: content' =>
      if N.eqb c 123
      then option_map (cons c) (through_last_close content')
      else match_braces content'
  end.

(** The two parse attempts; [parsed] stays [null] when the first throws
    and the pattern does not match. *)
Definition parse_content (content : jsstring) : result value :=
  try_catch (JSON.parse content)
            (fun _ =>
               match match_braces content with
               | Some m => JSON.parse m
               | None => Ok Null
               end).

(** [Array.isArray(x) ? x.map(String).filter(Boolean) : []] *)
Definition sanitizeArray (x : value) : result (list jsstring) :=
  match x with
  | Arr elems =>
      (strings <- mapM String_ elems ;;
       Ok (filter (fun s => negb (is_empty s)) strings))%result
  | _ => Ok []
  end.

(** [sanitizeArray(parsed.field).slice(0, 10)] *)
Definition sanitizeField (parsed : value) (field : string)
  : result (list jsstring) :=
  (x <- Get parsed (js field) ;;
   l <- sanitizeArray x ;;
   Ok (firstn 10 l))%result.

(** [Number.isFinite(scoreNum)
       ? Math.min(10, Math.max(1, Math.round(scoreNum))) : 0] *)
Definition sanitizeScore (scoreNum : number) : Z :=
  if isFinite scoreNum
  then Z.min 10 (Z.max 1 (Math_round scoreNum))
  else 0.

(** The statements that build [result] from [parsed]. *)
Definition sanitize (parsed : value) : result Review :=
  (s <- Get parsed (js "score") ;;
   scoreNum <- Number_ s ;;
   strengths <- sanitizeField parsed "strengths" ;;
   weaknesses <- sanitizeField parsed "weaknesses" ;;
   suggestions <- sanitizeField parsed "suggestions" ;;
   Ok {| strengths := strengths;
         weaknesses := weaknesses;
         suggestions := suggestions;
         score := sanitizeScore scoreNum |})%result.

Definition chat_request (w : World) (cvText : jsstring) : ChatRequest :=
  {| apiKey := or_else (OPENAI_API_KEY w) [];
     baseURL := match OPENAI_BASE_URL w with
                | Some ((_ :: _) as u) => Some u
                | _ => None
                end;
     model := or_else (OPENAI_MODEL w) (js "gpt-4o-mini");
     temperature := of_decimal false 2 (-1);
     system_content := js
       "You are a strict JSON generator. Always respond with a single JSON object, no code fences.";
     user_content := buildPrompt cvText |}.

(** The second half of the [try] block, from [new OpenAI(...)] on: the
    model call, the two parse attempts and the coercion of the fields. *)
Definition POST_review (w : World) (cvText : jsstring) : handler Response :=
  (completion <- call w (chat_request w cvText) ;;
   let content :=
     match completion with Some c => c | None => js "{}" end in
   parsed <- lift (parse_content content) ;;
   when negb (ToBoolean parsed)
   return error_response (Plain (js "Failed to parse model response")) 502 ;;
   result <- lift (sanitize parsed) ;;
   next {| status := 200; json := ReviewBody result |})%handler.

(** The body of the outer [try]: the checks on the input, then
    [POST_review] on the text to analyze. *)
Definition POST_try (w : World) (req : Request) : handler Response :=
  (form <- lift (formData req) ;;
   let text := text form in
   let file := file form in
   when falsy text && match file with None => true | Some _ => false end
   return error_response (Plain (js "Either text or file must be provided")) 400 ;;
   when falsy (OPENAI_API_KEY w)
   return error_response (Plain (js "OPENAI_API_KEY is not set on server")) 500 ;;
   cvText <-
     match file with
     | Some f =>
         match processFile w f with
         | Ok extractedText => next extractedText
         | Throw error =>
             return_ (error_response
                        (message_or error (js "Error processing file")) 400)
         end
     | None => next (or_else text [])
     end ;;
   when is_empty (trim cvText)
   return error_response (Plain (js "No text content found to analyze")) 400 ;;
   POST_review w cvText)%handler.

(** The outer [catch]: whatever was thrown becomes a 500. *)
Definition POST_catch (h : handler Response) : Response * list ChatRequest :=
  match h with
  | (Next r, log) | (Return r, log) => (r, log)
  | (Raise err, log) =>
      (error_response (message_or err (js "Unexpected server error")) 500, log)
  end.

(** [POST]: the response, and the model calls made on the way. *)
Definition POST (w : World) (req : Request) : Response * list ChatRequest :=
  POST_catch (POST_try w req).

(** ** JSON.stringify

    What [NextResponse.json(body)] puts on the wire.  Strings are quoted
    as QuoteJSONString does; a Number that is not finite, and inside an
    array a value without a JSON form, give [null]; a property whose value
    has no JSON form is left out; properties whose key is an array index
    come first, in ascending order, then the others in insertion order. *)

Module Stringify.

(** A hexadecimal digit, lower case. *)
Definition hex_char (d : N) : char16 :=
  (if d <? 10 then 48 + d else 87 + d)%N.

(** [\uXXXX] *)
Definition unicode_escape (c : char16) : jsstring :=
  [92; 117; hex_char ((c / 4096) mod 16); hex_char ((c / 256) mod 16);
   hex_char ((c / 16) mod 16); hex_char (c mod 16)]%N.

Definition is_high_surrogate (c : char16) : bool :=
  (N.leb 55296 c && N.leb c 56319)%N.

Definition is_low_surrogate (c : char16) : bool :=
  (N.leb 56320 c && N.leb c 57343)%N.

(** A code unit that is not a surrogate. *)
Definition quote_char (c : char16) : jsstring :=
  if N.eqb c 8 then [92; 98]%N
  else if N.eqb c 9 then [92; 116]%N
  else if N.eqb c 10 then [92; 110]%N
  else if N.eqb c 12 then [92; 102]%N
  else if N.eqb c 13 then [92; 114]%N
  else if N.eqb c 34 then [92; 34]%N
  else if N.eqb c 92 then [92; 92]%N
  else if N.ltb c 32 then unicode_escape c
  else [c].

(** The characters between the quotes.  A high surrogate followed by a
    low one is a pair and is copied; a surrogate on its own is escaped.
    [paired] tells that the code unit before was the high half of a
    pair. *)
Fixpoint quote_chars (paired : bool) (s : jsstring) : jsstring :=
  match s with
  | [] => []
  | c :: s' =>
      if is_high_surrogate c then
        if match s' with d :: _ => is_low_surrogate d | [] => false end
        then c :: quote_chars true s'
        else unicode_escape c ++ quote_chars false s'
      else if is_low_surrogate c then
        (if paired then [c] else unicode_escape c) ++ quote_chars false s'
      else quote_char c ++ quote_chars false s'
  end.

(** QuoteJSONString *)
Definition quote_string (s : jsstring) : jsstring :=
  [quote] ++ quote_chars false s ++ [quote].

Fixpoint join_comma (l : list jsstring) : jsstring :=
  match l with
  | [] => []
  | [x] => x
  | x :: l' => x ++ comma ++ join_comma l'
  end.

(** The array index a property key denotes, if it is one: a canonical
    decimal numeral below [2^32 - 1]. *)
Definition array_index (key : jsstring) : option Z :=
  match take_digits key with
  | (d, []) =>
      let canonical :=
        match d with
        | [] => false
        | [_] => true
        | c :: _ => negb (N.eqb c 48)
        end in
      if canonical && (decimal_value d <? 2 ^ 32 - 1)
      then Some (decimal_value d) else None
  | _ => None
  end.

(** Insertion of an indexed member in ascending order. *)
Fixpoint insert_indexed (i : Z) (m : jsstring)
         (l : list (Z * jsstring)) : list (Z * jsstring) :=
  match l with
  | [] => [(i, m)]
  | (j, m') :: l' =>
      if i <? j then (i, m) :: l else (j, m') :: insert_indexed i m l'
  end.

(** The members of an object in the order of OrdinaryOwnPropertyKeys,
    from the keys and the JSON texts of the values. *)
Fixpoint ordered_members (l : list (jsstring * option jsstring))
  : list (Z * jsstring) * list jsstring :=
  match l with
  | [] => ([], [])
  | (key, text) :: l' =>
      let '(indexed, named) := ordered_members l' in
      match text with
      | None => (indexed, named)
      | Some t =>
          let member := quote_string key ++ js ":" ++ t in
          match array_index key with
          | Some i => (insert_indexed i member indexed, named)
          | None => (indexed, member :: named)
          end
      end
  end.

(** [JSON.stringify(v)]: the text, or nothing for [undefined]. *)
Fixpoint stringify (v : value) : option jsstring :=
  match v with
  | Undefined => None
  | Null => Some (js "null")
  | Bool b => Some (if b then js "true" else js "false")
  | Num n => Some (if isFinite n then to_string n else js "null")
  | Str s => Some (quote_string s)
  | Arr elems =>
      Some (js "[" ++
            join_comma
              (map (fun e => match stringify e with
                             | Some t => t
                             | None => js "null"
                             end) elems)
            ++ js "]")
  | Obj props =>
      let '(indexed, named) :=
        ordered_members (map (fun p => (fst p, stringify (snd p))) props) in
      Some (js "{" ++ join_comma (map snd indexed ++ named) ++ js "}")
  end.

End Stringify.

(** ** The page

    The client component [HomePage] (second version in the source, with
    drag and drop): its state, its event handlers, and the form it sends
    to the route.  A handler is a function on the state; the [set...]
    calls of one handler are applied in order.  [handleSubmit] is cut at
    its [await]: the part before the request, and the part that runs when
    the response (or a failure) comes back.  The DOM is not part of the
    state: scrolling and the value of the hidden file input are left
    out. *)

Module Page.

(** A [File] in the browser: [file.name], [file.size], and the content
    and declared type that are uploaded. *)
Record Upload := {
  name : jsstring;
  size : Z;
  blob : File
}.

Record FileState := {
  file : option Upload;
  preview : option Upload;     (* the file an object URL was made for *)
  extractedText : option jsstring;
  fileName : jsstring;
  fileSize : jsstring;
  fileType : jsstring
}.

(** [review] is the state [Review | null]: the value last passed to
    [setReview], [null] when there is none. *)
Record State := {
  text : jsstring;
  fileState : FileState;
  review : value;
  loading : bool;
  error : option error_text;
  isDragging : bool
}.

(** What [fetch] resolves to: [res.ok], and [res.json()], which may
    throw. *)
Record FetchResponse := {
  ok : bool;
  json : result value
}.

Definition noFile : FileState :=
  {| file := None; preview := None; extractedText := None;
     fileName := []; fileSize := []; fileType := [] |}.

(** The state of the first render. *)
Definition initial : State :=
  {| text := []; fileState := noFile; review := Null; loading := false;
     error := None; isDragging := false |}.

Definition setText (st : State) (t : jsstring) : State :=
  {| text := t; fileState := fileState st; review := review st;
     loading := loading st; error := error st; isDragging := isDragging st |}.

Definition setFileState (st : State) (fs : FileState) : State :=
  {| text := text st; fileState := fs; review := review st;
     loading := loading st; error := error st; isDragging := isDragging st |}.

Definition setReview (st : State) (r : value) : State :=
  {| text := text st; fileState := fileState st; review := r;
     loading := loading st; error := error st; isDragging := isDragging st |}.

Definition setLoading (st : State) (b : bool) : State :=
  {| text := text st; fileState := fileState st; review := review st;
     loading := b; error := error st; isDragging := isDragging st |}.

Definition setError (st : State) (e : option error_text) : State :=
  {| text := text st; fileState := fileState st; review := review st;
     loading := loading st; error := e; isDragging := isDragging st |}.

Definition setIsDragging (st : State) (b : bool) : State :=
  {| text := text st; fileState := fileState st; review := review st;
     loading := loading st; error := error st; isDragging := b |}.

(** [s.startsWith(prefix)] *)
Fixpoint startsWith (s prefix : jsstring) : bool :=
  match prefix, s with
  | [], _ => true
  | p :: prefix', c :: s' => N.eqb c p && startsWith s' prefix'
  | _ :: _, [] => false
  end.

Definition validTypes : list jsstring := [mime_pdf; mime_docx; mime_text].

(** [validTypes.includes(t)] *)
Definition includes (l : list jsstring) (t : jsstring) : bool :=
  existsb (fun x => JsString.eqb x t) l.

Definition maxSize : Z := 5 * 1024 * 1024.

Section Handlers.

(** [formatFileSize] goes through [Math.log], whose value the language
    leaves to the implementation; it is kept as a parameter. *)
Variable formatFileSize : Z -> jsstring.

Definition processFile (st : State) (f : Upload) : State :=
  if negb (includes validTypes (type (blob f))) then
    setError st
      (Some (Plain (js "Please upload a valid file type (PDF, DOCX, or TXT)")))
  else if size f >? maxSize then
    setError st (Some (Plain (js "File size should not exceed 5MB")))
  else
    let st1 :=
      setFileState st
        {| file := Some f;
           preview := if startsWith (type (blob f)) (js "image/")
                      then Some f else None;
           extractedText := None;
           fileName := name f;
           fileSize := formatFileSize (size f);
           fileType := type (blob f) |} in
    setError (setText st1 []) None.

Definition handleDragOver (st : State) : State := setIsDragging st true.

Definition handleDragLeave (st : State) : State := setIsDragging st false.

(** [files] is [e.dataTransfer.files?.[0]]. *)
Definition handleDrop (st : State) (files : option Upload) : State :=
  let st1 := setIsDragging st false in
  match files with
  | Some f => processFile st1 f
  | None => st1
  end.

(** [files] is [e.target.files?.[0]]. *)
Definition handleFileChange (st : State) (files : option Upload) : State :=
  match files with
  | Some f => processFile st f
  | None => st
  end.

Definition resetForm (st : State) : State :=
  setError (setReview (setFileState (setText st []) noFile) Null) None.

(** The [onChange] of the text area: [fileState.file] is read from the
    state the handler was rendered with. *)
Definition textarea_onChange (st : State) (value : jsstring) : State :=
  let st1 := setText st value in
  match file (fileState st) with
  | Some _ => resetForm st1
  | None => st1
  end.

(** [!text.trim() && !fileState.file] *)
Definition nothing_to_send (st : State) : bool :=
  is_empty (trim (text st))
  && match file (fileState st) with None => true | Some _ => false end.

(** The form [handleSubmit] builds: each field is appended when it is
    truthy. *)
Definition form_of (st : State) : FormData :=
  Build_FormData
    (match text st with [] => None | t => Some t end)
    (option_map blob (file (fileState st))).

(** [handleSubmit] up to the call of [fetch]: the new state, and the form
    to send if the input check passed. *)
Definition handleSubmit_begin (st : State) : State * option FormData :=
  if nothing_to_send st then
    (setError st (Some (Plain (js "Please enter text or upload a file"))),
     None)
  else
    (setReview (setError (setLoading st true) None) Null, Some (form_of st)).

(** [data?.error]: [error] is a name no built-in prototype defines. *)
Definition data_error (data : value) : value :=
  match data with
  | Obj props =>
      match own props (js "error") with Some v => v | None => Undefined end
  | _ => Undefined
  end.

(** The body of the [try] after [fetch]. *)
Definition read_response (response : result FetchResponse) : result value :=
  (res <- response ;;
   data <- json res ;;
   if negb (ok res) then
     let reason :=
       if ToBoolean (data_error data) then data_error data
       else Str (js "Request failed") in
     (message <- String_ reason ;; Throw (Error message))
   else Ok data)%result.

(** [handleSubmit] from the response on: [try], [catch], [finally]. *)
Definition handleSubmit_end (st : State) (response : result FetchResponse)
  : State :=
  let st1 :=
    match read_response response with
    | Ok data => setReview st data
    | Throw err =>
        setError st
          (Some (message_or err
                   (js "Something went wrong. Please try again.")))
    end in
  setLoading st1 false.

(** [handleSubmit] run to its end with nothing else in between: the final
    state and the requests made. *)
Definition handleSubmit (fetch : FormData -> result FetchResponse)
           (st : State) : State * list FormData :=
  match handleSubmit_begin st with
  | (st1, Some form) => (handleSubmit_end st1 (fetch form), [form])
  | (st1, None) => (st1, [])
  end.

(** [disabled], the state of the Analyze button. *)
Definition disabled (st : State) : bool := loading st || nothing_to_send st.

(** What can happen to the page. *)
Inductive event :=
| DragOver
| DragLeave
| Drop (files : option Upload)
| FileChange (files : option Upload)
| Typing (value : jsstring)
| ResetForm
| SubmitBegin
| SubmitEnd (response : result FetchResponse).

Definition step (st : State) (ev : event) : State :=
  match ev with
  | DragOver => handleDragOver st
  | DragLeave => handleDragLeave st
  | Drop files => handleDrop st files
  | FileChange files => handleFileChange st files
  | Typing value => textarea_onChange st value
  | ResetForm => resetForm st
  | SubmitBegin => fst (handleSubmit_begin st)
  | SubmitEnd response => handleSubmit_end st response
  end.

(** The state after a sequence of events, from the first render. *)
Definition run (events : list event) : State := fold_left step events initial.

End Handlers.

End Page.

(** ** The page, first version

    The earlier [HomePage] of the source: a plain file input without type
    or size check, a text area, a Clear button and the same
    [handleSubmit]. *)

Module PageV1.

Record FileState := {
  file : option Page.Upload;
  preview : option Page.Upload;
  extractedText : option jsstring
}.

Record State := {
  text : jsstring;
  fileState : FileState;
  review : value;
  loading : bool;
  error : option error_text
}.

Definition noFile : FileState :=
  {| file := None; preview := None; extractedText := None |}.

Definition initial : State :=
  {| text := []; fileState := noFile; review := Null; loading := false;
     error := None |}.

Definition setText (st : State) (t : jsstring) : State :=
  {| text := t; fileState := fileState st; review := review st;
     loading := loading st; error := error st |}.

Definition setFileState (st : State) (fs : FileState) : State :=
  {| text := text st; fileState := fs; review := review st;
     loading := loading st; error := error st |}.

Definition setReview (st : State) (r : value) : State :=
  {| text := text st; fileState := fileState st; review := r;
     loading := loading st; error := error st |}.

Definition setLoading (st : State) (b : bool) : State :=
  {| text := text st; fileState := fileState st; review := review st;
     loading := b; error := error st |}.

Definition setError (st : State) (e : option error_text) : State :=
  {| text := text st; fileState := fileState st; review := review st;
     loading := loading st; error := e |}.

(** [files] is [e.target.files?.[0]]. *)
Definition handleFileChange (st : State) (files : option Page.Upload)
  : State :=
  match files with
  | None => st
  | Some f =>
      setText
        (setFileState st
           {| file := Some f;
              preview := if Page.startsWith (type (Page.blob f)) (js "image/")
                         then Some f else None;
              extractedText := None |})
        []
  end.

(** The [onChange] of the text area. *)
Definition textarea_onChange (st : State) (value : jsstring) : State :=
  let st1 := setText st value in
  match file (fileState st) with
  | Some _ => setFileState st1 noFile
  | None => st1
  end.

(** The [onClick] of the Clear button. *)
Definition clear_onClick (st : State) : State :=
  setText (setFileState st noFile) [].

Definition nothing_to_send (st : State) : bool :=
  is_empty (trim (text st))
  && match file (fileState st) with None => true | Some _ => false end.

Definition form_of (st : State) : FormData :=
  Build_FormData
    (match text st with [] => None | t => Some t end)
    (option_map Page.blob (file (fileState st))).

Definition handleSubmit_begin (st : State) : State * option FormData :=
  if nothing_to_send st then
    (setError st (Some (Plain (js "Please enter text or upload a file"))),
     None)
  else
    (setReview (setError (setLoading st true) None) Null, Some (form_of st)).

Definition handleSubmit_end (st : State)
           (response : result Page.FetchResponse) : State :=
  let st1 :=
    match Page.read_response response with
    | Ok data => setReview st data
    | Throw err =>
        setError st (Some (message_or err (js "Something went wrong")))
    end in
  setLoading st1 false.

Inductive event :=
| FileChange (files : option Page.Upload)
| Typing (value : jsstring)
| Clear
| SubmitBegin
| SubmitEnd (response : result Page.FetchResponse).

Definition step (st : State) (ev : event) : State :=
  match ev with
  | FileChange files => handleFileChange st files
  | Typing value => textarea_onChange st value
  | Clear => clear_onClick st
  | SubmitBegin => fst (handleSubmit_begin st)
  | SubmitEnd response => handleSubmit_end st response
  end.

Definition run (events : list event) : State := fold_left step events initial.

End PageV1.

(** ** Vocabulary of the statements *)

(** The request passes every check on the input, and [cvText] is the text
    that goes on to the model: the pasted text when there is no file, the
    text extracted from the file otherwise. *)
Inductive accepted (w : World) (req : Request) : jsstring -> Prop :=
| accepted_text form t :
    formData req = Ok form ->
    file form = None ->
    text form = Some t ->
    falsy (OPENAI_API_KEY w) = false ->
    is_empty (trim t) = false ->
    accepted w req t
| accepted_file form f extracted :
    formData req = Ok form ->
    file form = Some f ->
    falsy (OPENAI_API_KEY w) = false ->
    processFile w f = Ok extracted ->
    is_empty (trim extracted) = false ->
    accepted w req extracted.

(** A request whose form was read, with the two fields given. *)
Definition submit (t : option jsstring) (f : option File) : Request :=
  {| formData := Ok {| text := t; file := f |} |}.

(** The Review with nothing in it. *)
Definition degraded : Review :=
  {| strengths := []; weaknesses := []; suggestions := []; score := 0 |}.

Definition ok_response (r : Review) : Response :=
  {| status := 200; json := ReviewBody r |}.

(** The request is answered with status [st] and the model is not called. *)
Definition refused (w : World) (req : Request) (st : Z) : Prop :=
  status (fst (POST w req)) = st /\ snd (POST w req) = [].

(** A JSON object in the sense of the grammar: braces, not brackets. *)
Definition is_object (v : value) : bool :=
  match v with Obj _ => true | _ => false end.

Definition supported (mime : jsstring) : bool :=
  JsString.eqb mime mime_pdf || JsString.eqb mime mime_docx
  || JsString.eqb mime mime_text.

Definition non_empty (s : jsstring) : bool := negb (is_empty s).

(** The coercion of a list field in the words of the specification: a
    sequence has every element converted to its string form, the empty
    ones dropped, and at most 10 kept; anything else gives the empty
    list. *)
Definition spec_list_field (x : value) : result (list jsstring) :=
  match x with
  | Arr elems =>
      match mapM String_ elems with
      | Ok strings => Ok (firstn 10 (filter non_empty strings))
      | Throw e => Throw e
      end
  | _ => Ok []
  end.

(** [k] is an integer nearest to the finite Number [x]. *)
Definition nearest_integer (k : Z) (x : number) : Prop :=
  (Qabs (inject_Z k - to_Q x) <= 1 # 2)%Q.

Definition clamp (k : Z) : Z := Z.min 10 (Z.max 1 k).

(** The JSON object that carries a Review. *)
Definition review_value (r : Review) : value :=
  Obj [ (js "strengths", Arr (map Str (strengths r)));
        (js "weaknesses", Arr (map Str (weaknesses r)));
        (js "suggestions", Arr (map Str (suggestions r)));
        (js "score", Num (of_Z (score r))) ].

(** A list field of the Review schema: at most 10 non-empty strings. *)
Definition schema_list (l : list jsstring) : Prop :=
  (List.length l <= 10)%nat /\ Forall (fun s => s <> []) l.

(** A Review that matches the schema: three lists of at most 10 non-empty
    strings and a score from 1 to 10. *)
Definition well_formed (r : Review) : Prop :=
  schema_list (strengths r) /\ schema_list (weaknesses r)
  /\ schema_list (suggestions r) /\ 1 <= score r <= 10.

(** The object with properties [props] has the four fields of [r], the
    lists as arrays of strings and the score as a Number. *)
Definition carries (props : list (jsstring * value)) (r : Review) : Prop :=
  own props (js "strengths") = Some (Arr (map Str (strengths r)))
  /\ own props (js "weaknesses") = Some (Arr (map Str (weaknesses r)))
  /\ own props (js "suggestions") = Some (Arr (map Str (suggestions r)))
  /\ own props (js "score") = Some (Num (of_Z (score r))).

(** No object in [v], at any depth, has an own [toString] property. *)
Fixpoint plain (v : value) : bool :=
  match v with
  | Arr elems => forallb plain elems
  | Obj props =>
      match own props (js "toString") with Some _ => false | None => true end
      && forallb (fun p => plain (snd p)) props
  | _ => true
  end.

(** The string an array element contributes to the join. *)
Definition element_string (e : value) : result jsstring :=
  match e with
  | Undefined | Null => Ok []
  | _ => String_ e
  end.

(** The statuses the handler can answer with. *)
Definition known_status (st : Z) : Prop :=
  st = 200 \/ st = 400 \/ st = 500 \/ st = 502.

(** The Review of a response, when its body is one. *)
Definition review_of (r : Response) : option Review :=
  match json r with
  | ReviewBody review => Some review
  | ErrorBody _ => None
  end.

(** The Review contract of a 200 response: three lists of at most 10
    non-empty strings, and a score of 0 or from 1 to 10. *)
Definition review_contract (r : Review) : Prop :=
  schema_list (strengths r) /\ schema_list (weaknesses r)
  /\ schema_list (suggestions r)
  /\ (score r = 0 \/ 1 <= score r <= 10).

(** [w] with other decoders. *)
Definition with_decoders (w : World)
           (p m : bytes -> result jsstring) (u : bytes -> jsstring) : World :=
  {| OPENAI_API_KEY := OPENAI_API_KEY w;
     OPENAI_BASE_URL := OPENAI_BASE_URL w;
     OPENAI_MODEL := OPENAI_MODEL w;
     pdf := p;
     mammoth_extractRawText := m;
     buffer_toString_utf8 := u;
     chat_completions_create := chat_completions_create w |}.

(** The outermost enclosing frame of the JSON recogniser. *)
Fixpoint outermost (stack : list JSON.frame) : option JSON.frame :=
  match stack with
  | [] => None
  | f :: stack' =>
      match outermost stack' with
      | Some g => Some g
      | None => Some f
      end
  end.

(** The recogniser is inside a text whose first token was [{], or has
    finished one. *)
Definition rooted (st : JSON.state) (stack : list JSON.frame) : Prop :=
  match outermost stack with
  | Some (JSON.InObject _ _) =>
      match st with JSON.Finished _ => False | _ => True end
  | Some (JSON.InArray _) => False
  | None =>
      match st with
      | JSON.ObjectOpen | JSON.WantKey _ | JSON.WantColon _ _
      | JSON.ObjectNext _ | JSON.Finished (Obj _) => True
      | _ => False
      end
  end.

(** What the page keeps true of its state: no preview and no extracted
    text are ever stored; a selected file has a type the page accepts and
    at most [maxSize] bytes, its name, size label and type are the ones
    displayed, and the text area is empty; without a selected file the
    file state is the empty one. *)
Definition page_invariant (formatFileSize : Z -> jsstring)
           (st : Page.State) : Prop :=
  Page.preview (Page.fileState st) = None
  /\ Page.extractedText (Page.fileState st) = None
  /\ match Page.file (Page.fileState st) with
     | Some f =>
         Page.text st = []
         /\ Page.includes Page.validTypes (type (Page.blob f)) = true
         /\ Page.size f <= Page.maxSize
         /\ Page.fileName (Page.fileState st) = Page.name f
         /\ Page.fileSize (Page.fileState st) = formatFileSize (Page.size f)
         /\ Page.fileType (Page.fileState st) = type (Page.blob f)
     | None => Page.fileState st = Page.noFile
     end.

(** The form between [fetch] and [req.formData()].  The multipart
    encoding is not the page's nor the route's: it may rewrite a text
    field (its line breaks, an unpaired surrogate) and the type of a file
    (one without a type is given one).  [wire_text] and [wire_file] are
    what the route reads for what the page appended. *)
Record Transport := {
  wire_text : jsstring -> jsstring;
  wire_file : File -> File
}.

(** A transport under which a text stays blank or not, and the type of a
    file stays one the route supports or not. *)
Definition transparent (tr : Transport) : Prop :=
  (forall t, is_empty (trim (wire_text tr t)) = is_empty (trim t))
  /\ (forall f, supported (type (wire_file tr f)) = supported (type f)).

(** The form the route reads when [form] was sent. *)
Definition delivered (tr : Transport) (form : FormData) : FormData :=
  {| text := option_map (wire_text tr) (text form);
     file := option_map (wire_file tr) (file form) |}.

(** The request the route receives when the page submits from state
    [st]. *)
Definition sent_by (tr : Transport) (st : Page.State) : Request :=
  {| formData := Ok (delivered tr (Page.form_of st)) |}.

(** What the first version of the page keeps true of its state: no
    extracted text is stored; a selected file goes with an empty text
    area, and a preview exists only for a selected file whose type starts
    with [image/]; without a selected file the file state is empty. *)
Definition page_v1_invariant (st : PageV1.State) : Prop :=
  PageV1.extractedText (PageV1.fileState st) = None
  /\ match PageV1.file (PageV1.fileState st) with
     | Some f =>
         PageV1.text st = []
         /\ PageV1.preview (PageV1.fileState st) =
              (if Page.startsWith (type (Page.blob f)) (js "image/")
               then Some f else None)
     | None => PageV1.fileState st = PageV1.noFile
     end.

(** The [error] string of a failure body, given the message texts of
    the engine. *)
Definition error_string (engine : exn -> jsstring) (e : error_text)
  : jsstring :=
  match e with
  | Plain s => s
  | EngineMessage x => engine x
  end.

(** The object passed to [NextResponse.json]. *)
Definition body_value (engine : exn -> jsstring) (b : body) : value :=
  match b with
  | ErrorBody e => Obj [(js "error", Str (error_string engine e))]
  | ReviewBody r => review_value r
  end.

(** [res.ok]: the status is in the range 200-299. *)
Definition response_ok (r : Response) : bool :=
  (200 <=? status r) && (status r <=? 299).

(** [res.json()] on the body the route sent: the text that
    [NextResponse.json] made, taken to arrive as it was made, parsed. *)
Definition res_json (engine : exn -> jsstring) (r : Response)
  : result value :=
  match Stringify.stringify (body_value engine (json r)) with
  | Some t => JSON.parse t
  | None => Throw SyntaxError
  end.

(** [fetch('/api/review', ...)] served by the route in world [w], the
    network never failing. *)
Definition route_fetch (w : World) (engine : exn -> jsstring)
           (tr : Transport) (form : FormData)
  : result Page.FetchResponse :=
  let r := fst (POST w {| formData := Ok (delivered tr form) |}) in
  Ok {| Page.ok := response_ok r; Page.json := res_json engine r |}.

(** The tokens of an array of strings. *)
Definition string_array_tokens (l : list jsstring) : list JSON.token :=
  JSON.TLBracket
    :: match l with
       | [] => []
       | s :: l' =>
           JSON.TString s
             :: flat_map (fun x => [JSON.TComma; JSON.TString x]) l'
       end
    ++ [JSON.TRBracket].

(** The tokens of the JSON text of a Review. *)
Definition review_tokens (r : Review) : list JSON.token :=
  [JSON.TLBrace; JSON.TString (js "strengths"); JSON.TColon]
    ++ string_array_tokens (strengths r)
    ++ [JSON.TComma; JSON.TString (js "weaknesses"); JSON.TColon]
    ++ string_array_tokens (weaknesses r)
    ++ [JSON.TComma; JSON.TString (js "suggestions"); JSON.TColon]
    ++ string_array_tokens (suggestions r)
    ++ [JSON.TComma; JSON.TString (js "score"); JSON.TColon;
        JSON.TNumber (of_Z (score r)); JSON.TRBrace].

(** The JSON text of an array of strings. *)
Definition string_array_text (l : list jsstring) : jsstring :=
  js "[" ++ Stringify.join_comma (map Stringify.quote_string l) ++ js "]".

(** The JSON text of a Review. *)
Definition review_text (r : Review) : jsstring :=
  js "{"
    ++ Stringify.join_comma
         [ Stringify.quote_string (js "strengths") ++ js ":"
             ++ string_array_text (strengths r);
           Stringify.quote_string (js "weaknesses") ++ js ":"
             ++ string_array_text (weaknesses r);
           Stringify.quote_string (js "suggestions") ++ js ":"
             ++ string_array_text (suggestions r);
           Stringify.quote_string (js "score") ++ js ":"
             ++ to_string (of_Z (score r)) ]
    ++ js "}".

(** The page driven through its controls, with the number of requests
    in flight.  [handleSubmit] runs on a click of the Analyze button, and
    a disabled button delivers no click; a response arrives only for a
    request in flight.  Nothing is returned for a sequence of events that
    cannot happen. *)
Fixpoint ui_run (formatFileSize : Z -> jsstring) (events : list Page.event)
         (st : Page.State) (pending : nat) : option (Page.State * nat) :=
  match events with
  | [] => Some (st, pending)
  | ev :: events' =>
      match ev with
      | Page.SubmitBegin =>
          if Page.disabled st then None
          else ui_run formatFileSize events'
                 (Page.step formatFileSize st ev)
                 (match snd (Page.handleSubmit_begin st) with
                  | Some _ => S pending
                  | None => pending
                  end)
      | Page.SubmitEnd _ =>
          match pending with
          | O => None
          | S pending' =>
              ui_run formatFileSize events'
                (Page.step formatFileSize st ev) pending'
          end
      | _ => ui_run formatFileSize events'
               (Page.step formatFileSize st ev) pending
      end
  end.

(** The message of the route for a type it does not support. *)
Definition unsupported_message : jsstring :=
  js "Unsupported file type. Please upload a PDF, DOCX, or text file.".

(** *** Test doubles *)

(** A world whose model replies [reply], with API key [key]; its PDF
    decoder fails and its other decoders return fixed or verbatim text. *)
Definition stub (key : option jsstring) (reply : result (option jsstring))
  : World :=
  {| OPENAI_API_KEY := key;
     OPENAI_BASE_URL := None;
     OPENAI_MODEL := None;
     pdf := fun _ => Throw (Error (js "Invalid PDF structure"));
     mammoth_extractRawText := fun _ => Ok (js "Hello World");
     buffer_toString_utf8 := fun b => b;
     chat_completions_create := fun _ => reply |}.

Definition key_set : option jsstring := Some (js "sk-test").

(** A literal with ['] standing for the double quote. *)
Definition jsq (s : string) : jsstring :=
  map (fun c => if N.eqb c 39 then quote else c) (js s).

(** The sample reply of the specification: prose, a line feed, then the
    JSON object. *)
Definition sample_reply : jsstring :=
  js "Here is the result:" ++ newline ++
  jsq "{'strengths':['a'],'weaknesses':[],'suggestions':['b','b',''],'score':15}".

(** What [JSON.parse] makes of the object in it. *)
Definition sample_value : value :=
  Obj [ (js "strengths", Arr [Str (js "a")]);
        (js "weaknesses", Arr []);
        (js "suggestions", Arr [Str (js "b"); Str (js "b"); Str []]);
        (js "score", Num (of_Z 15)) ].

(** Replies that are JSON objects, with an object that has an own
    [toString] property as a list element, and as the score. *)
Definition unconvertible_element_reply : jsstring :=
  jsq "{'strengths':[{'toString':1}],'score':7}".

Definition unconvertible_score_reply : jsstring :=
  jsq "{'strengths':['a'],'score':{'toString':1}}".

(** A chatty reply whose braces do not hold JSON. *)
Definition chatty_reply : jsstring :=
  js "Sure! Here is my review: {strengths: none}".

(** The Review of the end-to-end scenario, and the reply that carries it. *)
Definition scenario_review : Review :=
  {| strengths := [js "Clear experience statement"];
     weaknesses := [js "No metrics"];
     suggestions := [js "Add quantifiable achievements"];
     score := 7 |}.

Definition scenario_reply : jsstring :=
  jsq "{'strengths':['Clear experience statement'],'weaknesses':['No metrics'],'suggestions':['Add quantifiable achievements'],'score':7}".

Definition scenario_text : jsstring :=
  js "Experienced backend engineer, 5 years Go and distributed systems.".

Definition png : File :=
  {| type := js "image/png"; arrayBuffer := [137; 80; 78; 71]%N |}.
Definition broken_pdf : File :=
  {| type := mime_pdf; arrayBuffer := [37; 80; 68; 70]%N |}.
Definition blank_txt : File :=
  {| type := mime_text; arrayBuffer := [32; 10; 9]%N |}.
Definition docx : File :=
  {| type := mime_docx; arrayBuffer := [80; 75; 3; 4]%N |}.

(** Files as the browser hands them to the page. *)
Definition cv_docx : Page.Upload :=
  {| Page.name := js "cv.docx"; Page.size := 4; Page.blob := docx |}.
Definition photo_png : Page.Upload :=
  {| Page.name := js "photo.png"; Page.size := 4; Page.blob := png |}.
Definition huge_pdf : Page.Upload :=
  {| Page.name := js "scan.pdf"; Page.size := 5242881;
     Page.blob := broken_pdf |}.

(** The transport that changes nothing. *)
Definition verbatim : Transport :=
  {| wire_text := fun t => t; wire_file := fun f => f |}.

(** Every line break of a text field becomes CR LF. *)
Fixpoint normalize_newlines (s : jsstring) : jsstring :=
  match s with
  | [] => []
  | c :: s' =>
      if N.eqb c 13 then
        match s' with
        | d :: s'' =>
            if N.eqb d 10 then 13%N :: 10%N :: normalize_newlines s''
            else 13%N :: 10%N :: normalize_newlines s'
        | [] => [13; 10]%N
        end
      else if N.eqb c 10 then 13%N :: 10%N :: normalize_newlines s'
      else c :: normalize_newlines s'
  end.

(** The multipart encoding of a browser: line breaks as CR LF, and
    [application/octet-stream] for a file without a type. *)
Definition multipart : Transport :=
  {| wire_text := normalize_newlines;
     wire_file := fun f =>
       {| type := match type f with
                  | [] => js "application/octet-stream"
                  | t => t
                  end;
          arrayBuffer := arrayBuffer f |} |}.

(** A size label, standing for [formatFileSize]. *)
Definition bytes_label (n : Z) : jsstring :=
  JsString.of_N (Z.to_N n) ++ js " Bytes".

(** ** Laws of the handler monad *)

Section HandlerLaws.

Context {A B : Type}.

Lemma bind_next (a : A) (k : A -> handler B) :
  Handler.bind (next a) k = k a.
Proof. unfold Handler.bind, next. destruct (k a); reflexivity. Qed.

Lemma bind_return (r : Response) (k : A -> handler B) :
  Handler.bind (return_ r) k = return_ r.
Proof. reflexivity. Qed.

Lemma bind_lift_ok (a : A) (k : A -> handler B) :
  Handler.bind (lift (Ok a)) k = k a.
Proof. apply bind_next. Qed.

Lemma bind_lift_throw (e : exn) (k : A -> handler B) :
  Handler.bind (lift (Throw e)) k = (Raise e, []).
Proof. reflexivity. Qed.

End HandlerLaws.

(** ** Strings *)

Lemma eqb_refl (s : jsstring) : JsString.eqb s s = true.
Proof.
  induction s as [|c s IH]; simpl; [reflexivity|].
  now rewrite N.eqb_refl, IH.
Qed.

Lemma eqb_eq (a b : jsstring) : JsString.eqb a b = true <-> a = b.
Proof.
  split.
  - revert b; induction a as [|x a IH]; intros [|y b]; simpl; try easy.
    intros H. apply andb_true_iff in H as [Hx Hab].
    apply N.eqb_eq in Hx. apply IH in Hab. now subst.
  - intros ->. apply eqb_refl.
Qed.

Lemma trim_nonempty (s : jsstring) : is_empty (trim s) = false -> s <> [].
Proof. intros H ->. discriminate H. Qed.

Lemma falsy_some (s : jsstring) : s <> [] -> falsy (Some s) = false.
Proof. destruct s; [congruence | reflexivity]. Qed.

Lemma or_else_some (s d : jsstring) : s <> [] -> or_else (Some s) d = s.
Proof. destruct s; [congruence | reflexivity]. Qed.

(** ** The stages of [POST] *)

Section Stages.

Variable w : World.

(** An accepted request goes on to the model with its text. *)
Lemma POST_try_accepted (req : Request) (cv : jsstring) :
  accepted w req cv -> POST_try w req = POST_review w cv.
Proof.
  intros [form t Hform Hfile Htext Hkey Htrim
         |form f extracted Hform Hfile Hkey Hproc Htrim];
    unfold POST_try; rewrite Hform, bind_lift_ok, Hfile, Hkey.
  - pose proof (trim_nonempty _ Htrim) as Hne.
    rewrite Htext, (falsy_some _ Hne). cbn [andb].
    rewrite (or_else_some _ _ Hne), bind_next, Htrim. reflexivity.
  - rewrite andb_false_r, Hproc, bind_next, Htrim. reflexivity.
Qed.

(** Pasted text that is not blank is accepted when a key is set. *)
Lemma accepted_pasted (t : jsstring) :
  falsy (OPENAI_API_KEY w) = false ->
  is_empty (trim t) = false ->
  accepted w (submit (Some t) None) t.
Proof.
  intros Hkey Htrim.
  now apply (accepted_text w (submit (Some t) None)
               {| text := Some t; file := None |} t).
Qed.

(** A request the input checks turn away never reaches the model: it is
    answered 400 or 500 on the spot, or reading the form threw. *)
Lemma POST_try_cases (req : Request) :
  (exists cv, accepted w req cv)
  \/ (exists r, POST_try w req = (Return r, [])
                /\ (status r = 400 \/ status r = 500))
  \/ (exists e, POST_try w req = (Raise e, [])).
Proof.
  unfold POST_try.
  destruct (formData req) as [form|e] eqn:Hform;
    [|right; right; now exists e].
  rewrite bind_lift_ok.
  destruct (falsy (text form) && _) eqn:Hnone;
    [right; left; eexists; split; [reflexivity|now left]|].
  destruct (falsy (OPENAI_API_KEY w)) eqn:Hkey;
    [right; left; eexists; split; [reflexivity|now right]|].
  destruct (file form) as [f|] eqn:Hfile.
  - destruct (processFile w f) as [extracted|e] eqn:Hproc;
      [|right; left; eexists; split; [reflexivity|now left]].
    rewrite bind_next.
    destruct (is_empty (trim extracted)) eqn:Htrim;
      [right; left; eexists; split; [reflexivity|now left]|].
    left. exists extracted. eapply accepted_file; eauto.
  - rewrite bind_next.
    destruct (is_empty (trim (or_else (text form) []))) eqn:Htrim;
      [right; left; eexists; split; [reflexivity|now left]|].
    left. exists (or_else (text form) []).
    rewrite andb_true_r in Hnone.
    destruct (text form) as [[|c t]|] eqn:Htext; try discriminate.
    eapply accepted_text; eauto.
Qed.

(** What the response depends on once the completion is in: the parse
    of its content and the coercion of the parsed value. *)
Lemma POST_review_throw (cv : jsstring) (e : exn) :
  chat_completions_create w (chat_request w cv) = Throw e ->
  POST_review w cv = (Raise e, [chat_request w cv]).
Proof. intros H. unfold POST_review, call. now rewrite H. Qed.

Lemma POST_review_parsed (cv : jsstring) (completion : option jsstring)
      (parsed : value) :
  chat_completions_create w (chat_request w cv) = Ok completion ->
  parse_content (match completion with Some c => c | None => js "{}" end)
    = Ok parsed ->
  POST_review w cv =
    (if negb (ToBoolean parsed)
     then Return (error_response
                    (Plain (js "Failed to parse model response")) 502)
     else match sanitize parsed with
          | Ok r => Next (ok_response r)
          | Throw e => Raise e
          end,
     [chat_request w cv]).
Proof.
  intros Hcall Hparse. unfold POST_review, call. rewrite Hcall.
  cbn [Handler.bind]. rewrite Hparse, bind_lift_ok.
  destruct (negb (ToBoolean parsed)); [reflexivity|].
  destruct (sanitize parsed); reflexivity.
Qed.

Lemma POST_review_unparsed (cv : jsstring) (completion : option jsstring)
      (e : exn) :
  chat_completions_create w (chat_request w cv) = Ok completion ->
  parse_content (match completion with Some c => c | None => js "{}" end)
    = Throw e ->
  POST_review w cv = (Raise e, [chat_request w cv]).
Proof.
  intros Hcall Hparse. unfold POST_review, call. rewrite Hcall.
  cbn [Handler.bind]. now rewrite Hparse.
Qed.

End Stages.

Section Responses.

Variable w : World.

Lemma POST_accepted (req : Request) (cv : jsstring) :
  accepted w req cv -> POST w req = POST_catch (POST_review w cv).
Proof. intros H. unfold POST. now rewrite (POST_try_accepted w req cv H). Qed.

Lemma POST_catch_log (h : handler Response) : snd (POST_catch h) = snd h.
Proof. destruct h as [[r|r|e] log]; reflexivity. Qed.

(** [POST_review] makes the one call, whatever comes of it. *)
Lemma POST_review_log (cv : jsstring) :
  snd (POST_review w cv) = [chat_request w cv].
Proof.
  destruct (chat_completions_create w (chat_request w cv))
    as [completion|e] eqn:Hcall.
  - destruct (parse_content
                (match completion with Some c => c | None => js "{}" end))
      as [parsed|e] eqn:Hparse.
    + now rewrite (POST_review_parsed w cv completion parsed Hcall Hparse).
    + now rewrite (POST_review_unparsed w cv completion e Hcall Hparse).
  - now rewrite (POST_review_throw w cv e Hcall).
Qed.

(** The model is called at most once, and only with the prompt built
    from the text of an accepted request. *)
Lemma POST_log (req : Request) :
  snd (POST w req) = [] \/
  exists cv, accepted w req cv /\ snd (POST w req) = [chat_request w cv].
Proof.
  unfold POST. rewrite POST_catch_log.
  destruct (POST_try_cases w req) as [[cv Hacc]|[[r [-> _]]|[e ->]]];
    [right|now left|now left].
  exists cv. split; [assumption|].
  now rewrite (POST_try_accepted w req cv Hacc), POST_review_log.
Qed.

Lemma processFile_unsupported (f : File) :
  supported (type f) = false ->
  processFile w f =
    Throw (Error (js
      "Unsupported file type. Please upload a PDF, DOCX, or text file.")).
Proof.
  unfold supported, processFile. intros H.
  apply orb_false_iff in H as [H Htext].
  apply orb_false_iff in H as [Hpdf Hdocx].
  now rewrite Hpdf, Hdocx, Htext.
Qed.

Lemma processFile_pdf_failure (f : File) (e : exn) :
  type f = mime_pdf ->
  pdf w (arrayBuffer f) = Throw e ->
  processFile w f = Throw (Error (js "Failed to extract text from PDF")).
Proof.
  intros Htype Hpdf. unfold processFile, extractTextFromPdf, readFileAsBuffer.
  now rewrite Htype, eqb_refl, Hpdf.
Qed.

Lemma processFile_docx_failure (f : File) (e : exn) :
  type f = mime_docx ->
  mammoth_extractRawText w (arrayBuffer f) = Throw e ->
  processFile w f = Throw (Error (js "Failed to extract text from DOCX")).
Proof.
  intros Htype Hdocx.
  unfold processFile, extractTextFromDocx, readFileAsBuffer.
  rewrite Htype, eqb_refl, Hdocx. reflexivity.
Qed.

(** The input checks, one outcome after the other. *)
Lemma POST_nothing_supplied (req : Request) (form : FormData) :
  formData req = Ok form ->
  falsy (text form) = true -> file form = None ->
  POST w req =
    (error_response (Plain (js "Either text or file must be provided")) 400,
     []).
Proof.
  intros Hform Htext Hfile. unfold POST, POST_try.
  now rewrite Hform, bind_lift_ok, Htext, Hfile.
Qed.

Lemma POST_missing_key (req : Request) (form : FormData) :
  formData req = Ok form ->
  falsy (text form) = false \/ file form <> None ->
  falsy (OPENAI_API_KEY w) = true ->
  POST w req =
    (error_response (Plain (js "OPENAI_API_KEY is not set on server")) 500,
     []).
Proof.
  intros Hform Hsome Hkey. unfold POST, POST_try.
  rewrite Hform, bind_lift_ok, Hkey.
  destruct Hsome as [Htext|Hfile].
  - now rewrite Htext.
  - destruct (file form); [|congruence]. now rewrite andb_false_r.
Qed.

Lemma POST_file_rejected (req : Request) (form : FormData) (f : File)
      (e : exn) :
  formData req = Ok form ->
  file form = Some f ->
  falsy (OPENAI_API_KEY w) = false ->
  processFile w f = Throw e ->
  POST w req =
    (error_response (message_or e (js "Error processing file")) 400, []).
Proof.
  intros Hform Hfile Hkey Hproc. unfold POST, POST_try.
  now rewrite Hform, bind_lift_ok, Hfile, andb_false_r, Hkey, Hproc.
Qed.

Lemma POST_file_text (req : Request) (form : FormData) (f : File)
      (extracted : jsstring) :
  formData req = Ok form ->
  file form = Some f ->
  falsy (OPENAI_API_KEY w) = false ->
  processFile w f = Ok extracted ->
  POST w req =
    if is_empty (trim extracted)
    then (error_response (Plain (js "No text content found to analyze")) 400,
          [])
    else POST_catch (POST_review w extracted).
Proof.
  intros Hform Hfile Hkey Hproc. unfold POST, POST_try.
  rewrite Hform, bind_lift_ok, Hfile, andb_false_r, Hkey, Hproc, bind_next.
  now destruct (is_empty (trim extracted)).
Qed.

Lemma POST_blank_text (req : Request) (form : FormData) (t : jsstring) :
  formData req = Ok form ->
  file form = None -> text form = Some t ->
  falsy (OPENAI_API_KEY w) = false ->
  is_empty (trim t) = true ->
  status (fst (POST w req)) = 400 /\ snd (POST w req) = [].
Proof.
  intros Hform Hfile Htext Hkey Htrim. unfold POST, POST_try.
  rewrite Hform, bind_lift_ok, Hfile, Htext, Hkey.
  destruct t as [|c t]; [now split|].
  cbn [falsy andb or_else]. rewrite bind_next, Htrim. now split.
Qed.

End Responses.

(** ** Prompt Builder *)

(** C8.  [buildPrompt] is a function of the CV text alone and is defined on
    every string: the prompt is the fixed head of the template, the text,
    and the fixed tail, so the text occurs in it verbatim, and equal texts
    give equal prompts.  And a request
    with pasted text and no file that passes the input checks makes exactly
    one model call, whose user message contains the pasted text verbatim. *)
Theorem C8_buildPrompt_total_and_verbatim :
  (forall cv : jsstring,
      (exists prompt, buildPrompt cv = prompt
                      /\ prompt = prompt_head ++ cv ++ prompt_tail)
      /\ substring_of cv (buildPrompt cv))
  /\ (forall cv cv' : jsstring, cv = cv' -> buildPrompt cv = buildPrompt cv')
  /\ (forall (w : World) (t : jsstring),
         falsy (OPENAI_API_KEY w) = false ->
         is_empty (trim t) = false ->
         exists c, snd (POST w (submit (Some t) None)) = [c]
                   /\ user_content c = buildPrompt t
                   /\ substring_of t (user_content c)).
Proof.
  split; [|split].
  - intros cv. split.
    + now exists (buildPrompt cv).
    + now exists prompt_head, prompt_tail.
  - now intros cv cv' ->.
  - intros w t Hkey Htrim.
    assert (Hacc : accepted w (submit (Some t) None) t)
      by (eapply accepted_text; eauto; reflexivity).
    exists (chat_request w t). split; [|split].
    + rewrite (POST_accepted w _ t Hacc), POST_catch_log.
      apply POST_review_log.
    + reflexivity.
    + now exists prompt_head, prompt_tail.
Qed.

Lemma C8_witness :
  exists c,
    snd (POST (stub key_set (Ok None))
              (submit (Some (js "Experienced backend engineer")) None)) = [c]
    /\ user_content c = buildPrompt (js "Experienced backend engineer")
    /\ substring_of (js "Experienced backend engineer") (user_content c).
Proof.
  apply (proj2 (proj2 C8_buildPrompt_total_and_verbatim)); reflexivity.
Defined.

(** ** Input checks *)

(** C10.  The credentials check comes before the file is looked at: a
    request that carries some text or a file and finds no API key is
    answered 500, whatever the file is, and the model is not called. *)
Theorem C10_missing_key_precedes_normalization
        (w : World) (req : Request) (form : FormData) :
  formData req = Ok form ->
  falsy (text form) = false \/ file form <> None ->
  falsy (OPENAI_API_KEY w) = true ->
  POST w req =
    (error_response (Plain (js "OPENAI_API_KEY is not set on server")) 500, []).
Proof. apply POST_missing_key. Qed.

Lemma C10_witness :
  supported (type png) = false
  /\ POST (stub None (Ok None)) (submit None (Some png)) =
       (error_response (Plain (js "OPENAI_API_KEY is not set on server")) 500,
        []).
Proof.
  split; [reflexivity|].
  apply (C10_missing_key_precedes_normalization
           (stub None (Ok None)) (submit None (Some png))
           {| text := None; file := Some png |}).
  - reflexivity.
  - right. discriminate.
  - reflexivity.
Defined.

(** C5 as stated fails: an unsupported MIME type sent to a server without
    an API key is answered 500, not 400. *)
Lemma C5_unsupported_type_without_key_is_500 :
  supported (type png) = false
  /\ refused (stub None (Ok None)) (submit None (Some png)) 500.
Proof. split; [|split]; reflexivity. Qed.

(** C5, amended.  A request with neither text nor file is answered 400.
    When an API key is configured, a file of an unsupported declared type,
    a file whose extraction fails, and content that is empty or only white
    space after extraction are answered 400 too.  In none of these cases is
    the model called. *)
Theorem C5_input_errors_are_400
        (w : World) (req : Request) (form : FormData) :
  formData req = Ok form ->
  (falsy (text form) = true -> file form = None -> refused w req 400)
  /\ (falsy (OPENAI_API_KEY w) = false ->
      (forall f, file form = Some f ->
         (supported (type f) = false -> refused w req 400)
         /\ (forall e, processFile w f = Throw e -> refused w req 400)
         /\ (forall extracted, processFile w f = Ok extracted ->
             is_empty (trim extracted) = true -> refused w req 400))
      /\ (forall t, file form = None -> text form = Some t ->
          is_empty (trim t) = true -> refused w req 400)).
Proof.
  intros Hform. unfold refused. split; [|intros Hkey; split].
  - intros Htext Hfile.
    now rewrite (POST_nothing_supplied w req form Hform Htext Hfile).
  - intros f Hfile. split; [|split].
    + intros Htype.
      now rewrite (POST_file_rejected w req form f _ Hform Hfile Hkey
                     (processFile_unsupported w f Htype)).
    + intros e Hproc.
      now rewrite (POST_file_rejected w req form f e Hform Hfile Hkey Hproc).
    + intros extracted Hproc Htrim.
      now rewrite (POST_file_text w req form f extracted Hform Hfile Hkey
                     Hproc), Htrim.
  - intros t Hfile Htext Htrim.
    exact (POST_blank_text w req form t Hform Hfile Htext Hkey Htrim).
Qed.

Lemma C5_witness :
  refused (stub key_set (Ok None)) (submit None None) 400
  /\ refused (stub key_set (Ok None)) (submit None (Some png)) 400
  /\ refused (stub key_set (Ok None)) (submit None (Some broken_pdf)) 400
  /\ refused (stub key_set (Ok None)) (submit None (Some blank_txt)) 400
  /\ refused (stub key_set (Ok None)) (submit (Some (js "   ")) None) 400.
Proof.
  pose (w := stub key_set (Ok None)).
  split; [|split; [|split; [|split]]].
  - apply (proj1 (C5_input_errors_are_400 w (submit None None)
                    {| text := None; file := None |} eq_refl));
      reflexivity.
  - apply (proj1 (proj1 (proj2 (C5_input_errors_are_400 w
              (submit None (Some png)) {| text := None; file := Some png |}
              eq_refl) eq_refl) png eq_refl)).
    reflexivity.
  - apply (proj1 (proj2 (proj1 (proj2 (C5_input_errors_are_400 w
              (submit None (Some broken_pdf))
              {| text := None; file := Some broken_pdf |}
              eq_refl) eq_refl) broken_pdf eq_refl))
             (Error (js "Failed to extract text from PDF"))).
    reflexivity.
  - apply (proj2 (proj2 (proj1 (proj2 (C5_input_errors_are_400 w
              (submit None (Some blank_txt))
              {| text := None; file := Some blank_txt |}
              eq_refl) eq_refl) blank_txt eq_refl))
             [32; 10; 9]%N); reflexivity.
  - apply (proj2 (proj2 (C5_input_errors_are_400 w
              (submit (Some (js "   ")) None)
              {| text := Some (js "   "); file := None |}
              eq_refl) eq_refl) (js "   ")); reflexivity.
Defined.

(** C6.  When a file is uploaded the pasted text plays no part: the
    response and the model calls are those of the same request without the
    text; any call made carries the prompt built from the text extracted
    from the file; and it is the extracted text that is checked for
    emptiness. *)
Theorem C6_file_takes_precedence (w : World) (f : File) (t : jsstring) :
  POST w (submit (Some t) (Some f)) = POST w (submit None (Some f))
  /\ (forall c, In c (snd (POST w (submit (Some t) (Some f)))) ->
      exists extracted,
        processFile w f = Ok extracted
        /\ c = chat_request w extracted
        /\ user_content c = buildPrompt extracted)
  /\ (forall extracted,
        falsy (OPENAI_API_KEY w) = false ->
        processFile w f = Ok extracted ->
        POST w (submit (Some t) (Some f)) =
          if is_empty (trim extracted)
          then (error_response
                  (Plain (js "No text content found to analyze")) 400, [])
          else POST_catch (POST_review w extracted)).
Proof.
  split; [|split].
  - unfold POST, POST_try. cbn [formData submit].
    rewrite !bind_lift_ok. cbn [file text]. now rewrite !andb_false_r.
  - intros c Hin.
    destruct (POST_log w (submit (Some t) (Some f)))
      as [Hnone|[cv [Hacc Hlog]]].
    + rewrite Hnone in Hin. contradiction.
    + rewrite Hlog in Hin. destruct Hin as [<-|[]].
      exists cv. repeat split.
      inversion Hacc as [form t' Hform Hfile|form f' ex Hform Hfile Hkey Hproc];
        cbn in Hform; injection Hform as <-; cbn in Hfile.
      * discriminate.
      * now injection Hfile as <-.
  - intros extracted Hkey Hproc.
    now apply (POST_file_text w _ {| text := Some t; file := Some f |} f).
Qed.

Lemma C6_witness :
  POST (stub key_set (Ok (Some scenario_reply)))
       (submit (Some scenario_text) (Some docx)) =
    POST (stub key_set (Ok (Some scenario_reply))) (submit None (Some docx))
  /\ snd (POST (stub key_set (Ok (Some scenario_reply)))
               (submit (Some scenario_text) (Some docx))) =
       [chat_request (stub key_set (Ok (Some scenario_reply)))
                     (js "Hello World")]
  /\ fst (POST (stub key_set (Ok None))
               (submit (Some scenario_text) (Some blank_txt))) =
       error_response (Plain (js "No text content found to analyze")) 400.
Proof.
  split; [|split].
  - apply (proj1 (C6_file_takes_precedence
                    (stub key_set (Ok (Some scenario_reply))) docx
                    scenario_text)).
  - destruct (proj1 (proj2 (C6_file_takes_precedence
                    (stub key_set (Ok (Some scenario_reply))) docx
                    scenario_text))
                (chat_request (stub key_set (Ok (Some scenario_reply)))
                              (js "Hello World")) (or_introl eq_refl))
      as [extracted [Hproc [-> _]]].
    injection Hproc as <-. reflexivity.
  - rewrite (proj2 (proj2 (C6_file_takes_precedence
                    (stub key_set (Ok None)) blank_txt scenario_text))
               [32; 10; 9]%N eq_refl eq_refl).
    reflexivity.
Defined.

(** ** Score *)

(** [Math.round] gives an integer within one half of its argument. *)
Lemma Math_round_nearest (x : number) :
  isFinite x = true -> nearest_integer (Math_round x) x.
Proof.
  unfold nearest_integer. destruct x as [s|s| |s m e]; intros Hfin;
    try discriminate Hfin; apply Qabs_Qle_condition.
  - cbn [Math_round to_Q]. split; unfold Qle; cbn; lia.
  - unfold Math_round, to_Q. set (n := cond_Zopp s (Z.pos m)).
    destruct (Z.leb_spec 0 e) as [He|He].
    + split; unfold Qle, Qminus, Qplus, Qopp, inject_Z; cbn [Qnum Qden]; lia.
    + replace (1 - e) with (Z.succ (- e)) by lia.
      rewrite Z.pow_succ_r by lia.
      assert (Hd : 0 < 2 ^ (- e)) by (apply Z.pow_pos_nonneg; lia).
      set (d := 2 ^ (- e)) in *.
      pose proof (Z.mul_div_le (2 * n + d) (2 * d)) as Hlo.
      pose proof (Z.mul_succ_div_gt (2 * n + d) (2 * d)) as Hhi.
      set (k := (2 * n + d) / (2 * d)) in *.
      split; unfold Qle, Qminus, Qplus, Qopp, inject_Z; cbn [Qnum Qden];
        rewrite ?Pos2Z.inj_mul, ?Z2Pos.id by assumption; nia.
Qed.

Lemma sanitizeScore_range (x : number) :
  sanitizeScore x = 0 \/ 1 <= sanitizeScore x <= 10.
Proof. unfold sanitizeScore. destruct (isFinite x); lia. Qed.

Lemma sanitizeScore_spec (x : number) :
  (isFinite x = false -> sanitizeScore x = 0)
  /\ (isFinite x = true ->
      exists k, nearest_integer k x /\ sanitizeScore x = clamp k).
Proof.
  unfold sanitizeScore. split; intros H; rewrite H; [reflexivity|].
  exists (Math_round x). split; [now apply Math_round_nearest|reflexivity].
Qed.

(** On the Number of an integer from 1 to 10 the score is that integer. *)
Lemma sanitizeScore_of_Z (k : Z) :
  1 <= k <= 10 -> sanitizeScore (of_Z k) = k.
Proof.
  intros H.
  assert (Hk : k = 1 \/ k = 2 \/ k = 3 \/ k = 4 \/ k = 5 \/ k = 6 \/ k = 7
               \/ k = 8 \/ k = 9 \/ k = 10) by lia.
  repeat (destruct Hk as [->|Hk]; [reflexivity|]). now subst.
Qed.

(** ** Coercion of the parsed value *)

Lemma mapM_String_strings (l : list jsstring) :
  mapM String_ (map Str l) = Ok l.
Proof.
  induction l as [|s l IH]; [reflexivity|].
  cbn [map mapM String_ Exn.bind]. now rewrite IH.
Qed.

Lemma filter_non_empty (l : list jsstring) :
  Forall (fun s => s <> []) l -> filter non_empty l = l.
Proof.
  induction 1 as [|s l Hs _ IH]; [reflexivity|].
  cbn [filter]. destruct s; [congruence|]. cbn. now rewrite IH.
Qed.

Lemma filter_non_empty_all (l : list jsstring) :
  Forall (fun s => s <> []) (filter non_empty l).
Proof.
  induction l as [|s l IH]; [constructor|].
  cbn [filter]. destruct s; cbn; [assumption|].
  constructor; [discriminate|assumption].
Qed.

Lemma firstn_schema (l : list jsstring) :
  schema_list (firstn 10 (filter non_empty l)).
Proof.
  split.
  - rewrite length_firstn. apply Nat.le_min_l.
  - apply Forall_forall. intros s Hin.
    pose proof (filter_non_empty_all l) as Hall.
    rewrite Forall_forall in Hall. apply Hall.
    rewrite <- (firstn_skipn 10 (filter non_empty l)).
    apply in_or_app. now left.
Qed.

(** The three list fields refine [spec_list_field]. *)
Lemma sanitizeField_spec (parsed : value) (field : string) (x : value) :
  Get parsed (js field) = Ok x ->
  sanitizeField parsed field = spec_list_field x.
Proof.
  intros HGet. unfold sanitizeField. rewrite HGet. cbn [Exn.bind].
  destruct x; try reflexivity.
  cbn [sanitizeArray spec_list_field Exn.bind].
  destruct (mapM String_ elems); reflexivity.
Qed.

Lemma Get_truthy (parsed : value) (key : jsstring) :
  ToBoolean parsed = true -> exists x, Get parsed key = Ok x.
Proof. destruct parsed; try discriminate; intros _; eexists; reflexivity. Qed.

Lemma spec_list_field_schema (x : value) (l : list jsstring) :
  spec_list_field x = Ok l -> schema_list l.
Proof.
  destruct x; cbn [spec_list_field];
    try (intros [= <-]; split; [cbn; lia|constructor]).
  destruct (mapM String_ elems); [|discriminate].
  intros [= <-]. apply firstn_schema.
Qed.

(** What [sanitize] returned, field by field. *)
Lemma sanitize_inv (parsed : value) (r : Review) :
  sanitize parsed = Ok r ->
  sanitizeField parsed "strengths" = Ok (strengths r)
  /\ sanitizeField parsed "weaknesses" = Ok (weaknesses r)
  /\ sanitizeField parsed "suggestions" = Ok (suggestions r)
  /\ exists s n, Get parsed (js "score") = Ok s
                 /\ Number_ s = Ok n
                 /\ score r = sanitizeScore n.
Proof.
  unfold sanitize.
  destruct (Get parsed (js "score")) as [s|] eqn:Hs; [|discriminate].
  cbn [Exn.bind].
  destruct (Number_ s) as [n|] eqn:Hn; [|discriminate]. cbn [Exn.bind].
  destruct (sanitizeField parsed "strengths") as [l1|]; [|discriminate].
  destruct (sanitizeField parsed "weaknesses") as [l2|]; [|discriminate].
  destruct (sanitizeField parsed "suggestions") as [l3|]; [|discriminate].
  cbn [Exn.bind]. intros [= <-]. cbn. repeat split. now exists s, n.
Qed.

(** [sanitize] returns as soon as the four coercions do. *)
Lemma sanitize_intro (parsed s : value) (n : number)
      (l1 l2 l3 : list jsstring) :
  Get parsed (js "score") = Ok s ->
  Number_ s = Ok n ->
  sanitizeField parsed "strengths" = Ok l1 ->
  sanitizeField parsed "weaknesses" = Ok l2 ->
  sanitizeField parsed "suggestions" = Ok l3 ->
  sanitize parsed =
    Ok {| strengths := l1; weaknesses := l2; suggestions := l3;
          score := sanitizeScore n |}.
Proof.
  intros Hs Hn H1 H2 H3. unfold sanitize.
  now rewrite Hs, H1, H2, H3; cbn [Exn.bind]; rewrite Hn.
Qed.

(** A 200 response is the coercion of a truthy parsed value. *)
Lemma POST_ok_inv (w : World) (req : Request) (r : Response)
      (log : list ChatRequest) :
  POST w req = (r, log) ->
  status r = 200 ->
  exists cv completion parsed review,
    accepted w req cv
    /\ chat_completions_create w (chat_request w cv) = Ok completion
    /\ parse_content (match completion with Some c => c | None => js "{}" end)
       = Ok parsed
    /\ ToBoolean parsed = true
    /\ sanitize parsed = Ok review
    /\ r = ok_response review.
Proof.
  intros HPOST Hstatus.
  destruct (POST_try_cases w req) as [[cv Hacc]|[[r' [Htry Hr']]|[e Htry]]].
  - rewrite (POST_accepted w req cv Hacc) in HPOST.
    destruct (chat_completions_create w (chat_request w cv))
      as [completion|e] eqn:Hcall.
    + destruct (parse_content
                  (match completion with Some c => c | None => js "{}" end))
        as [parsed|e] eqn:Hparse.
      * rewrite (POST_review_parsed w cv completion parsed Hcall Hparse)
          in HPOST.
        destruct (ToBoolean parsed) eqn:Htruthy; cbn in HPOST.
        -- destruct (sanitize parsed) as [review|e] eqn:Hsan;
             cbn in HPOST; injection HPOST as <- <-.
           ++ now exists cv, completion, parsed, review.
           ++ discriminate.
        -- injection HPOST as <- <-. discriminate.
      * rewrite (POST_review_unparsed w cv completion e Hcall Hparse)
          in HPOST.
        cbn in HPOST. injection HPOST as <- <-. discriminate.
    + rewrite (POST_review_throw w cv e Hcall) in HPOST.
      cbn in HPOST. injection HPOST as <- <-. discriminate.
  - unfold POST in HPOST. rewrite Htry in HPOST. cbn in HPOST.
    injection HPOST as <- <-. lia.
  - unfold POST in HPOST. rewrite Htry in HPOST. cbn in HPOST.
    injection HPOST as <- <-. discriminate.
Qed.

(** ** Where the coercion can throw *)

Section ValueInduction.

Variable P : value -> Prop.
Hypothesis P_undefined : P Undefined.
Hypothesis P_null : P Null.
Hypothesis P_bool : forall b, P (Bool b).
Hypothesis P_num : forall n, P (Num n).
Hypothesis P_str : forall s, P (Str s).
Hypothesis P_arr : forall elems, Forall P elems -> P (Arr elems).
Hypothesis P_obj :
  forall props, Forall (fun p => P (snd p)) props -> P (Obj props).

(** Induction on values that reaches into arrays and objects. *)
Lemma value_nested_ind : forall v, P v.
Proof.
  fix IH 1. intros [| |b|n|s|elems|props].
  - exact P_undefined.
  - exact P_null.
  - apply P_bool.
  - apply P_num.
  - apply P_str.
  - apply P_arr. induction elems as [|x l IHl]; constructor;
      [apply IH|exact IHl].
  - apply P_obj. induction props as [|[k x] l IHl]; constructor;
      [apply IH|exact IHl].
Qed.

End ValueInduction.

Lemma forallb_Forall {A} (f : A -> bool) (l : list A) :
  forallb f l = true -> Forall (fun x => f x = true) l.
Proof. intros H. apply Forall_forall. now apply forallb_forall. Qed.

Lemma String_Arr_one (e : value) : String_ (Arr [e]) = element_string e.
Proof. reflexivity. Qed.

Lemma String_Arr_more (e e' : value) (l : list value) :
  String_ (Arr (e :: e' :: l)) =
    (s <- element_string e ;; r <- String_ (Arr (e' :: l)) ;;
     Ok (s ++ comma ++ r))%result.
Proof. reflexivity. Qed.

(** [String] returns on every value free of own [toString] properties. *)
Lemma String_plain (v : value) :
  plain v = true -> exists s, String_ v = Ok s.
Proof.
  induction v as [| | | | |elems IH|props _] using value_nested_ind;
    intros Hplain; try (eexists; reflexivity).
  - cbn [plain] in Hplain. apply forallb_Forall in Hplain.
    induction elems as [|e elems IHl]; [eexists; reflexivity|].
    inversion IH as [|? ? He IH']; subst.
    inversion Hplain as [|? ? Hpe Hplain']; subst.
    assert (Helem : exists s, element_string e = Ok s).
    { destruct e; try (eexists; reflexivity); now apply He. }
    destruct Helem as [s Hs].
    destruct elems as [|e' elems].
    + exists s. now rewrite String_Arr_one.
    + destruct (IHl IH' Hplain') as [r Hr].
      exists (s ++ comma ++ r). now rewrite String_Arr_more, Hs, Hr.
  - cbn [plain] in Hplain. apply andb_true_iff in Hplain as [Hown _].
    cbn [String_]. destruct (own props (js "toString")); [discriminate|].
    eexists; reflexivity.
Qed.

Lemma own_plain (props : list (jsstring * value)) (key : jsstring)
      (x : value) :
  forallb (fun p => plain (snd p)) props = true ->
  own props key = Some x -> plain x = true.
Proof.
  induction props as [|[k v] props IH]; [discriminate|].
  cbn [forallb own snd]. intros H. apply andb_true_iff in H as [Hv Hrest].
  destruct (JsString.eqb k key); [now intros [= <-]|now apply IH].
Qed.

Lemma Get_plain (parsed : value) (key : jsstring) (x : value) :
  plain parsed = true -> Get parsed key = Ok x -> plain x = true.
Proof.
  destruct parsed; cbn [Get]; try discriminate;
    try (intros _ [= <-]; reflexivity).
  cbn [plain]. intros H. apply andb_true_iff in H as [_ Hprops].
  destruct (own props key) as [v|] eqn:Hown; intros [= <-];
    [now apply (own_plain props key)|reflexivity].
Qed.

Lemma mapM_String_plain (elems : list value) :
  forallb plain elems = true -> exists l, mapM String_ elems = Ok l.
Proof.
  induction elems as [|e elems IH]; [eexists; reflexivity|].
  cbn [forallb]. intros H. apply andb_true_iff in H as [He Hrest].
  destruct (String_plain e He) as [s Hs]. destruct (IH Hrest) as [l Hl].
  exists (s :: l). cbn [mapM]. now rewrite Hs, Hl.
Qed.

Lemma sanitizeField_plain (parsed : value) (field : string) :
  ToBoolean parsed = true -> plain parsed = true ->
  exists l, sanitizeField parsed field = Ok l.
Proof.
  intros Htruthy Hplain.
  destruct (Get_truthy parsed (js field) Htruthy) as [x Hx].
  rewrite (sanitizeField_spec parsed field x Hx).
  pose proof (Get_plain parsed (js field) x Hplain Hx) as Hpx.
  destruct x; try (eexists; reflexivity).
  cbn [plain] in Hpx. destruct (mapM_String_plain elems Hpx) as [l Hl].
  cbn [spec_list_field]. rewrite Hl. eexists; reflexivity.
Qed.

Lemma Number_plain (x : value) :
  plain x = true -> exists n, Number_ x = Ok n.
Proof.
  intros Hplain.
  destruct x; try (eexists; reflexivity);
    cbn [Number_];
    match goal with
    | |- context [String_ ?v] =>
        destruct (String_plain v Hplain) as [s ->]
    end; eexists; reflexivity.
Qed.

(** The Response Sanitizer returns a Review for every truthy parsed value
    in which no object has an own [toString] property. *)
Lemma sanitize_plain (parsed : value) :
  ToBoolean parsed = true -> plain parsed = true ->
  exists r, sanitize parsed = Ok r.
Proof.
  intros Htruthy Hplain.
  destruct (Get_truthy parsed (js "score") Htruthy) as [s Hs].
  destruct (Number_plain s (Get_plain parsed _ s Hplain Hs)) as [n Hn].
  destruct (sanitizeField_plain parsed "strengths" Htruthy Hplain) as [l1 H1].
  destruct (sanitizeField_plain parsed "weaknesses" Htruthy Hplain) as [l2 H2].
  destruct (sanitizeField_plain parsed "suggestions" Htruthy Hplain)
    as [l3 H3].
  eexists. now apply (sanitize_intro parsed s n l1 l2 l3).
Qed.

(** C3.  A list field that is a sequence is not always coerced.  In the
    reply [{"strengths":[{"toString":1}],"score":7}] the field [strengths]
    is a sequence of one element, an object whose own [toString] property
    is not callable.  [String] throws a TypeError on that element, so the
    coercion of the field gives no list: the handler, after its one model
    call, answers 500 with the message of the TypeError, where the
    specification has the element converted to its string form and a
    Review returned. *)
Theorem C3_unconvertible_element_is_500 :
  JSON.parse unconvertible_element_reply =
    Ok (Obj [ (js "strengths", Arr [Obj [(js "toString", Num (of_Z 1))]]);
              (js "score", Num (of_Z 7)) ])
  /\ String_ (Obj [(js "toString", Num (of_Z 1))]) = Throw TypeError
  /\ sanitizeField
       (Obj [ (js "strengths", Arr [Obj [(js "toString", Num (of_Z 1))]]);
              (js "score", Num (of_Z 7)) ])
       "strengths" = Throw TypeError
  /\ POST (stub key_set (Ok (Some unconvertible_element_reply)))
          (submit (Some scenario_text) None) =
       (error_response (EngineMessage TypeError) 500,
        [chat_request (stub key_set (Ok (Some unconvertible_element_reply)))
                      scenario_text]).
Proof.
  split; [|split; [|split]]; vm_compute; reflexivity.
Qed.

(** C4.  A parsed object does not always get a score.  In the reply
    [{"strengths":["a"],"score":{"toString":1}}] the score field is an
    object whose own [toString] property is not callable.  [Number] throws
    a TypeError on it, so there is no Number to test for finiteness, no
    Review and no score: the handler, after its one model call, answers
    500 with the message of the TypeError, where the specification has
    the score 0 for a field that is not a finite number. *)
Theorem C4_unconvertible_score_is_500 :
  JSON.parse unconvertible_score_reply =
    Ok (Obj [ (js "strengths", Arr [Str (js "a")]);
              (js "score", Obj [(js "toString", Num (of_Z 1))]) ])
  /\ Number_ (Obj [(js "toString", Num (of_Z 1))]) = Throw TypeError
  /\ sanitize
       (Obj [ (js "strengths", Arr [Str (js "a")]);
              (js "score", Obj [(js "toString", Num (of_Z 1))]) ])
     = Throw TypeError
  /\ POST (stub key_set (Ok (Some unconvertible_score_reply)))
          (submit (Some scenario_text) None) =
       (error_response (EngineMessage TypeError) 500,
        [chat_request (stub key_set (Ok (Some unconvertible_score_reply)))
                      scenario_text]).
Proof.
  split; [|split; [|split]]; vm_compute; reflexivity.
Qed.

(** String conversion comes before the emptiness test: [null], [0] and
    [false] stay, as their string forms; the empty string and the empty
    array go. *)
Example falsy_elements_kept_as_strings :
  sanitizeArray (Arr [Null; Num zero; Bool false; Str []; Arr []; Str (js "x")])
  = Ok [js "null"; js "0"; js "false"; js "x"].
Proof. reflexivity. Qed.

(** ** Response Sanitizer *)

(** The coercion of the list fields where [String] does not throw.  A
    sequence all of whose elements have a string form gives those forms,
    the empty strings dropped and the first 10 kept; a missing field or a
    value that is not a sequence gives the empty list.  The coerced list
    has at most 10 entries, none of them empty, and there is one whenever
    no object in the parsed value has an own [toString] property.  On the
    sample reply with wrapping prose the handler answers 200 with
    strengths [a], no weaknesses and suggestions [b; b]. *)
Theorem list_fields_coerced :
  (forall (parsed : value) (field : string),
      ToBoolean parsed = true ->
      In field ["strengths"; "weaknesses"; "suggestions"]%string ->
      exists x,
        Get parsed (js field) = Ok x
        /\ sanitizeField parsed field = spec_list_field x
        /\ (forall elems strings,
              x = Arr elems -> mapM String_ elems = Ok strings ->
              sanitizeField parsed field =
                Ok (firstn 10 (filter non_empty strings)))
        /\ (Array_isArray x = false -> sanitizeField parsed field = Ok [])
        /\ (forall l, sanitizeField parsed field = Ok l -> schema_list l)
        /\ (plain parsed = true ->
            exists l, sanitizeField parsed field = Ok l))
  /\ (forall w : World,
         falsy (OPENAI_API_KEY w) = false ->
         chat_completions_create w (chat_request w (js "cv")) =
           Ok (Some sample_reply) ->
         fst (POST w (submit (Some (js "cv")) None)) =
           ok_response {| strengths := [js "a"];
                          weaknesses := [];
                          suggestions := [js "b"; js "b"];
                          score := 10 |}).
Proof.
  split.
  - intros parsed field Htruthy _.
    destruct (Get_truthy parsed (js field) Htruthy) as [x Hx].
    pose proof (sanitizeField_spec parsed field x Hx) as Hspec.
    exists x. split; [assumption|]. split; [assumption|].
    split; [|split; [|split]].
    + intros elems strings -> Hstrings. rewrite Hspec.
      cbn [spec_list_field]. now rewrite Hstrings.
    + intros Harr. rewrite Hspec. now destruct x.
    + intros l Hl. rewrite Hspec in Hl.
      now apply (spec_list_field_schema x).
    + intros Hplain. now apply sanitizeField_plain.
  - intros w Hkey Hcall.
    assert (Hacc : accepted w (submit (Some (js "cv")) None) (js "cv"))
      by (eapply accepted_text; eauto; reflexivity).
    rewrite (POST_accepted w _ _ Hacc).
    rewrite (POST_review_parsed w _ _ sample_value Hcall); reflexivity.
Qed.

Lemma list_fields_coerced_witness :
  sanitizeField sample_value "suggestions" = Ok [js "b"; js "b"]
  /\ fst (POST (stub key_set (Ok (Some sample_reply)))
               (submit (Some (js "cv")) None)) =
       ok_response {| strengths := [js "a"];
                      weaknesses := [];
                      suggestions := [js "b"; js "b"];
                      score := 10 |}.
Proof.
  split.
  - destruct (proj1 list_fields_coerced sample_value
                "suggestions"%string eq_refl (or_intror (or_intror (or_introl eq_refl))))
      as [x [Hx [_ [Harr _]]]].
    injection Hx as <-.
    exact (Harr [Str (js "b"); Str (js "b"); Str []] [js "b"; js "b"; []]
                eq_refl eq_refl).
  - apply (proj2 list_fields_coerced); reflexivity.
Defined.

(** The score where [Number] does not throw.  When coercing the score
    field yields the Number [n], the score is 0 if [n] is not finite and
    otherwise an integer nearest to [n] clamped into 1..10; this is the
    score of the Review that [sanitize] returns.  Hence every Review
    returned, and every 200 response, has a score that is 0 or an integer
    from 1 to 10.  A Review is returned for every truthy parsed value in
    which no object has an own [toString] property. *)
Theorem score_coerced :
  (forall (parsed s : value) (n : number),
      Get parsed (js "score") = Ok s ->
      Number_ s = Ok n ->
      (isFinite n = false -> sanitizeScore n = 0)
      /\ (isFinite n = true ->
          exists k, nearest_integer k n /\ sanitizeScore n = clamp k)
      /\ (forall r, sanitize parsed = Ok r -> score r = sanitizeScore n))
  /\ (forall (parsed : value) (r : Review),
         sanitize parsed = Ok r -> score r = 0 \/ 1 <= score r <= 10)
  /\ (forall parsed : value,
         ToBoolean parsed = true -> plain parsed = true ->
         exists r, sanitize parsed = Ok r)
  /\ (forall (w : World) (req : Request) (r : Response)
             (log : list ChatRequest),
         POST w req = (r, log) ->
         status r = 200 ->
         exists review,
           json r = ReviewBody review
           /\ (score review = 0 \/ 1 <= score review <= 10)).
Proof.
  assert (Hrange : forall parsed r,
             sanitize parsed = Ok r -> score r = 0 \/ 1 <= score r <= 10).
  { intros parsed r Hsan.
    destruct (sanitize_inv parsed r Hsan) as [_ [_ [_ [s [n [_ [_ ->]]]]]]].
    apply sanitizeScore_range. }
  split; [|split; [|split]].
  - intros parsed s n Hs Hn.
    destruct (sanitizeScore_spec n) as [Hinf Hfin].
    split; [assumption|]. split; [assumption|].
    intros r Hsan.
    destruct (sanitize_inv parsed r Hsan)
      as [_ [_ [_ [s' [n' [Hs' [Hn' ->]]]]]]].
    congruence.
  - exact Hrange.
  - exact sanitize_plain.
  - intros w req r log HPOST Hstatus.
    destruct (POST_ok_inv w req r log HPOST Hstatus)
      as [cv [completion [parsed [review [_ [_ [_ [_ [Hsan ->]]]]]]]]].
    exists review. split; [reflexivity|]. now apply (Hrange parsed).
Qed.

Lemma score_coerced_witness :
  sanitizeScore (of_Z 15) = 10
  /\ (exists k, nearest_integer k (of_decimal false 74 (-1))
                /\ sanitizeScore (of_decimal false 74 (-1)) = clamp k)
  /\ (sanitizeScore NaN = 0)
  /\ (exists review,
         json (fst (POST (stub key_set (Ok (Some sample_reply)))
                         (submit (Some (js "cv")) None)))
           = ReviewBody review
         /\ (score review = 0 \/ 1 <= score review <= 10)).
Proof.
  split; [|split; [|split]].
  - symmetry.
    exact (proj2 (proj2 (proj1 score_coerced sample_value
                           (Num (of_Z 15)) (of_Z 15) eq_refl eq_refl))
             {| strengths := [js "a"]; weaknesses := [];
                suggestions := [js "b"; js "b"]; score := 10 |} eq_refl).
  - apply (proj1 (proj2 (proj1 score_coerced
                           (Obj [(js "score", Num (of_decimal false 74 (-1)))])
                           (Num (of_decimal false 74 (-1)))
                           (of_decimal false 74 (-1)) eq_refl eq_refl))).
    reflexivity.
  - apply (proj1 (proj1 score_coerced (Obj []) Undefined NaN
                    eq_refl eq_refl)).
    reflexivity.
  - apply (proj2 (proj2 (proj2 score_coerced))
             (stub key_set (Ok (Some sample_reply)))
             (submit (Some (js "cv")) None) _
             [chat_request (stub key_set (Ok (Some sample_reply))) (js "cv")]);
      reflexivity.
Defined.

Lemma sanitizeField_strings (props : list (jsstring * value))
      (field : string) (l : list jsstring) :
  own props (js field) = Some (Arr (map Str l)) ->
  schema_list l ->
  sanitizeField (Obj props) field = Ok l.
Proof.
  intros Hown [Hlen Hne].
  rewrite (sanitizeField_spec (Obj props) field (Arr (map Str l)))
    by (cbn [Get]; now rewrite Hown).
  cbn [spec_list_field].
  rewrite mapM_String_strings, (filter_non_empty l Hne).
  now rewrite firstn_all2.
Qed.

(** C7.  On a JSON object that already matches the Review schema, with
    three lists of at most 10 non-empty strings and an integer score from
    1 to 10, [sanitize] returns the same four field values; in particular
    sanitizing the object of a well-formed Review gives that Review back. *)
Theorem C7_sanitize_keeps_well_formed (r : Review) :
  well_formed r ->
  (forall props, carries props r -> sanitize (Obj props) = Ok r)
  /\ sanitize (review_value r) = Ok r.
Proof.
  intros [H1 [H2 [H3 Hscore]]].
  assert (Hprops : forall props, carries props r -> sanitize (Obj props) = Ok r).
  { intros props [C1 [C2 [C3 C4]]].
    rewrite (sanitize_intro (Obj props) (Num (of_Z (score r))) (of_Z (score r))
               (strengths r) (weaknesses r) (suggestions r)).
    - rewrite (sanitizeScore_of_Z _ Hscore). now destruct r.
    - cbn [Get]. now rewrite C4.
    - reflexivity.
    - now apply sanitizeField_strings.
    - now apply sanitizeField_strings.
    - now apply sanitizeField_strings. }
  split; [exact Hprops|].
  apply Hprops. repeat split.
Qed.

Lemma C7_witness :
  sanitize (review_value scenario_review) = Ok scenario_review
  /\ JSON.parse scenario_reply = Ok (review_value scenario_review).
Proof.
  split; [|reflexivity].
  apply (C7_sanitize_keeps_well_formed scenario_review).
  repeat split; cbn; try lia; repeat constructor; discriminate.
Defined.

(** C9.  When the reply parses as a truthy JSON value that is not an
    object (a non-zero number, [true], a non-empty string, an array), the
    handler does not answer 502: it answers 200 with the Review that has
    three empty lists and score 0. *)
Theorem C9_truthy_non_object_is_degraded_200
        (w : World) (req : Request) (cv content : jsstring) (parsed : value) :
  accepted w req cv ->
  chat_completions_create w (chat_request w cv) = Ok (Some content) ->
  JSON.parse content = Ok parsed ->
  ToBoolean parsed = true ->
  is_object parsed = false ->
  POST w req = (ok_response degraded, [chat_request w cv]).
Proof.
  intros Hacc Hcall Hparse Htruthy Hobj.
  rewrite (POST_accepted w req cv Hacc).
  rewrite (POST_review_parsed w cv (Some content) parsed Hcall)
    by (unfold parse_content; now rewrite Hparse).
  rewrite Htruthy. cbn [negb].
  destruct parsed; try discriminate; reflexivity.
Qed.

Lemma C9_witness :
  JSON.parse (js "3") = Ok (Num (of_Z 3))
  /\ POST (stub key_set (Ok (Some (js "3")))) (submit (Some (js "cv")) None) =
       (ok_response degraded,
        [chat_request (stub key_set (Ok (Some (js "3")))) (js "cv")])
  /\ JSON.parse (js "true") = Ok (Bool true)
  /\ POST (stub key_set (Ok (Some (js "true"))))
          (submit (Some (js "cv")) None) =
       (ok_response degraded,
        [chat_request (stub key_set (Ok (Some (js "true")))) (js "cv")]).
Proof.
  split; [reflexivity|]. split; [|split; [reflexivity|]].
  - apply (C9_truthy_non_object_is_degraded_200
             (stub key_set (Ok (Some (js "3"))))
             (submit (Some (js "cv")) None)
             (js "cv") (js "3") (Num (of_Z 3))); try reflexivity.
    now apply accepted_pasted.
  - apply (C9_truthy_non_object_is_degraded_200
             (stub key_set (Ok (Some (js "true"))))
             (submit (Some (js "cv")) None)
             (js "cv") (js "true") (Bool true)); try reflexivity.
    now apply accepted_pasted.
Defined.

(** ** Model Invoker *)

(** C2 as stated fails: a completion without content is read as the text
    of an empty object and answered 200 with the degraded Review. *)
Lemma C2_no_content_is_answered_200 :
  chat_completions_create (stub key_set (Ok None))
    (chat_request (stub key_set (Ok None)) scenario_text) = Ok None
  /\ fst (POST (stub key_set (Ok None)) (submit (Some scenario_text) None)) =
       ok_response degraded.
Proof. split; reflexivity. Qed.

(** C2, amended.  When the model call throws (an error of the client, a
    timeout) the request fails with status 500 and the message of what was
    thrown; no second call is made.  When the completion has no content,
    the content defaults to the text of an empty object and the answer is
    200 with the degraded Review. *)
Theorem C2_model_failures (w : World) (req : Request) (cv : jsstring) :
  accepted w req cv ->
  (forall e,
      chat_completions_create w (chat_request w cv) = Throw e ->
      POST w req =
        (error_response (message_or e (js "Unexpected server error")) 500,
         [chat_request w cv]))
  /\ (chat_completions_create w (chat_request w cv) = Ok None ->
      POST w req = (ok_response degraded, [chat_request w cv])).
Proof.
  intros Hacc. rewrite (POST_accepted w req cv Hacc). split.
  - intros e Hcall. now rewrite (POST_review_throw w cv e Hcall).
  - intros Hcall.
    now rewrite (POST_review_parsed w cv None (Obj []) Hcall eq_refl).
Qed.

Lemma C2_witness :
  POST (stub key_set (Throw (Error (js "Request timed out."))))
       (submit (Some scenario_text) None) =
    (error_response (Plain (js "Request timed out.")) 500,
     [chat_request (stub key_set (Throw (Error (js "Request timed out."))))
                   scenario_text])
  /\ POST (stub key_set (Ok None)) (submit (Some scenario_text) None) =
       (ok_response degraded,
        [chat_request (stub key_set (Ok None)) scenario_text]).
Proof.
  split.
  - apply (proj1 (C2_model_failures
                    (stub key_set (Throw (Error (js "Request timed out."))))
                    (submit (Some scenario_text) None) scenario_text
                    (accepted_pasted
                       (stub key_set (Throw (Error (js "Request timed out."))))
                       scenario_text eq_refl eq_refl))
             (Error (js "Request timed out."))).
    reflexivity.
  - apply (proj2 (C2_model_failures (stub key_set (Ok None))
                    (submit (Some scenario_text) None) scenario_text
                    (accepted_pasted (stub key_set (Ok None))
                                     scenario_text eq_refl eq_refl))).
    reflexivity.
Defined.

(** ** Parse failures *)

(** Where a reply that is not JSON ends up: 502 when it has no [{] with a
    [}] after it, and the outer [catch] with its 500 when it has, because
    the second [JSON.parse] is not guarded. *)
Lemma POST_unparseable (w : World) (req : Request) (cv content : jsstring)
      (e : exn) :
  accepted w req cv ->
  chat_completions_create w (chat_request w cv) = Ok (Some content) ->
  JSON.parse content = Throw e ->
  (match_braces content = None ->
   POST w req =
     (error_response (Plain (js "Failed to parse model response")) 502,
      [chat_request w cv]))
  /\ (forall m e',
        match_braces content = Some m -> JSON.parse m = Throw e' ->
        POST w req =
          (error_response (message_or e' (js "Unexpected server error")) 500,
           [chat_request w cv])).
Proof.
  intros Hacc Hcall Hparse. rewrite (POST_accepted w req cv Hacc). split.
  - intros Hnone.
    now rewrite (POST_review_parsed w cv (Some content) Null Hcall)
      by (unfold parse_content; now rewrite Hparse, Hnone).
  - intros m e' Hsome Hm.
    now rewrite (POST_review_unparsed w cv (Some content) e' Hcall)
      by (unfold parse_content; now rewrite Hparse, Hsome).
Qed.

(** C1.  On the reply [chatty_reply] both parse attempts fail: the whole
    string is not JSON, and neither is the text from its first [{] to its
    last [}].  The handler answers 500 with the message of the SyntaxError,
    not 502. *)
Theorem C1_failed_second_parse_is_500 :
  JSON.parse chatty_reply = Throw SyntaxError
  /\ match_braces chatty_reply = Some (js "{strengths: none}")
  /\ JSON.parse (js "{strengths: none}") = Throw SyntaxError
  /\ POST (stub key_set (Ok (Some chatty_reply)))
          (submit (Some scenario_text) None) =
       (error_response (EngineMessage SyntaxError) 500,
        [chat_request (stub key_set (Ok (Some chatty_reply))) scenario_text]).
Proof.
  split; [|split; [|split]]; vm_compute; reflexivity.
Qed.

(** The sibling case of the specification: no braces at all, 502. *)
Example not_json_at_all_is_502 :
  fst (POST (stub key_set (Ok (Some (js "not json at all"))))
            (submit (Some scenario_text) None)) =
    error_response (Plain (js "Failed to parse model response")) 502.
Proof. reflexivity. Qed.

(** The end-to-end scenario of the specification. *)
Example end_to_end_scenario :
  fst (POST (stub key_set (Ok (Some scenario_reply)))
            (submit (Some scenario_text) None)) =
    ok_response scenario_review.
Proof. reflexivity. Qed.

(** ** Further properties of the route handler *)

Section Outcomes.

Variable w : World.

(** The three ways [POST_review] ends. *)
Lemma POST_review_cases (cv : jsstring) :
  (exists review, POST_catch (POST_review w cv) =
                    (ok_response review, [chat_request w cv])
                  /\ exists parsed, ToBoolean parsed = true
                                    /\ sanitize parsed = Ok review)
  \/ POST_catch (POST_review w cv) =
       (error_response (Plain (js "Failed to parse model response")) 502,
        [chat_request w cv])
  \/ (exists e, POST_catch (POST_review w cv) =
                  (error_response
                     (message_or e (js "Unexpected server error")) 500,
                   [chat_request w cv])).
Proof.
  destruct (chat_completions_create w (chat_request w cv))
    as [completion|e] eqn:Hcall.
  - destruct (parse_content
                (match completion with Some c => c | None => js "{}" end))
      as [parsed|e] eqn:Hparse.
    + rewrite (POST_review_parsed w cv completion parsed Hcall Hparse).
      destruct (ToBoolean parsed) eqn:Htruthy; cbn [negb].
      * destruct (sanitize parsed) as [review|e] eqn:Hsan.
        -- left. exists review. split; [reflexivity|now exists parsed].
        -- right; right. now exists e.
      * right; left. reflexivity.
    + rewrite (POST_review_unparsed w cv completion e Hcall Hparse).
      right; right. now exists e.
  - rewrite (POST_review_throw w cv e Hcall). right; right. now exists e.
Qed.

(** What [sanitize] returns meets the Review contract. *)
Lemma sanitize_contract (parsed : value) (review : Review) :
  ToBoolean parsed = true ->
  sanitize parsed = Ok review -> review_contract review.
Proof.
  intros Htruthy Hsan.
  destruct (sanitize_inv parsed review Hsan)
    as [H1 [H2 [H3 [s [n [_ [_ Hscore]]]]]]].
  assert (Hfield : forall field l,
             sanitizeField parsed field = Ok l -> schema_list l).
  { intros field l Hl.
    destruct (Get_truthy parsed (js field) Htruthy) as [x Hx].
    rewrite (sanitizeField_spec parsed field x Hx) in Hl.
    now apply (spec_list_field_schema x). }
  repeat split; try (now apply (Hfield _ _ H1));
    try (now apply (Hfield _ _ H2)); try (now apply (Hfield _ _ H3)).
  rewrite Hscore. apply sanitizeScore_range.
Qed.

End Outcomes.

(** X1.  The handler answers with one of four statuses, 200, 400, 500 or
    502, and the body is a Review exactly when the status is 200; every
    other answer carries an error text. *)
Theorem POST_status_and_body (w : World) (req : Request) :
  known_status (status (fst (POST w req)))
  /\ (status (fst (POST w req)) = 200 <->
      exists review, json (fst (POST w req)) = ReviewBody review).
Proof.
  destruct (POST_try_cases w req) as [[cv Hacc]|[[r [Htry Hr]]|[e Htry]]].
  - rewrite (POST_accepted w req cv Hacc).
    destruct (POST_review_cases w cv) as [[review [-> _]]|[->|[e ->]]];
      cbn; unfold known_status.
    + split; [now left|]. split; [now exists review|reflexivity].
    + split; [now right; right; right|].
      split; [discriminate|intros [? ?]; discriminate].
    + split; [now right; right; left|].
      split; [discriminate|intros [? ?]; discriminate].
  - unfold POST. rewrite Htry. cbn. unfold known_status.
    unfold POST_try in Htry.
    assert (Hbody : forall review, json r <> ReviewBody review).
    { destruct (formData req) as [form|]; [|discriminate].
      rewrite bind_lift_ok in Htry.
      destruct (falsy (text form) && _); [now injection Htry as <-|].
      destruct (falsy (OPENAI_API_KEY w)); [now injection Htry as <-|].
      destruct (file form) as [f|].
      - destruct (processFile w f) as [t|e]; [|now injection Htry as <-].
        rewrite bind_next in Htry.
        destruct (is_empty (trim t)); [now injection Htry as <-|].
        pose proof (POST_review_log w t) as Hlog.
        rewrite Htry in Hlog. discriminate.
      - rewrite bind_next in Htry.
        destruct (is_empty (trim (or_else (text form) [])));
          [now injection Htry as <-|].
        pose proof (POST_review_log w (or_else (text form) [])) as Hlog.
        rewrite Htry in Hlog. discriminate. }
    split; [destruct Hr as [->| ->]; [right; left|right; right; left];
            reflexivity|].
    split; [destruct Hr as [Hr|Hr]; rewrite Hr; discriminate|].
    intros [review Hreview]. now destruct (Hbody review).
  - unfold POST. rewrite Htry. cbn. unfold known_status.
    split; [now right; right; left|].
    split; [discriminate|intros [? ?]; discriminate].
Qed.

(** X2.  One request makes at most one model call.  A 400 answer never
    follows a call, and a 200 or a 502 answer always follows exactly one,
    made with the prompt of the text the request was accepted with. *)
Theorem POST_calls_and_status (w : World) (req : Request) :
  (snd (POST w req) = []
   \/ exists cv, accepted w req cv /\ snd (POST w req) = [chat_request w cv])
  /\ (status (fst (POST w req)) = 400 -> snd (POST w req) = [])
  /\ (status (fst (POST w req)) = 200 \/ status (fst (POST w req)) = 502 ->
      exists cv, accepted w req cv
                 /\ snd (POST w req) = [chat_request w cv]).
Proof.
  split; [apply POST_log|].
  destruct (POST_try_cases w req) as [[cv Hacc]|[[r [Htry Hr]]|[e Htry]]].
  - rewrite (POST_accepted w req cv Hacc).
    destruct (POST_review_cases w cv) as [[review [-> _]]|[->|[e ->]]]; cbn;
      (split; [discriminate|intros _; now exists cv]).
  - unfold POST. rewrite Htry. cbn.
    split; [reflexivity|]. intros [H|H]; destruct Hr as [Hr|Hr]; lia.
  - unfold POST. rewrite Htry. cbn.
    split; [reflexivity|]. intros [H|H]; discriminate.
Qed.

Lemma POST_calls_and_status_witness :
  snd (POST (stub key_set (Ok (Some (js "not json at all"))))
            (submit (Some scenario_text) None)) =
    [chat_request (stub key_set (Ok (Some (js "not json at all"))))
                  scenario_text]
  /\ snd (POST (stub key_set (Ok None)) (submit None (Some png))) = [].
Proof.
  split.
  - destruct (proj2 (proj2 (POST_calls_and_status
                      (stub key_set (Ok (Some (js "not json at all"))))
                      (submit (Some scenario_text) None)))
                (or_intror eq_refl)) as [cv [Hacc Hlog]].
    rewrite Hlog.
    inversion Hacc as [form t Hform Hfile Htext _ _
                      |form f ex Hform Hfile _ _ _];
      cbn in Hform; injection Hform as <-; cbn in Hfile.
    + cbn in Htext. now injection Htext as <-.
    + discriminate.
  - apply (proj1 (proj2 (POST_calls_and_status (stub key_set (Ok None))
                           (submit None (Some png))))).
    reflexivity.
Defined.

(** X3.  Every 200 response carries a Review that meets the contract:
    each of the three lists has at most 10 entries, none of them the empty
    string, and the score is 0 or an integer from 1 to 10. *)
Theorem POST_ok_review_contract (w : World) (req : Request) :
  status (fst (POST w req)) = 200 ->
  exists review,
    fst (POST w req) = ok_response review /\ review_contract review.
Proof.
  intros Hstatus.
  destruct (POST_ok_inv w req (fst (POST w req)) (snd (POST w req)))
    as [cv [completion [parsed [review [_ [_ [_ [Htruthy [Hsan Hr]]]]]]]]];
    [now destruct (POST w req)|assumption|].
  exists review. split; [assumption|].
  now apply (sanitize_contract parsed).
Qed.

Lemma POST_ok_review_contract_witness :
  exists review,
    fst (POST (stub key_set (Ok (Some sample_reply)))
              (submit (Some (js "cv")) None)) = ok_response review
    /\ review_contract review.
Proof.
  apply (POST_ok_review_contract (stub key_set (Ok (Some sample_reply)))
           (submit (Some (js "cv")) None)).
  reflexivity.
Defined.

(** X4.  A reply that is valid JSON but falsy ([null], [false], [0], the
    empty string) is answered 502 with "Failed to parse model response",
    although it parsed: the handler tests the parsed value for truthiness
    only. *)
Theorem POST_falsy_reply_is_502
        (w : World) (req : Request) (cv content : jsstring) (parsed : value) :
  accepted w req cv ->
  chat_completions_create w (chat_request w cv) = Ok (Some content) ->
  JSON.parse content = Ok parsed ->
  ToBoolean parsed = false ->
  POST w req =
    (error_response (Plain (js "Failed to parse model response")) 502,
     [chat_request w cv]).
Proof.
  intros Hacc Hcall Hparse Hfalsy.
  rewrite (POST_accepted w req cv Hacc).
  rewrite (POST_review_parsed w cv (Some content) parsed Hcall)
    by (unfold parse_content; now rewrite Hparse).
  now rewrite Hfalsy.
Qed.

Lemma POST_falsy_reply_is_502_witness :
  JSON.parse (js "null") = Ok Null
  /\ POST (stub key_set (Ok (Some (js "null"))))
          (submit (Some scenario_text) None) =
       (error_response (Plain (js "Failed to parse model response")) 502,
        [chat_request (stub key_set (Ok (Some (js "null")))) scenario_text]).
Proof.
  split; [reflexivity|].
  apply (POST_falsy_reply_is_502 (stub key_set (Ok (Some (js "null"))))
           (submit (Some scenario_text) None) scenario_text (js "null") Null);
    try reflexivity.
  now apply accepted_pasted.
Defined.

(** ** The brace fallback *)

Lemma through_last_close_spec (s m : jsstring) :
  through_last_close s = Some m <->
  exists mid post, s = mid ++ 125%N :: post /\ ~ In 125%N post
                   /\ m = mid ++ [125%N].
Proof.
  revert m. induction s as [|c s IH]; intros m; cbn [through_last_close].
  - split; [discriminate|]. intros [mid [post [H _]]].
    now destruct mid.
  - destruct (through_last_close s) as [m'|] eqn:Hrec.
    + destruct (proj1 (IH m') eq_refl) as [mid [post [-> [Hpost ->]]]].
      split.
      * intros [= <-]. now exists (c :: mid), post.
      * intros [mid' [post' [Hs [Hpost' ->]]]]. f_equal.
        destruct mid' as [|c' mid'].
        -- cbn in Hs. injection Hs as -> <-.
           exfalso. apply Hpost'. apply in_or_app. right. now left.
        -- cbn in Hs. injection Hs as <- Hs. cbn. f_equal.
           assert (Hm : Some (mid ++ [125%N]) = Some (mid' ++ [125%N]))
             by (apply IH; exists mid', post'; now rewrite Hs).
           now injection Hm.
    + assert (Hnone : ~ In 125%N s).
      { intros Hin. apply in_split in Hin as [l1 [l2 ->]].
        assert (Hex : exists m, through_last_close (l1 ++ 125%N :: l2) = Some m).
        { clear. induction l1 as [|x l1 IHl]; cbn.
          - destruct (through_last_close l2); eexists; reflexivity.
          - destruct IHl as [m ->]. eexists; reflexivity. }
        destruct Hex as [m' Hm']. congruence. }
      destruct (N.eqb_spec c 125) as [->|Hc].
      * split.
        -- intros [= <-]. now exists [], s.
        -- intros [mid [post [Hs [Hpost ->]]]].
           destruct mid as [|c' mid]; [reflexivity|].
           cbn in Hs. injection Hs as _ ->.
           exfalso. apply Hnone. apply in_or_app. right. now left.
      * split; [discriminate|].
        intros [mid [post [Hs _]]].
        destruct mid as [|c' mid]; cbn in Hs; injection Hs as ? ?;
          [congruence|].
        subst. exfalso. apply Hnone. apply in_or_app. right. now left.
Qed.

(** X5.  The pattern [/\{[\s\S]*\}/] matches exactly when the reply has a
    [{] with a [}] somewhere after it, and the match runs from the first
    [{] of the reply to its last [}]. *)
Theorem match_braces_spec (content m : jsstring) :
  match_braces content = Some m <->
  exists pre mid post,
    content = pre ++ 123%N :: mid ++ 125%N :: post
    /\ ~ In 123%N pre /\ ~ In 125%N post
    /\ m = 123%N :: mid ++ [125%N].
Proof.
  revert m. induction content as [|c content IH]; intros m;
    cbn [match_braces].
  - split; [discriminate|]. intros [pre [mid [post [H _]]]].
    now destruct pre.
  - destruct (N.eqb_spec c 123) as [->|Hc].
    + destruct (through_last_close content) as [m'|] eqn:Hclose; cbn.
      * destruct (proj1 (through_last_close_spec content m') Hclose)
          as [mid [post [-> [Hpost ->]]]].
        split.
        -- intros [= <-]. exists [], mid, post. now repeat split.
        -- intros [pre [mid' [post' [Hs [Hpre [Hpost' ->]]]]]].
           destruct pre as [|c' pre].
           ++ cbn in Hs. injection Hs as Hs. do 2 f_equal.
              assert (Hm : through_last_close (mid ++ 125%N :: post)
                           = Some (mid' ++ [125%N]))
                by (apply through_last_close_spec;
                    exists mid', post'; now rewrite Hs).
              rewrite Hclose in Hm. now injection Hm.
           ++ cbn in Hs. injection Hs as <- _.
              exfalso. apply Hpre. now left.
      * split; [discriminate|].
        intros [pre [mid [post [Hs [Hpre [Hpost ->]]]]]].
        destruct pre as [|c' pre].
        -- cbn in Hs. injection Hs as ->.
           assert (Hm : through_last_close (mid ++ 125%N :: post)
                        = Some (mid ++ [125%N]))
             by (apply through_last_close_spec; now exists mid, post).
           congruence.
        -- cbn in Hs. injection Hs as <- _.
           exfalso. apply Hpre. now left.
    + rewrite IH. split.
      * intros [pre [mid [post [-> [Hpre [Hpost ->]]]]]].
        exists (c :: pre), mid, post. repeat split; try assumption.
        intros [Heq|Hin]; [congruence|now apply Hpre].
      * intros [pre [mid [post [Hs [Hpre [Hpost ->]]]]]].
        destruct pre as [|c' pre]; cbn in Hs; injection Hs as ? ?;
          [congruence|].
        subst. exists pre, mid, post. repeat split; try assumption.
        intros Hin. apply Hpre. now right.
Qed.

Lemma match_braces_spec_witness :
  match_braces chatty_reply = Some (js "{strengths: none}").
Proof.
  apply (proj2 (match_braces_spec chatty_reply (js "{strengths: none}"))).
  exists (js "Sure! Here is my review: "), (js "strengths: none"), [].
  split; [reflexivity|]. split; [|split; [|reflexivity]].
  - cbn. intros H.
    repeat (destruct H as [H|H]; [discriminate H|]). exact H.
  - intros [].
Defined.

Lemma match_braces_head (content m : jsstring) :
  match_braces content = Some m -> exists rest, m = 123%N :: rest.
Proof.
  induction content as [|c content IH]; cbn [match_braces];
    [discriminate|].
  destruct (N.eqb_spec c 123) as [->|Hc]; [|exact IH].
  destruct (through_last_close content) as [m'|]; cbn; [|discriminate].
  intros [= <-]. now exists m'.
Qed.

(** Tokens are only ever added in front of those already scanned. *)
Lemma start_extends (c : char16) (toks toks' : list JSON.token)
      (m : JSON.mode) :
  JSON.start c toks = Some (m, toks') -> exists pre, toks' = pre ++ toks.
Proof.
  unfold JSON.start. intros H.
  repeat match type of H with
         | (if ?b then _ else _) = _ => destruct b
         end;
    try discriminate; injection H as <- <-;
    solve [now exists [] | eexists [_]; reflexivity].
Qed.

Lemma step_extends (m m' : JSON.mode) (toks toks' : list JSON.token)
      (c : char16) :
  JSON.step m toks c = Some (m', toks') -> exists pre, toks' = pre ++ toks.
Proof.
  destruct m as [|acc|acc|todo code acc|acc|acc]; cbn [JSON.step].
  - apply start_extends.
  - intros H.
    repeat match type of H with
           | (if ?b then _ else _) = _ => destruct b
           end;
      try discriminate; injection H as <- <-;
      solve [now exists [] | eexists [_]; reflexivity].
  - intros H. destruct (N.eqb c 117); [injection H as <- <-; now exists []|].
    destruct (JSON.escape c); [|discriminate].
    injection H as <- <-. now exists [].
  - intros H. destruct (radix_digit 16 c); [|discriminate].
    destruct todo as [|[|todo]]; try discriminate;
      injection H as <- <-; now exists [].
  - intros H. destruct (JSON.is_number_char c);
      [injection H as <- <-; now exists []|].
    unfold JSON.finish_number in H.
    destruct (json_number (rev acc)) as [n|]; [|discriminate].
    apply start_extends in H as [pre ->].
    exists (pre ++ [JSON.TNumber n]). now rewrite <- app_assoc.
  - intros H. destruct (JSON.is_letter c);
      [injection H as <- <-; now exists []|].
    unfold JSON.finish_word in H.
    repeat match type of H with
           | match (if ?b then _ else _) with _ => _ end = _ => destruct b
           end;
      try discriminate;
      apply start_extends in H as [pre ->];
      eexists (pre ++ [_]); now rewrite <- app_assoc.
Qed.

Lemma scan_extends (text : jsstring) (m : JSON.mode)
      (toks out : list JSON.token) :
  JSON.scan m toks text = Some out -> exists pre, out = pre ++ toks.
Proof.
  revert m toks. induction text as [|c text IH]; intros m toks;
    cbn [JSON.scan].
  - destruct m; try discriminate.
    + intros [= <-]. now exists [].
    + unfold JSON.finish_number.
      destruct (json_number (rev acc)); [|discriminate].
      intros [= <-]. eexists [_]; reflexivity.
    + unfold JSON.finish_word. intros H.
      repeat match type of H with
             | (if ?b then _ else _) = _ => destruct b
             end;
        try discriminate; injection H as <-; eexists [_]; reflexivity.
  - destruct (JSON.step m toks c) as [[m' toks']|] eqn:Hstep; [|discriminate].
    intros H. apply IH in H as [pre ->].
    apply step_extends in Hstep as [pre' ->].
    exists (pre ++ pre'). now rewrite app_assoc.
Qed.

(** A text that begins with [{] has [{] as its first token. *)
Lemma tokens_open_brace (rest : jsstring) (toks : list JSON.token) :
  JSON.tokens (123%N :: rest) = Some toks ->
  exists toks', toks = JSON.TLBrace :: toks'.
Proof.
  unfold JSON.tokens. cbn [JSON.scan JSON.step].
  change (JSON.start 123%N []) with (Some (JSON.Between, [JSON.TLBrace])).
  destruct (JSON.scan JSON.Between [JSON.TLBrace] rest) as [out|] eqn:Hscan;
    [|discriminate].
  intros [= <-]. apply scan_extends in Hscan as [pre ->].
  exists (rev pre). now rewrite rev_app_distr.
Qed.

Lemma outermost_cons (f : JSON.frame) (stack : list JSON.frame) :
  stack <> [] -> outermost (f :: stack) = outermost stack.
Proof.
  intros Hne. cbn [outermost].
  destruct stack as [|g stack]; [congruence|].
  cbn [outermost]. now destruct (outermost stack).
Qed.

Lemma complete_rooted (v : value) (stack : list JSON.frame)
      (st : JSON.state) (stack' : list JSON.frame) :
  match outermost stack with
  | Some (JSON.InObject _ _) => True
  | Some (JSON.InArray _) => False
  | None => exists props, v = Obj props
  end ->
  JSON.complete v stack = (st, stack') -> rooted st stack'.
Proof.
  unfold JSON.complete, rooted. destruct stack as [|f stack].
  - cbn. intros [props ->] [= <- <-]. exact I.
  - destruct stack as [|g stack].
    + cbn. destruct f; [intros []|]. intros _ [= <- <-]. exact I.
    + rewrite outermost_cons by discriminate.
      destruct (outermost (g :: stack)) as [[|]|] eqn:Houter;
        intros H; try contradiction.
      * destruct f; intros Heq; injection Heq as <- <-;
          now rewrite Houter.
      * cbn in Houter. destruct (outermost stack); discriminate.
Qed.

Lemma value_token_rooted (t : JSON.token) (stack : list JSON.frame)
      (st : JSON.state) (stack' : list JSON.frame) :
  match outermost stack with
  | Some (JSON.InObject _ _) => True
  | _ => False
  end ->
  JSON.value_token t stack = Some (st, stack') -> rooted st stack'.
Proof.
  intros Houter.
  assert (Hc : forall v, JSON.complete v stack = (st, stack') ->
                         rooted st stack').
  { intros v. apply complete_rooted.
    destruct (outermost stack) as [[|]|]; tauto. }
  destruct t; cbn [JSON.value_token]; try discriminate;
    try (intros [= H]; now apply Hc in H);
    intros [= <- <-]; unfold rooted;
    destruct (outermost stack) as [[|]|]; tauto.
Qed.

(** The recogniser keeps to a text that opened with [{]. *)
Lemma feed_rooted (st st' : JSON.state) (stack stack' : list JSON.frame)
      (t : JSON.token) :
  rooted st stack ->
  JSON.feed st stack t = Some (st', stack') -> rooted st' stack'.
Proof.
  unfold rooted at 1. intros Hroot Hfeed.
  destruct (outermost stack) as [[elems|props key]|] eqn:Houter;
    [contradiction| |].
  - (* inside an object that encloses everything *)
    assert (Hne : stack <> []) by (intros ->; discriminate).
    assert (Hpush : forall f, outermost (f :: stack)
                              = Some (JSON.InObject props key))
      by (intros f; now rewrite outermost_cons).
    destruct st; try contradiction;
      destruct t; cbn [JSON.feed] in Hfeed; try discriminate;
      try (injection Hfeed as <- <-; unfold rooted;
           rewrite ?Hpush, ?Houter; exact I);
      try (apply value_token_rooted in Hfeed;
           [assumption|rewrite ?Hpush, ?Houter; exact I]);
      try (injection Hfeed as Hfeed;
           apply complete_rooted in Hfeed;
           [assumption|rewrite Houter; exact I]).
  - (* at the top of the text *)
    assert (Hnil : stack = []) by (destruct stack as [|f stack];
      [reflexivity|cbn in Houter; destruct (outermost stack); discriminate]).
    subst stack.
    destruct st; try contradiction; destruct t; cbn [JSON.feed] in Hfeed;
      try discriminate;
      try (injection Hfeed as <- <-; exact I).
Qed.

Lemma run_rooted (toks : list JSON.token) (st : JSON.state)
      (stack : list JSON.frame) (v : value) :
  rooted st stack ->
  JSON.run st stack toks = Some v -> exists props, v = Obj props.
Proof.
  revert st stack. induction toks as [|t toks IH]; intros st stack Hroot;
    cbn [JSON.run].
  - destruct st as [| | | | | | |v0]; try discriminate. intros [= <-].
    unfold rooted in Hroot.
    destruct (outermost stack) as [[|]|]; try contradiction.
    destruct v0; try contradiction. now eexists.
  - destruct (JSON.feed st stack t) as [[st' stack']|] eqn:Hfeed;
      [|discriminate].
    apply IH. now apply (feed_rooted st st' stack stack' t).
Qed.

(** JSON text that begins with [{] parses to an object. *)
Lemma parse_open_brace (rest : jsstring) (v : value) :
  JSON.parse (123%N :: rest) = Ok v -> exists props, v = Obj props.
Proof.
  unfold JSON.parse.
  destruct (JSON.tokens (123%N :: rest)) as [toks|] eqn:Htoks; [|discriminate].
  apply tokens_open_brace in Htoks as [toks' ->].
  cbn [JSON.run JSON.feed JSON.value_token].
  destruct (JSON.run JSON.ObjectOpen [] toks') as [v'|] eqn:Hrun;
    [|discriminate].
  intros [= <-]. now apply (run_rooted toks' JSON.ObjectOpen []).
Qed.

(** X6.  When the whole reply is not JSON but the text from its first [{]
    to its last [}] is, the parsed value is an object: the handler goes on
    to the coercion, and the answer is 200 with the coerced Review or, if
    the coercion throws, 500; it is never 502. *)
Theorem POST_rescued_reply
        (w : World) (req : Request) (cv content m : jsstring)
        (e : exn) (parsed : value) :
  accepted w req cv ->
  chat_completions_create w (chat_request w cv) = Ok (Some content) ->
  JSON.parse content = Throw e ->
  match_braces content = Some m ->
  JSON.parse m = Ok parsed ->
  (exists props, parsed = Obj props)
  /\ POST w req =
       (match sanitize parsed with
        | Ok review => ok_response review
        | Throw e' =>
            error_response
              (message_or e' (js "Unexpected server error")) 500
        end,
        [chat_request w cv]).
Proof.
  intros Hacc Hcall Hwhole Hmatch Hm.
  destruct (match_braces_head content m Hmatch) as [rest ->].
  destruct (parse_open_brace rest parsed Hm) as [props ->].
  split; [now exists props|].
  rewrite (POST_accepted w req cv Hacc).
  rewrite (POST_review_parsed w cv (Some content) (Obj props) Hcall)
    by (unfold parse_content; now rewrite Hwhole, Hmatch).
  cbn [ToBoolean negb]. now destruct (sanitize (Obj props)).
Qed.

Lemma POST_rescued_reply_witness :
  (exists props, sample_value = Obj props)
  /\ POST (stub key_set (Ok (Some sample_reply)))
          (submit (Some (js "cv")) None) =
       (ok_response {| strengths := [js "a"];
                       weaknesses := [];
                       suggestions := [js "b"; js "b"];
                       score := 10 |},
        [chat_request (stub key_set (Ok (Some sample_reply))) (js "cv")]).
Proof.
  apply (POST_rescued_reply (stub key_set (Ok (Some sample_reply)))
           (submit (Some (js "cv")) None) (js "cv") sample_reply
           (jsq "{'strengths':['a'],'weaknesses':[],'suggestions':['b','b',''],'score':15}")
           SyntaxError sample_value); try reflexivity.
  now apply accepted_pasted.
Defined.

(** ** Extraction errors, decoders, re-coercion *)

(** X7.  When the PDF or DOCX decoder throws, whatever it throws, the
    request is answered 400 with the fixed text "Failed to extract text
    from PDF" (or "... from DOCX"): the cause's own message is not passed
    on, and the model is not called. *)
Theorem POST_extraction_failure_is_masked
        (w : World) (req : Request) (form : FormData) (f : File) (e : exn) :
  formData req = Ok form ->
  file form = Some f ->
  falsy (OPENAI_API_KEY w) = false ->
  (type f = mime_pdf -> pdf w (arrayBuffer f) = Throw e ->
   POST w req =
     (error_response (Plain (js "Failed to extract text from PDF")) 400, []))
  /\ (type f = mime_docx ->
      mammoth_extractRawText w (arrayBuffer f) = Throw e ->
      POST w req =
        (error_response (Plain (js "Failed to extract text from DOCX")) 400,
         [])).
Proof.
  intros Hform Hfile Hkey. split; intros Htype Hthrow.
  - now rewrite (POST_file_rejected w req form f _ Hform Hfile Hkey
                   (processFile_pdf_failure w f e Htype Hthrow)).
  - now rewrite (POST_file_rejected w req form f _ Hform Hfile Hkey
                   (processFile_docx_failure w f e Htype Hthrow)).
Qed.

Lemma POST_extraction_failure_is_masked_witness :
  POST (stub key_set (Ok None)) (submit None (Some broken_pdf)) =
    (error_response (Plain (js "Failed to extract text from PDF")) 400, []).
Proof.
  apply (proj1 (POST_extraction_failure_is_masked
                  (stub key_set (Ok None)) (submit None (Some broken_pdf))
                  {| text := None; file := Some broken_pdf |} broken_pdf
                  (Error (js "Invalid PDF structure"))
                  eq_refl eq_refl eq_refl)); reflexivity.
Defined.

(** X8.  A request with pasted text and no file never consults the file
    decoders: the response and the model calls are the same whatever
    pdf-parse, mammoth and the UTF-8 decoding would do. *)
Theorem POST_pasted_text_ignores_decoders
        (w : World) (t : option jsstring)
        (p m : bytes -> result jsstring) (u : bytes -> jsstring) :
  POST (with_decoders w p m u) (submit t None) = POST w (submit t None).
Proof.
  unfold POST, POST_try. cbn [formData submit].
  rewrite !bind_lift_ok. cbn [text file].
  destruct (falsy t && true); [reflexivity|].
  change (OPENAI_API_KEY (with_decoders w p m u)) with (OPENAI_API_KEY w).
  destruct (falsy (OPENAI_API_KEY w)); [reflexivity|].
  rewrite !bind_next.
  destruct (is_empty (trim (or_else t []))); reflexivity.
Qed.

(** The score of a Number that is an integer from 0 to 10: [Math.max(1, _)]
    lifts 0 to 1 and leaves the others. *)
Lemma sanitizeScore_of_Z_0_10 (k : Z) :
  0 <= k <= 10 -> sanitizeScore (of_Z k) = Z.max 1 k.
Proof.
  intros H.
  destruct (Z.eq_dec k 0) as [->|Hk]; [reflexivity|].
  rewrite sanitizeScore_of_Z by lia. lia.
Qed.

(** X9.  Coercing again the Review that the coercion returned (sent as a
    JSON object) gives the same three lists, and the same score unless
    that score is the sentinel 0, which comes back as 1. *)
Theorem sanitize_again (parsed : value) (review : Review) :
  ToBoolean parsed = true ->
  sanitize parsed = Ok review ->
  sanitize (review_value review) =
    Ok {| strengths := strengths review;
          weaknesses := weaknesses review;
          suggestions := suggestions review;
          score := Z.max 1 (score review) |}.
Proof.
  intros Htruthy Hsan.
  destruct (sanitize_contract parsed review Htruthy Hsan)
    as [H1 [H2 [H3 Hscore]]].
  rewrite (sanitize_intro (review_value review)
             (Num (of_Z (score review))) (of_Z (score review))
             (strengths review) (weaknesses review) (suggestions review));
    try reflexivity;
    try (now apply sanitizeField_strings).
  now rewrite sanitizeScore_of_Z_0_10 by lia.
Qed.

Lemma sanitize_again_witness :
  sanitize (review_value degraded) =
    Ok {| strengths := []; weaknesses := []; suggestions := []; score := 1 |}.
Proof.
  apply (sanitize_again (Obj []) degraded); reflexivity.
Defined.

(** ** The page: file selection *)

Lemma includes_validTypes (t : jsstring) :
  Page.includes Page.validTypes t = true <->
  t = mime_pdf \/ t = mime_docx \/ t = mime_text.
Proof.
  unfold Page.includes, Page.validTypes. cbn [existsb].
  rewrite orb_false_r, !orb_true_iff, !eqb_eq.
  intuition congruence.
Qed.

Lemma includes_validTypes_supported (t : jsstring) :
  Page.includes Page.validTypes t = supported t.
Proof.
  unfold Page.includes, Page.validTypes, supported. cbn [existsb].
  rewrite orb_false_r, orb_assoc.
  assert (Hsym : forall a b, JsString.eqb a b = JsString.eqb b a).
  { intros a b. destruct (JsString.eqb a b) eqn:Hab.
    - apply eqb_eq in Hab as ->. symmetry. apply eqb_refl.
    - destruct (JsString.eqb b a) eqn:Hba; [|reflexivity].
      apply eqb_eq in Hba as ->. now rewrite eqb_refl in Hab. }
  now rewrite (Hsym mime_pdf), (Hsym mime_docx), (Hsym mime_text).
Qed.

Lemma validTypes_not_image (t : jsstring) :
  Page.includes Page.validTypes t = true ->
  Page.startsWith t (js "image/") = false.
Proof.
  intros H. apply includes_validTypes in H as [->|[->| ->]]; reflexivity.
Qed.

(** X10.  The page and the route agree on file types.  A file whose
    declared type the page accepts is never turned away by the route as
    an unsupported type, whatever the decoders do; a file whose type the
    page rejects would be. *)
Theorem page_types_match_route (w : World) (f : File) :
  (Page.includes Page.validTypes (type f) = true ->
   processFile w f <> Throw (Error unsupported_message))
  /\ (Page.includes Page.validTypes (type f) = false ->
      processFile w f = Throw (Error unsupported_message)).
Proof.
  split.
  - intros H. apply includes_validTypes in H. unfold processFile.
    destruct H as [->|[->| ->]]; cbn [JsString.eqb];
      rewrite ?eqb_refl.
    + unfold extractTextFromPdf.
      destruct (pdf w (readFileAsBuffer f)); discriminate.
    + change (JsString.eqb mime_docx mime_pdf) with false. cbv iota.
      unfold extractTextFromDocx.
      destruct (mammoth_extractRawText w (readFileAsBuffer f)); discriminate.
    + change (JsString.eqb mime_text mime_pdf) with false.
      change (JsString.eqb mime_text mime_docx) with false. discriminate.
  - rewrite includes_validTypes_supported.
    apply processFile_unsupported.
Qed.

Lemma page_types_match_route_witness :
  processFile (stub key_set (Ok None)) docx
    <> Throw (Error unsupported_message)
  /\ processFile (stub key_set (Ok None)) png
       = Throw (Error unsupported_message).
Proof.
  split.
  - apply (proj1 (page_types_match_route (stub key_set (Ok None)) docx)).
    reflexivity.
  - apply (proj2 (page_types_match_route (stub key_set (Ok None)) png)).
    reflexivity.
Defined.

Section PageHandlers.

Variable formatFileSize : Z -> jsstring.

(** X11.  Selecting a file on the page.  A file of an accepted type and
    of at most 5 MiB (5242880 bytes) becomes the selected file: the text
    area is emptied, the error is cleared and no preview is made.  Any
    other file is turned away: an error message is set and the selected
    file and the text stay as they were.  The review and the loading flag
    are never touched. *)
Theorem page_processFile_outcome (st : Page.State) (f : Page.Upload) :
  (Page.includes Page.validTypes (type (Page.blob f)) = true ->
   Page.size f <= 5242880 ->
   Page.file (Page.fileState (Page.processFile formatFileSize st f)) = Some f
   /\ Page.preview (Page.fileState (Page.processFile formatFileSize st f)) = None
   /\ Page.text (Page.processFile formatFileSize st f) = []
   /\ Page.error (Page.processFile formatFileSize st f) = None)
  /\ (Page.includes Page.validTypes (type (Page.blob f)) = false
      \/ 5242880 < Page.size f ->
      Page.fileState (Page.processFile formatFileSize st f) = Page.fileState st
      /\ Page.text (Page.processFile formatFileSize st f) = Page.text st
      /\ exists message, Page.error (Page.processFile formatFileSize st f) = Some (Plain message)
                         /\ message <> [])
  /\ Page.review (Page.processFile formatFileSize st f) = Page.review st
  /\ Page.loading (Page.processFile formatFileSize st f) = Page.loading st.
Proof.
  unfold Page.processFile, Page.maxSize.
  change (5 * 1024 * 1024) with 5242880.
  destruct (Page.includes Page.validTypes (type (Page.blob f))) eqn:Htype;
    cbn [negb].
  - destruct (Z.gtb_spec (Page.size f) 5242880) as [Hbig|Hsmall].
    + split; [intros _ Hle; lia|]. split; [|now split].
      intros _. cbn. repeat split. eexists. split; [reflexivity|discriminate].
    + split; [|split; [intros [H|H]; [discriminate|lia]|now split]].
      intros _ _. rewrite (validTypes_not_image _ Htype).
      now repeat split.
  - split; [discriminate|]. split; [|now split].
    intros _. cbn. repeat split. eexists. split; [reflexivity|discriminate].
Qed.

End PageHandlers.

Lemma page_processFile_outcome_witness :
  Page.file (Page.fileState
               (Page.processFile bytes_label
                  (Page.setText Page.initial (js "my cv")) cv_docx))
    = Some cv_docx
  /\ Page.text (Page.processFile bytes_label
                  (Page.setText Page.initial (js "my cv")) cv_docx) = []
  /\ Page.text (Page.processFile bytes_label
                  (Page.setText Page.initial (js "my cv")) huge_pdf)
     = js "my cv"
  /\ Page.fileState (Page.processFile bytes_label Page.initial photo_png)
     = Page.noFile.
Proof.
  pose (st := Page.setText Page.initial (js "my cv")).
  destruct (page_processFile_outcome bytes_label st cv_docx)
    as [Haccept _].
  destruct (Haccept eq_refl ltac:(discriminate)) as [Hfile [_ [Htext _]]].
  destruct (page_processFile_outcome bytes_label st huge_pdf)
    as [_ [Hreject _]].
  destruct (Hreject (or_intror eq_refl)) as [_ [Htext' _]].
  destruct (page_processFile_outcome bytes_label Page.initial photo_png)
    as [_ [Hreject' _]].
  destruct (Hreject' (or_introl eq_refl)) as [Hfs _].
  repeat split; assumption.
Defined.

(** ** The page: what every sequence of events keeps *)

Section PageInvariant.

Variable formatFileSize : Z -> jsstring.

Let Inv := page_invariant formatFileSize.

Lemma invariant_initial : Inv Page.initial.
Proof. unfold Inv, page_invariant. cbn. now repeat split. Qed.

Lemma invariant_processFile (st : Page.State) (f : Page.Upload) :
  Inv st -> Inv (Page.processFile formatFileSize st f).
Proof.
  unfold Inv, page_invariant, Page.processFile.
  destruct (Page.includes Page.validTypes (type (Page.blob f))) eqn:Htype;
    cbn [negb]; [|intros H; exact H].
  destruct (Z.gtb_spec (Page.size f) Page.maxSize) as [Hbig|Hsmall];
    [intros H; exact H|].
  intros _. rewrite (validTypes_not_image _ Htype). cbn.
  now repeat split.
Qed.

Lemma invariant_resetForm (st : Page.State) : Inv (Page.resetForm st).
Proof. unfold Inv, page_invariant. cbn. now repeat split. Qed.

Lemma invariant_same_input (st st' : Page.State) :
  Page.text st' = Page.text st ->
  Page.fileState st' = Page.fileState st ->
  Inv st -> Inv st'.
Proof. unfold Inv, page_invariant. now intros -> ->. Qed.

Lemma invariant_step (st : Page.State) (ev : Page.event) :
  Inv st -> Inv (Page.step formatFileSize st ev).
Proof.
  intros H. destruct ev as [| |files|files|value| | |response];
    cbn [Page.step].
  - now apply (invariant_same_input st).
  - now apply (invariant_same_input st).
  - unfold Page.handleDrop. destruct files as [f|].
    + apply invariant_processFile. now apply (invariant_same_input st).
    + now apply (invariant_same_input st).
  - unfold Page.handleFileChange. destruct files as [f|];
      [now apply invariant_processFile|assumption].
  - unfold Page.textarea_onChange.
    destruct (Page.file (Page.fileState st)) eqn:Hfile.
    + apply invariant_resetForm.
    + unfold Inv, page_invariant in *. cbn. now rewrite Hfile in *.
  - apply invariant_resetForm.
  - unfold Page.handleSubmit_begin.
    destruct (Page.nothing_to_send st);
      now apply (invariant_same_input st).
  - unfold Page.handleSubmit_end.
    destruct (Page.read_response response);
      now apply (invariant_same_input st).
Qed.

Lemma invariant_fold (events : list Page.event) (st : Page.State) :
  Inv st -> Inv (fold_left (Page.step formatFileSize) events st).
Proof.
  revert st. induction events as [|ev events IH]; intros st H;
    [exact H|].
  cbn [fold_left]. apply IH. now apply invariant_step.
Qed.

End PageInvariant.

(** X12.  Whatever is dragged, dropped, chosen, typed, reset or submitted,
    in any order, the page keeps its state consistent: a selected file
    always has an accepted type and at most 5 MiB and goes with an empty
    text area, so text and file are never held together; the file name,
    size label and type displayed are those of the selected file; and no
    preview or extracted text is ever stored. *)
Theorem page_invariant_always
        (formatFileSize : Z -> jsstring) (events : list Page.event) :
  page_invariant formatFileSize (Page.run formatFileSize events).
Proof. apply invariant_fold. apply invariant_initial. Qed.

Section PageSubmit.

Variable formatFileSize : Z -> jsstring.
Variable fetch : FormData -> result Page.FetchResponse.

(** X13.  Submitting.  With a blank text area and no file nothing is
    sent: the page shows "Please enter text or upload a file" and changes
    nothing else.  Otherwise exactly one request is sent, carrying the
    form of the state; when it is over the loading flag is off, the text
    and the file are untouched, and a review and an error are never shown
    together: either [fetch] gave an [ok] response with readable JSON,
    and then the review is that data, whatever it is ([null] included,
    which leaves no review), and the error is cleared; or an error is
    shown and the review is [null]. *)
Theorem page_handleSubmit_outcome (st : Page.State) :
  (Page.nothing_to_send st = true ->
   Page.handleSubmit fetch st =
     (Page.setError st
        (Some (Plain (js "Please enter text or upload a file"))), []))
  /\ (Page.nothing_to_send st = false ->
      snd (Page.handleSubmit fetch st) = [Page.form_of st]
      /\ Page.loading (fst (Page.handleSubmit fetch st)) = false
      /\ Page.text (fst (Page.handleSubmit fetch st)) = Page.text st
      /\ Page.fileState (fst (Page.handleSubmit fetch st)) = Page.fileState st
      /\ ((exists res data,
              fetch (Page.form_of st) = Ok res
              /\ Page.ok res = true
              /\ Page.json res = Ok data
              /\ Page.review (fst (Page.handleSubmit fetch st)) = data
              /\ Page.error (fst (Page.handleSubmit fetch st)) = None)
          \/ (exists message,
                 Page.error (fst (Page.handleSubmit fetch st)) = Some message
                 /\ Page.review (fst (Page.handleSubmit fetch st)) = Null))).
Proof.
  unfold Page.handleSubmit, Page.handleSubmit_begin. split; intros ->.
  - reflexivity.
  - unfold Page.handleSubmit_end, Page.read_response.
    destruct (fetch (Page.form_of st)) as [res|err] eqn:Hfetch;
      cbn [Exn.bind]; [|cbn; repeat split; right; now eexists].
    destruct (Page.json res) as [data|err] eqn:Hjson;
      cbn [Exn.bind]; [|cbn; repeat split; right; now eexists].
    destruct (Page.ok res) eqn:Hok; cbn [negb].
    + cbn. repeat split. left. now exists res, data.
    + destruct (String_ _) as [message|err];
        cbn; repeat split; right; now eexists.
Qed.

(** X14.  What the page shows for a response.  An [ok] response puts its
    JSON data in the review.  A response that is not [ok] and carries
    [{error: message}] with a non-empty string shows that message; one
    without a usable [error] shows "Request failed".  A failed [fetch]
    shows the message of what was thrown. *)
Theorem page_handleSubmit_end_shows (st : Page.State) :
  (forall data,
      Page.review (Page.handleSubmit_end st
                     (Ok {| Page.ok := true; Page.json := Ok data |}))
        = data
      /\ Page.error (Page.handleSubmit_end st
                       (Ok {| Page.ok := true; Page.json := Ok data |}))
         = Page.error st)
  /\ (forall props message,
         own props (js "error") = Some (Str message) -> message <> [] ->
         Page.error (Page.handleSubmit_end st
                       (Ok {| Page.ok := false;
                              Page.json := Ok (Obj props) |}))
           = Some (Plain message))
  /\ (forall data,
         ToBoolean (Page.data_error data) = false ->
         Page.error (Page.handleSubmit_end st
                       (Ok {| Page.ok := false; Page.json := Ok data |}))
           = Some (Plain (js "Request failed")))
  /\ (forall e,
         Page.error (Page.handleSubmit_end st (Throw e))
           = Some (message_or e
                     (js "Something went wrong. Please try again."))).
Proof.
  unfold Page.handleSubmit_end, Page.read_response.
  split; [|split; [|split]].
  - intros data. cbn. now split.
  - intros props message Hown Hne. cbn [Exn.bind Page.json Page.ok negb].
    cbn [Page.data_error]. rewrite Hown. cbn [ToBoolean].
    destruct message as [|c message]; [congruence|]. reflexivity.
  - intros data Hfalsy. cbn [Exn.bind Page.json Page.ok negb].
    rewrite Hfalsy. reflexivity.
  - intros e. reflexivity.
Qed.

End PageSubmit.

Lemma page_handleSubmit_outcome_witness :
  Page.handleSubmit (fun _ => Throw TypeError) Page.initial =
    (Page.setError Page.initial
       (Some (Plain (js "Please enter text or upload a file"))), [])
  /\ snd (Page.handleSubmit (fun _ => Throw TypeError)
            (Page.setText Page.initial (js "my cv")))
     = [{| text := Some (js "my cv"); file := None |}].
Proof.
  split.
  - apply (proj1 (page_handleSubmit_outcome (fun _ => Throw TypeError)
                    Page.initial)).
    reflexivity.
  - apply (proj2 (page_handleSubmit_outcome (fun _ => Throw TypeError)
                    (Page.setText Page.initial (js "my cv")))).
    reflexivity.
Defined.

Lemma page_handleSubmit_end_shows_witness :
  Page.error (Page.handleSubmit_end Page.initial
                (Ok {| Page.ok := false;
                       Page.json :=
                         Ok (Obj [(js "error",
                                   Str (js "No text content found to analyze"))])
                    |}))
    = Some (Plain (js "No text content found to analyze"))
  /\ Page.error (Page.handleSubmit_end Page.initial
                   (Ok {| Page.ok := false; Page.json := Ok (Arr []) |}))
     = Some (Plain (js "Request failed")).
Proof.
  split.
  - apply (proj1 (proj2 (page_handleSubmit_end_shows Page.initial))
             [(js "error", Str (js "No text content found to analyze"))]);
      [reflexivity|discriminate].
  - apply (proj1 (proj2 (proj2 (page_handleSubmit_end_shows Page.initial)))
             (Arr [])).
    reflexivity.
Defined.

(** ** The page in front of the route *)

(** For a supported type the only errors of [processFile] are the two
    extraction failures. *)
Lemma processFile_supported_errors (w : World) (f : File) (e : exn) :
  supported (type f) = true ->
  processFile w f = Throw e ->
  e = Error (js "Failed to extract text from PDF")
  \/ e = Error (js "Failed to extract text from DOCX").
Proof.
  rewrite <- includes_validTypes_supported. intros H.
  apply includes_validTypes in H. unfold processFile.
  destruct H as [->|[->| ->]]; rewrite ?eqb_refl.
  - unfold extractTextFromPdf.
    destruct (pdf w (readFileAsBuffer f)); [discriminate|].
    intros [= <-]. now left.
  - change (JsString.eqb mime_docx mime_pdf) with false. cbv iota.
    unfold extractTextFromDocx.
    destruct (mammoth_extractRawText w (readFileAsBuffer f)); [discriminate|].
    intros [= <-]. now right.
  - change (JsString.eqb mime_text mime_pdf) with false.
    change (JsString.eqb mime_text mime_docx) with false. discriminate.
Qed.

(** X15.  The page in front of the route.  From any state the page can
    reach, a submission that passes the page's own check never carries
    both text and file, is never answered "Either text or file must be
    provided" nor "Unsupported file type", and, when it carries pasted
    text, is never answered 400 at all: with an API key the text the
    route read goes to the model, in exactly one call.  The transport in
    between is any that keeps a text blank or not and a file type
    supported or not. *)
Theorem page_to_route
        (formatFileSize : Z -> jsstring) (events : list Page.event)
        (tr : Transport) (w : World) :
  transparent tr ->
  Page.nothing_to_send (Page.run formatFileSize events) = false ->
  (text (Page.form_of (Page.run formatFileSize events)) = None
   \/ file (Page.form_of (Page.run formatFileSize events)) = None)
  /\ fst (POST w (sent_by tr (Page.run formatFileSize events))) <>
       error_response (Plain (js "Either text or file must be provided")) 400
  /\ fst (POST w (sent_by tr (Page.run formatFileSize events))) <>
       error_response (Plain unsupported_message) 400
  /\ (file (Page.form_of (Page.run formatFileSize events)) = None ->
      status (fst (POST w (sent_by tr (Page.run formatFileSize events))))
        <> 400
      /\ (falsy (OPENAI_API_KEY w) = false ->
          snd (POST w (sent_by tr (Page.run formatFileSize events))) =
            [chat_request w
               (wire_text tr (Page.text (Page.run formatFileSize events)))])).
Proof.
  intros [Hwire_text Hwire_file].
  assert (Hinv : page_invariant formatFileSize
                   (Page.run formatFileSize events))
    by (apply invariant_fold; apply invariant_initial).
  set (st := Page.run formatFileSize events) in *.
  intros Hsend. unfold Page.nothing_to_send in Hsend.
  destruct Hinv as [_ [_ Hfile]].
  unfold sent_by, delivered, Page.form_of.
  destruct (Page.file (Page.fileState st)) as [f|] eqn:Hf; cbn [option_map].
  - (* a file, and an empty text area *)
    destruct Hfile as [Htext [Htype _]]. rewrite Htext.
    cbn [text file option_map].
    rewrite includes_validTypes_supported, <- Hwire_file in Htype.
    set (g := wire_file tr (Page.blob f)) in *.
    split; [now left|].
    assert (Hform : formData {| formData := Ok {| text := None;
                                                  file := Some g |} |}
                    = Ok {| text := None; file := Some g |})
      by reflexivity.
    destruct (falsy (OPENAI_API_KEY w)) eqn:Hkey.
    + assert (Hsome : file {| text := None; file := Some g |} <> None)
        by discriminate.
      rewrite (POST_missing_key w _ _ Hform (or_intror Hsome) Hkey).
      repeat split; discriminate.
    + destruct (processFile w g) as [t|e] eqn:Hproc.
      * rewrite (POST_file_text w _ _ _ t Hform eq_refl Hkey Hproc).
        destruct (is_empty (trim t)).
        -- repeat split; discriminate.
        -- destruct (POST_review_cases w t)
             as [[review [-> _]]|[->|[e ->]]];
             repeat split; discriminate.
      * rewrite (POST_file_rejected w _ _ _ e Hform eq_refl Hkey Hproc).
        destruct (processFile_supported_errors w _ e Htype Hproc) as [->| ->];
          repeat split; discriminate.
  - (* pasted text, not blank *)
    rewrite andb_true_r in Hsend.
    pose proof (trim_nonempty _ Hsend) as Hne.
    destruct (Page.text st) as [|c t] eqn:Htext; [congruence|].
    cbn [text file option_map]. split; [now right|].
    rewrite <- Hwire_text in Hsend.
    pose proof (trim_nonempty _ Hsend) as Hne'.
    destruct (wire_text tr (c :: t)) as [|c' t'] eqn:Hw; [congruence|].
    change {| formData := Ok {| text := Some (c' :: t'); file := None |} |}
      with (submit (Some (c' :: t')) None).
    destruct (falsy (OPENAI_API_KEY w)) eqn:Hkey.
    + rewrite (POST_missing_key w (submit (Some (c' :: t')) None)
                 {| text := Some (c' :: t'); file := None |}
                 eq_refl (or_introl eq_refl) Hkey).
      repeat split; discriminate.
    + assert (Hacc : accepted w (submit (Some (c' :: t')) None) (c' :: t'))
        by now apply accepted_pasted.
      rewrite (POST_accepted w _ _ Hacc).
      destruct (POST_review_cases w (c' :: t'))
        as [[review [-> _]]|[->|[e ->]]];
        repeat split; discriminate.
Qed.

(** Blank is all white space. *)
Lemma trim_start_empty (s : jsstring) :
  is_empty (trim_start s) = forallb is_whitespace s.
Proof.
  induction s as [|c s IH]; [reflexivity|].
  cbn [trim_start forallb]. now destruct (is_whitespace c).
Qed.

Lemma trim_start_all (s : jsstring) :
  forallb is_whitespace (trim_start s) = forallb is_whitespace s.
Proof.
  induction s as [|c s IH]; [reflexivity|].
  cbn [trim_start]. destruct (is_whitespace c) eqn:Hc; [|reflexivity].
  cbn [forallb]. now rewrite Hc.
Qed.

Lemma forallb_rev (s : jsstring) :
  forallb is_whitespace (rev s) = forallb is_whitespace s.
Proof.
  induction s as [|c s IH]; [reflexivity|].
  cbn [rev forallb]. rewrite forallb_app, IH. cbn [forallb].
  now rewrite andb_true_r, andb_comm.
Qed.

Lemma trim_blank (s : jsstring) :
  is_empty (trim s) = forallb is_whitespace s.
Proof.
  unfold trim.
  assert (Hrev : forall l : jsstring, is_empty (rev l) = is_empty l).
  { intros [|c l]; [reflexivity|]. cbn [rev]. now destruct (rev l). }
  now rewrite Hrev, trim_start_empty, forallb_rev, trim_start_all.
Qed.

Lemma normalize_newlines_blank (s : jsstring) :
  forallb is_whitespace (normalize_newlines s) = forallb is_whitespace s.
Proof.
  assert (H : forall n (s : jsstring), (List.length s <= n)%nat ->
            forallb is_whitespace (normalize_newlines s)
            = forallb is_whitespace s).
  { induction n as [|n IH]; intros [|c l] Hlen; try reflexivity;
      cbn [List.length] in Hlen; [lia|].
    cbn [normalize_newlines].
    destruct (N.eqb_spec c 13) as [->|H13].
    - destruct l as [|d l]; [reflexivity|].
      destruct (N.eqb_spec d 10) as [->|H10].
      + cbn [forallb]. rewrite IH by (cbn [List.length] in Hlen; lia).
        reflexivity.
      + change (forallb is_whitespace
                  (13%N :: 10%N :: normalize_newlines (d :: l)))
          with (forallb is_whitespace (normalize_newlines (d :: l))).
        rewrite IH by lia. reflexivity.
    - destruct (N.eqb_spec c 10) as [->|H10].
      + change (forallb is_whitespace (13%N :: 10%N :: normalize_newlines l))
          with (forallb is_whitespace (normalize_newlines l)).
        rewrite IH by lia. reflexivity.
      + cbn [forallb]. now rewrite IH by lia. }
  now apply (H (List.length s)).
Qed.

(** The encoding of a browser is such a transport. *)
Lemma multipart_transparent : transparent multipart.
Proof.
  split.
  - intros t. cbn [multipart wire_text].
    now rewrite !trim_blank, normalize_newlines_blank.
  - intros [[|c t] b]; reflexivity.
Qed.

Lemma page_to_route_witness :
  status (fst (POST (stub key_set (Ok (Some scenario_reply)))
                    (sent_by multipart
                       (Page.run bytes_label
                          [Page.Drop (Some cv_docx);
                           Page.Typing scenario_text;
                           Page.Typing scenario_text]))))
    <> 400
  /\ snd (POST (stub key_set (Ok (Some scenario_reply)))
               (sent_by multipart
                  (Page.run bytes_label
                     [Page.Drop (Some cv_docx);
                      Page.Typing scenario_text;
                      Page.Typing scenario_text])))
     = [chat_request (stub key_set (Ok (Some scenario_reply))) scenario_text].
Proof.
  destruct (proj2 (proj2 (proj2
              (page_to_route bytes_label
                 [Page.Drop (Some cv_docx); Page.Typing scenario_text;
                  Page.Typing scenario_text]
                 multipart
                 (stub key_set (Ok (Some scenario_reply)))
                 multipart_transparent eq_refl)))
              eq_refl) as [Hstatus Hcalls].
  split; [exact Hstatus|exact (Hcalls eq_refl)].
Defined.

(** ** The first version of the page *)

Lemma v1_invariant_same_input (st st' : PageV1.State) :
  PageV1.text st' = PageV1.text st ->
  PageV1.fileState st' = PageV1.fileState st ->
  page_v1_invariant st -> page_v1_invariant st'.
Proof. unfold page_v1_invariant. now intros -> ->. Qed.

Lemma v1_invariant_step (st : PageV1.State) (ev : PageV1.event) :
  page_v1_invariant st -> page_v1_invariant (PageV1.step st ev).
Proof.
  intros H. destruct ev as [files|value| | |response]; cbn [PageV1.step].
  - destruct files as [f|]; [|exact H].
    unfold page_v1_invariant. cbn. now repeat split.
  - unfold PageV1.textarea_onChange.
    destruct (PageV1.file (PageV1.fileState st)) eqn:Hfile.
    + unfold page_v1_invariant. cbn. now repeat split.
    + unfold page_v1_invariant in *. cbn. now rewrite Hfile in *.
  - unfold page_v1_invariant. cbn. now repeat split.
  - unfold PageV1.handleSubmit_begin.
    destruct (PageV1.nothing_to_send st);
      now apply (v1_invariant_same_input st).
  - unfold PageV1.handleSubmit_end.
    destruct (Page.read_response response);
      now apply (v1_invariant_same_input st).
Qed.

(** X16.  The first version of the page keeps text and file apart as
    well: after any sequence of events a selected file goes with an empty
    text area, so the form it sends never carries both fields; a preview
    is held only for a selected image. *)
Theorem page_v1_invariant_always (events : list PageV1.event) :
  page_v1_invariant (PageV1.run events)
  /\ (text (PageV1.form_of (PageV1.run events)) = None
      \/ file (PageV1.form_of (PageV1.run events)) = None).
Proof.
  assert (Hinv : page_v1_invariant (PageV1.run events)).
  { unfold PageV1.run.
    assert (Hfold : forall st, page_v1_invariant st ->
              page_v1_invariant (fold_left PageV1.step events st)).
    { induction events as [|ev events IH]; intros st H; [exact H|].
      cbn [fold_left]. apply IH. now apply v1_invariant_step. }
    apply Hfold. unfold page_v1_invariant. cbn. now split. }
  split; [exact Hinv|].
  destruct Hinv as [_ Hfile]. unfold PageV1.form_of.
  destruct (PageV1.file (PageV1.fileState (PageV1.run events))).
  - destruct Hfile as [-> _]. now left.
  - now right.
Qed.

(** X17.  The first version of the page checks neither type nor size:
    choosing any file selects it.  When its declared type is not one the
    route supports, the submission passes the page, and it is the route
    (with an API key) that answers 400 "Unsupported file type", without
    calling the model. *)
Theorem page_v1_unsupported_file_reaches_route
        (st : PageV1.State) (f : Page.Upload) (tr : Transport) (w : World) :
  transparent tr ->
  supported (type (Page.blob f)) = false ->
  falsy (OPENAI_API_KEY w) = false ->
  PageV1.file (PageV1.fileState (PageV1.handleFileChange st (Some f)))
    = Some f
  /\ snd (PageV1.handleSubmit_begin (PageV1.handleFileChange st (Some f)))
     = Some {| text := None; file := Some (Page.blob f) |}
  /\ POST w {| formData :=
                 Ok (delivered tr {| text := None;
                                     file := Some (Page.blob f) |}) |} =
       (error_response (Plain unsupported_message) 400, []).
Proof.
  intros [_ Hwire_file] Htype Hkey.
  split; [reflexivity|]. split; [reflexivity|].
  rewrite <- Hwire_file in Htype. unfold delivered. cbn [text file option_map].
  change {| formData := Ok {| text := None;
                              file := Some (wire_file tr (Page.blob f)) |} |}
    with (submit None (Some (wire_file tr (Page.blob f)))).
  now rewrite (POST_file_rejected w
                 (submit None (Some (wire_file tr (Page.blob f))))
                 {| text := None; file := Some (wire_file tr (Page.blob f)) |}
                 (wire_file tr (Page.blob f)) _ eq_refl eq_refl Hkey
                 (processFile_unsupported w _ Htype)).
Qed.

Lemma page_v1_unsupported_file_reaches_route_witness :
  snd (PageV1.handleSubmit_begin
         (PageV1.handleFileChange PageV1.initial (Some photo_png)))
    = Some {| text := None; file := Some png |}
  /\ POST (stub key_set (Ok None)) (submit None (Some png)) =
       (error_response (Plain unsupported_message) 400, []).
Proof.
  apply (proj2 (page_v1_unsupported_file_reaches_route
                  PageV1.initial photo_png multipart
                  (stub key_set (Ok None))
                  multipart_transparent eq_refl eq_refl)).
Defined.

(** ** JSON text: from [stringify] back through [parse] *)

Lemma hex_char_digit (d : N) :
  (d < 16)%N -> radix_digit 16 (Stringify.hex_char d) = Some (Z.of_N d).
Proof.
  intros H.
  assert (Hd : In d [0;1;2;3;4;5;6;7;8;9;10;11;12;13;14;15]%N).
  { cbn. lia. }
  cbn in Hd.
  repeat (destruct Hd as [<-|Hd]; [reflexivity|]). contradiction.
Qed.

Lemma hex_digits_value (c : N) :
  (c < 65536)%N ->
  (16 * (16 * (16 * (16 * 0 + (c / 4096) mod 16) + (c / 256) mod 16)
         + (c / 16) mod 16) + c mod 16 = c)%N.
Proof.
  intros H.
  replace (c / 256)%N with (c / 16 / 16)%N by (now rewrite N.Div0.div_div).
  replace (c / 4096)%N with (c / 16 / 16 / 16)%N
    by (now rewrite !N.Div0.div_div).
  pose proof (N.div_mod c 16 ltac:(discriminate)) as E0.
  pose proof (N.div_mod (c / 16) 16 ltac:(discriminate)) as E1.
  pose proof (N.div_mod (c / 16 / 16) 16 ltac:(discriminate)) as E2.
  pose proof (N.mod_lt c 16 ltac:(discriminate)) as L0.
  pose proof (N.mod_lt (c / 16) 16 ltac:(discriminate)) as L1.
  pose proof (N.mod_lt (c / 16 / 16) 16 ltac:(discriminate)) as L2.
  assert (E3 : ((c / 16 / 16 / 16) mod 16 = c / 16 / 16 / 16)%N).
  { apply N.mod_small. apply N.Div0.div_lt_upper_bound.
    set (q1 := (c / 16)%N) in *. set (q2 := (q1 / 16)%N) in *.
    set (r0 := (c mod 16)%N) in *. set (r1 := (q1 mod 16)%N) in *.
    set (r2 := (q2 mod 16)%N) in *. lia. }
  rewrite E3.
  pose proof (N.div_mod (c / 16 / 16) 16 ltac:(discriminate)) as E2'.
  set (q1 := (c / 16)%N) in *. set (q2 := (q1 / 16)%N) in *.
  set (q3 := (q2 / 16)%N) in *.
  set (r0 := (c mod 16)%N) in *. set (r1 := (q1 mod 16)%N) in *.
  set (r2 := (q2 mod 16)%N) in *. lia.
Qed.

Section ScanString.

Variable toks : list JSON.token.

Lemma scan_step (m m' : JSON.mode) (toks' : list JSON.token)
      (c : char16) (rest : jsstring) :
  JSON.step m toks c = Some (m', toks') ->
  JSON.scan m toks (c :: rest) = JSON.scan m' toks' rest.
Proof. intros H. cbn [JSON.scan]. now rewrite H. Qed.

Lemma step_hex (todo : nat) (code d : N) (acc : jsstring) :
  (d < 16)%N ->
  JSON.step (JSON.InUnicode (S todo) code acc) toks (Stringify.hex_char d) =
    Some (match todo with
          | O => JSON.InString ((16 * code + d)%N :: acc)
          | S _ => JSON.InUnicode todo (16 * code + d)%N acc
          end, toks).
Proof.
  intros Hd. cbn [JSON.step]. rewrite (hex_char_digit d Hd), N2Z.id.
  now destruct todo.
Qed.

(** The scanner reads an escape [\uXXXX] back as its code unit. *)
Lemma scan_unicode_escape (c : char16) (acc rest : jsstring) :
  (c < 65536)%N ->
  JSON.scan (JSON.InString acc) toks (Stringify.unicode_escape c ++ rest) =
    JSON.scan (JSON.InString (c :: acc)) toks rest.
Proof.
  intros Hc. unfold Stringify.unicode_escape. cbn [app].
  assert (Hmod : forall x, (x mod 16 < 16)%N)
    by (intros x; apply N.mod_lt; discriminate).
  rewrite (scan_step (JSON.InString acc) (JSON.InEscape acc) toks)
    by reflexivity.
  rewrite (scan_step (JSON.InEscape acc) (JSON.InUnicode 4 0 acc) toks)
    by reflexivity.
  do 4 (erewrite scan_step by (apply step_hex; apply Hmod)).
  now rewrite (hex_digits_value c Hc).
Qed.

Lemma scan_plain_char (c : char16) (acc rest : jsstring) :
  N.eqb c 34 = false -> N.eqb c 92 = false -> N.ltb c 32 = false ->
  JSON.scan (JSON.InString acc) toks (c :: rest) =
    JSON.scan (JSON.InString (c :: acc)) toks rest.
Proof.
  intros H34 H92 H32. cbn [JSON.scan JSON.step].
  now rewrite H34, H92, H32.
Qed.

Lemma scan_quote_char (c : char16) (acc rest : jsstring) :
  JSON.scan (JSON.InString acc) toks (Stringify.quote_char c ++ rest) =
    JSON.scan (JSON.InString (c :: acc)) toks rest.
Proof.
  unfold Stringify.quote_char.
  destruct (N.eqb_spec c 8) as [->|_]; [reflexivity|].
  destruct (N.eqb_spec c 9) as [->|_]; [reflexivity|].
  destruct (N.eqb_spec c 10) as [->|_]; [reflexivity|].
  destruct (N.eqb_spec c 12) as [->|_]; [reflexivity|].
  destruct (N.eqb_spec c 13) as [->|_]; [reflexivity|].
  destruct (N.eqb c 34) eqn:H34;
    [apply N.eqb_eq in H34 as ->; reflexivity|].
  destruct (N.eqb c 92) eqn:H92;
    [apply N.eqb_eq in H92 as ->; reflexivity|].
  destruct (N.ltb c 32) eqn:H32.
  - apply scan_unicode_escape. apply N.ltb_lt in H32. lia.
  - now apply scan_plain_char.
Qed.

Lemma surrogate_plain (c : char16) :
  Stringify.is_high_surrogate c = true
  \/ Stringify.is_low_surrogate c = true ->
  N.eqb c 34 = false /\ N.eqb c 92 = false /\ N.ltb c 32 = false
  /\ (c < 65536)%N.
Proof.
  unfold Stringify.is_high_surrogate, Stringify.is_low_surrogate.
  rewrite !andb_true_iff, !N.leb_le.
  intros H. repeat split;
    try (apply N.eqb_neq; lia); try (apply N.ltb_ge; lia); lia.
Qed.

(** The scanner reads the quoted characters back as the string. *)
Lemma scan_quote_chars (s : jsstring) (paired : bool)
      (acc rest : jsstring) :
  JSON.scan (JSON.InString acc) toks
            (Stringify.quote_chars paired s ++ quote :: rest) =
    JSON.scan JSON.Between (JSON.TString (rev acc ++ s) :: toks) rest.
Proof.
  revert paired acc. induction s as [|c s IH]; intros paired acc.
  - cbn [Stringify.quote_chars app JSON.scan JSON.step].
    change (N.eqb quote 34) with true. cbv iota. now rewrite app_nil_r.
  - replace (rev acc ++ c :: s) with (rev (c :: acc) ++ s)
      by (cbn [rev]; now rewrite <- app_assoc).
    cbn [Stringify.quote_chars].
    destruct (Stringify.is_high_surrogate c) eqn:Hhigh.
    + destruct (surrogate_plain c (or_introl Hhigh)) as [H34 [H92 [H32 Hc]]].
      destruct (match s with
                | d :: _ => Stringify.is_low_surrogate d
                | [] => false
                end).
      * cbn [app]. rewrite scan_plain_char by assumption. apply IH.
      * rewrite <- app_assoc, scan_unicode_escape by assumption. apply IH.
    + destruct (Stringify.is_low_surrogate c) eqn:Hlow.
      * destruct (surrogate_plain c (or_intror Hlow)) as [H34 [H92 [H32 Hc]]].
        rewrite <- app_assoc. destruct paired.
        -- cbn [app]. rewrite scan_plain_char by assumption. apply IH.
        -- rewrite scan_unicode_escape by assumption. apply IH.
      * rewrite <- app_assoc, scan_quote_char. apply IH.
Qed.

(** A quoted string is one string token. *)
Lemma scan_quote_string (s rest : jsstring) :
  JSON.scan JSON.Between toks (Stringify.quote_string s ++ rest) =
    JSON.scan JSON.Between (JSON.TString s :: toks) rest.
Proof.
  unfold Stringify.quote_string. rewrite <- !app_assoc.
  cbn [app JSON.scan JSON.step].
  change (JSON.start quote toks) with (Some (JSON.InString [], toks)).
  cbv iota. apply (scan_quote_chars s false []).
Qed.

End ScanString.

(** Round trip of a string: [JSON.parse(JSON.stringify(s))] is [s]. *)
Lemma parse_quote_string (s : jsstring) :
  JSON.parse (Stringify.quote_string s) = Ok (Str s).
Proof.
  unfold JSON.parse, JSON.tokens.
  rewrite <- (app_nil_r (Stringify.quote_string s)), scan_quote_string.
  reflexivity.
Qed.

Lemma join_comma_cons (x : jsstring) (l : list jsstring) :
  Stringify.join_comma (x :: l) =
    x ++ List.concat (map (fun y => comma ++ y) l).
Proof.
  revert x. induction l as [|y l IH]; intros x.
  - cbn. now rewrite app_nil_r.
  - change (Stringify.join_comma (x :: y :: l))
      with (x ++ comma ++ Stringify.join_comma (y :: l)).
    rewrite IH. cbn [map List.concat]. now rewrite <- app_assoc.
Qed.

Lemma stringify_string_array (l : list jsstring) :
  Stringify.stringify (Arr (map Str l)) =
    Some (js "[" ++ Stringify.join_comma (map Stringify.quote_string l)
                 ++ js "]").
Proof.
  cbn [Stringify.stringify]. rewrite map_map. reflexivity.
Qed.

(** The scanner on the text of an array of strings. *)
Lemma scan_string_array (l : list jsstring) (toks : list JSON.token)
      (rest : jsstring) :
  JSON.scan JSON.Between toks
    ((js "[" ++ Stringify.join_comma (map Stringify.quote_string l)
             ++ js "]") ++ rest) =
    JSON.scan JSON.Between (rev (string_array_tokens l) ++ toks) rest.
Proof.
  assert (Hmore : forall l' toks',
    JSON.scan JSON.Between toks'
      (List.concat (map (fun y => comma ++ y) (map Stringify.quote_string l'))
       ++ js "]" ++ rest) =
    JSON.scan JSON.Between
      (JSON.TRBracket
         :: rev (flat_map (fun x => [JSON.TComma; JSON.TString x]) l')
         ++ toks') rest).
  { induction l' as [|x l' IH]; intros toks'; [reflexivity|].
    cbn [map List.concat flat_map]. rewrite <- !app_assoc.
    change (comma ++ Stringify.quote_string x
              ++ List.concat (map (fun y => comma ++ y)
                           (map Stringify.quote_string l'))
              ++ js "]" ++ rest)
      with (44%N :: (Stringify.quote_string x
              ++ List.concat (map (fun y => comma ++ y)
                           (map Stringify.quote_string l'))
              ++ js "]" ++ rest)).
    rewrite (scan_step toks' JSON.Between JSON.Between
               (JSON.TComma :: toks')) by reflexivity.
    rewrite scan_quote_string, IH.
    cbn [app rev]. now rewrite <- !app_assoc. }
  rewrite <- !app_assoc.
  change (js "[" ++ Stringify.join_comma (map Stringify.quote_string l)
            ++ js "]" ++ rest)
    with (91%N :: (Stringify.join_comma (map Stringify.quote_string l)
            ++ js "]" ++ rest)).
  rewrite (scan_step toks JSON.Between JSON.Between
             (JSON.TLBracket :: toks)) by reflexivity.
  unfold string_array_tokens. destruct l as [|s l].
  - reflexivity.
  - cbn [map]. rewrite join_comma_cons, <- app_assoc.
    rewrite scan_quote_string, Hmore.
    cbn [rev app]. rewrite rev_app_distr. cbn [rev app].
    now rewrite <- !app_assoc.
Qed.

(** The recogniser on the tokens of an array of strings. *)
Lemma run_string_array (l : list jsstring) (stack : list JSON.frame)
      (rest : list JSON.token) :
  JSON.run JSON.WantValue stack (string_array_tokens l ++ rest) =
    JSON.run (fst (JSON.complete (Arr (map Str l)) stack))
             (snd (JSON.complete (Arr (map Str l)) stack)) rest.
Proof.
  assert (Hmore : forall l' acc,
    JSON.run (JSON.ArrayNext acc) stack
      (flat_map (fun x => [JSON.TComma; JSON.TString x]) l'
       ++ JSON.TRBracket :: rest) =
    JSON.run (fst (JSON.complete (Arr (rev acc ++ map Str l')) stack))
             (snd (JSON.complete (Arr (rev acc ++ map Str l')) stack)) rest).
  { induction l' as [|x l' IH]; intros acc.
    - cbn [flat_map app map JSON.run JSON.feed]. rewrite app_nil_r.
      now destruct (JSON.complete (Arr (rev acc)) stack).
    - cbn [flat_map app map JSON.run JSON.feed JSON.value_token
             JSON.complete].
      rewrite IH. cbn [rev]. now rewrite <- app_assoc. }
  unfold string_array_tokens. destruct l as [|s l].
  - cbn [app map JSON.run JSON.feed JSON.value_token].
    now destruct (JSON.complete (Arr []) stack).
  - cbn [app map JSON.run JSON.feed JSON.value_token JSON.complete].
    rewrite <- app_assoc. cbn [app]. now rewrite Hmore.
Qed.

(** The score of a Review is written as its decimal numeral and read
    back as the same Number. *)
Lemma scan_score (k : Z) (toks : list JSON.token) :
  0 <= k <= 10 ->
  isFinite (of_Z k) = true
  /\ JSON.scan JSON.Between toks (to_string (of_Z k) ++ js "}") =
       Some (JSON.TRBrace :: JSON.TNumber (of_Z k) :: toks).
Proof.
  intros H.
  assert (Hk : In k [0;1;2;3;4;5;6;7;8;9;10]) by (cbn; lia).
  cbn in Hk.
  repeat (destruct Hk as [<-|Hk]; [split; vm_compute; reflexivity|]).
  contradiction.
Qed.

Lemma stringify_object (props : list (jsstring * value)) :
  Stringify.stringify (Obj props) =
    let '(indexed, named) :=
      Stringify.ordered_members
        (map (fun p => (fst p, Stringify.stringify (snd p))) props) in
    Some (js "{" ++ Stringify.join_comma (map snd indexed ++ named)
                 ++ js "}").
Proof. reflexivity. Qed.

Lemma stringify_review (r : Review) :
  0 <= score r <= 10 ->
  Stringify.stringify (review_value r) = Some (review_text r).
Proof.
  intros Hscore. destruct (scan_score (score r) [] Hscore) as [Hfin _].
  unfold review_value.
  rewrite stringify_object. cbn [map fst snd].
  rewrite !stringify_string_array.
  cbn [Stringify.stringify]. rewrite Hfin.
  reflexivity.
Qed.

Lemma scan_punctuation (toks : list JSON.token) (rest : jsstring) :
  JSON.scan JSON.Between toks (js "{" ++ rest) =
    JSON.scan JSON.Between (JSON.TLBrace :: toks) rest
  /\ JSON.scan JSON.Between toks (js ":" ++ rest) =
       JSON.scan JSON.Between (JSON.TColon :: toks) rest
  /\ JSON.scan JSON.Between toks (comma ++ rest) =
       JSON.scan JSON.Between (JSON.TComma :: toks) rest.
Proof. repeat split. Qed.

(** The scanner on a member whose value is an array of strings. *)
Lemma scan_member (key : jsstring) (l : list jsstring)
      (toks : list JSON.token) (rest : jsstring) :
  JSON.scan JSON.Between toks
    (Stringify.quote_string key ++ js ":" ++ js "["
       ++ Stringify.join_comma (map Stringify.quote_string l)
       ++ js "]" ++ rest) =
    JSON.scan JSON.Between
      (rev (string_array_tokens l) ++ JSON.TColon :: JSON.TString key :: toks)
      rest.
Proof.
  rewrite scan_quote_string, (proj1 (proj2 (scan_punctuation _ _))).
  replace (js "[" ++ Stringify.join_comma (map Stringify.quote_string l)
             ++ js "]" ++ rest)
    with ((js "[" ++ Stringify.join_comma (map Stringify.quote_string l)
             ++ js "]") ++ rest)
    by (now rewrite <- !app_assoc).
  apply scan_string_array.
Qed.

(** The scanner on the text of a Review. *)
Lemma scan_review (r : Review) :
  0 <= score r <= 10 ->
  JSON.scan JSON.Between [] (review_text r) = Some (rev (review_tokens r)).
Proof.
  intros Hscore.
  unfold review_text, review_tokens, string_array_text.
  cbn [Stringify.join_comma]. rewrite <- !app_assoc.
  rewrite (proj1 (scan_punctuation _ _)).
  rewrite scan_member, (proj2 (proj2 (scan_punctuation _ _))).
  rewrite scan_member, (proj2 (proj2 (scan_punctuation _ _))).
  rewrite scan_member, (proj2 (proj2 (scan_punctuation _ _))).
  rewrite scan_quote_string, (proj1 (proj2 (scan_punctuation _ _))).
  rewrite (proj2 (scan_score (score r) _ Hscore)).
  f_equal. rewrite !rev_app_distr. cbn [rev app].
  now rewrite <- !app_assoc.
Qed.

(** Comparison of two literals. *)
Ltac compare_literals :=
  repeat match goal with
         | |- context [JsString.eqb (js ?a) (js ?b)] =>
             let v := eval vm_compute in (JsString.eqb (js a) (js b)) in
             change (JsString.eqb (js a) (js b)) with v
         end;
  cbv iota.

(** The recogniser on the tokens of a Review. *)
Lemma run_review (r : Review) :
  JSON.run JSON.WantValue [] (review_tokens r) = Some (review_value r).
Proof.
  unfold review_tokens.
  cbn [app JSON.run JSON.feed JSON.value_token].
  rewrite run_string_array.
  cbn [app JSON.run JSON.feed JSON.value_token JSON.complete fst snd define].
  rewrite run_string_array.
  cbn [app JSON.run JSON.feed JSON.value_token JSON.complete fst snd define].
  compare_literals.
  rewrite run_string_array.
  cbn [app JSON.run JSON.feed JSON.value_token JSON.complete fst snd define].
  compare_literals.
  reflexivity.
Qed.

(** Round trip of a Review: the text [JSON.stringify] makes of it is read
    back by [JSON.parse] as the same object, the properties in the same
    order. *)
Lemma parse_stringify_review (r : Review) :
  0 <= score r <= 10 ->
  exists t, Stringify.stringify (review_value r) = Some t
            /\ JSON.parse t = Ok (review_value r).
Proof.
  intros Hscore. exists (review_text r).
  split; [now apply stringify_review|].
  unfold JSON.parse, JSON.tokens.
  rewrite (scan_review r Hscore). cbn [option_map].
  now rewrite rev_involutive, run_review.
Qed.

(** Round trip of a failure body. *)
Lemma parse_stringify_error (message : jsstring) :
  exists t, Stringify.stringify (Obj [(js "error", Str message)]) = Some t
            /\ JSON.parse t = Ok (Obj [(js "error", Str message)]).
Proof.
  eexists. split; [reflexivity|].
  cbn [app Stringify.join_comma map snd].
  unfold JSON.parse, JSON.tokens.
  rewrite <- !app_assoc.
  rewrite (proj1 (scan_punctuation _ _)), scan_quote_string.
  rewrite (proj1 (proj2 (scan_punctuation _ _))), scan_quote_string.
  reflexivity.
Qed.

(** ** The answer of the route on the wire *)

(** A response returned before the model is called carries an error. *)
Lemma POST_try_return_body (w : World) (req : Request) (r : Response) :
  POST_try w req = (Return r, []) -> exists e, json r = ErrorBody e.
Proof.
  unfold POST_try. intros Htry.
  destruct (formData req) as [form|]; [|discriminate].
  rewrite bind_lift_ok in Htry.
  destruct (falsy (text form) && _);
    [injection Htry as <-; now eexists|].
  destruct (falsy (OPENAI_API_KEY w));
    [injection Htry as <-; now eexists|].
  destruct (file form) as [f|].
  - destruct (processFile w f) as [t|e];
      [|injection Htry as <-; now eexists].
    rewrite bind_next in Htry.
    destruct (is_empty (trim t)); [injection Htry as <-; now eexists|].
    pose proof (POST_review_log w t) as Hlog.
    rewrite Htry in Hlog. discriminate.
  - rewrite bind_next in Htry.
    destruct (is_empty (trim (or_else (text form) [])));
      [injection Htry as <-; now eexists|].
    pose proof (POST_review_log w (or_else (text form) [])) as Hlog.
    rewrite Htry in Hlog. discriminate.
Qed.

(** The handler answers with a Review that meets the contract, or with an
    error text and status 400, 500 or 502. *)
Lemma POST_answer_cases (w : World) (req : Request) :
  (exists review, fst (POST w req) = ok_response review
                  /\ review_contract review)
  \/ (exists e st, fst (POST w req) = error_response e st
                   /\ (st = 400 \/ st = 500 \/ st = 502)).
Proof.
  destruct (POST_try_cases w req) as [[cv Hacc]|[[r [Htry Hr]]|[e Htry]]].
  - rewrite (POST_accepted w req cv Hacc).
    destruct (POST_review_cases w cv)
      as [[review [-> [parsed [Htruthy Hsan]]]]|[->|[e ->]]]; cbn.
    + left. exists review. split; [reflexivity|].
      now apply (sanitize_contract parsed).
    + right. do 2 eexists. split; [reflexivity|]. now right; right.
    + right. do 2 eexists. split; [reflexivity|]. now right; left.
  - right. destruct (POST_try_return_body w req r Htry) as [e Hbody].
    exists e, (status r). unfold POST. rewrite Htry. cbn.
    split; [destruct r; cbn in *; now subst|].
    destruct Hr as [->| ->]; [now left|now right; left].
  - right. unfold POST. rewrite Htry. cbn.
    do 2 eexists. split; [reflexivity|]. now right; left.
Qed.

(** The body of every answer has a JSON text that parses back to it. *)
Lemma res_json_route
        (w : World) (engine : exn -> jsstring) (req : Request) :
  res_json engine (fst (POST w req)) =
    Ok (body_value engine (json (fst (POST w req)))).
Proof.
  unfold res_json.
  destruct (POST_answer_cases w req)
    as [[review [-> [_ [_ [_ Hscore]]]]]|[e [st [-> _]]]];
    cbn [json ok_response error_response body_value].
  - destruct (parse_stringify_review review ltac:(lia)) as [t [-> Ht]].
    exact Ht.
  - destruct (parse_stringify_error (error_string engine e)) as [t [-> Ht]].
    exact Ht.
Qed.

(** X18.  What the route sends can be read.  Whatever the request and
    the collaborators, the body the handler passes to [NextResponse.json]
    has a JSON text, and [JSON.parse] reads that text, taken to arrive as
    it was made, back as the same object: the four fields of the Review in their order, the lists
    string for string (control characters, quotes and unpaired surrogates
    included) and the score as the same Number; or the [error] string
    unchanged.  [res.json()] on the page never throws on an answer of the
    route. *)
Theorem route_answer_round_trip
        (w : World) (engine : exn -> jsstring) (req : Request) :
  res_json engine (fst (POST w req)) =
    Ok (body_value engine (json (fst (POST w req)))).
Proof.
  unfold res_json.
  destruct (POST_answer_cases w req)
    as [[review [-> [_ [_ [_ Hscore]]]]]|[e [st [-> _]]]];
    cbn [json ok_response error_response body_value].
  - destruct (parse_stringify_review review ltac:(lia)) as [t [-> Ht]].
    exact Ht.
  - destruct (parse_stringify_error (error_string engine e)) as [t [-> Ht]].
    exact Ht.
Qed.

(** X19.  The page shows what the route answered.  When the page submits
    to the route, a 200 answer ends as the review on display: the object
    with the four fields of the Review the handler built, and no error.
    Any other answer ends as the error on display: the [error] string of
    the body ("Request failed" if that string is empty), and the review
    [null].
    In both cases the loading flag is off again. *)
Theorem page_shows_route_answer
        (w : World) (engine : exn -> jsstring) (tr : Transport)
        (st : Page.State) :
  Page.nothing_to_send st = false ->
  Page.loading (fst (Page.handleSubmit (route_fetch w engine tr) st)) = false
  /\ match json (fst (POST w (sent_by tr st))) with
     | ReviewBody review =>
         status (fst (POST w (sent_by tr st))) = 200
         /\ Page.review
              (fst (Page.handleSubmit (route_fetch w engine tr) st))
            = review_value review
         /\ Page.error
              (fst (Page.handleSubmit (route_fetch w engine tr) st))
            = None
     | ErrorBody e =>
         status (fst (POST w (sent_by tr st))) <> 200
         /\ Page.review
              (fst (Page.handleSubmit (route_fetch w engine tr) st))
            = Null
         /\ Page.error
              (fst (Page.handleSubmit (route_fetch w engine tr) st))
            = Some (Plain (or_else (Some (error_string engine e))
                                   (js "Request failed")))
     end.
Proof.
  intros Hsend.
  unfold Page.handleSubmit, Page.handleSubmit_begin. rewrite Hsend.
  cbn [fst]. unfold Page.handleSubmit_end, Page.read_response, route_fetch.
  cbn [Exn.bind Page.json Page.ok].
  change {| formData := Ok (delivered tr (Page.form_of st)) |}
    with (sent_by tr st).
  rewrite res_json_route.
  destruct (POST_answer_cases w (sent_by tr st))
    as [[review [-> _]]|[e [code [-> Hcode]]]];
    cbn [json status ok_response error_response body_value Exn.bind].
  - split; [reflexivity|]. now repeat split.
  - assert (Hok : response_ok (error_response e code) = false)
      by (unfold response_ok; cbn [status error_response];
          destruct Hcode as [->|[->| ->]]; reflexivity).
    rewrite Hok. cbn [negb Page.data_error own].
    compare_literals. cbn [ToBoolean].
    split; [destruct (error_string engine e); reflexivity|].
    split; [lia|].
    destruct (error_string engine e) as [|c s]; now split.
Qed.

Lemma page_shows_route_answer_witness :
  Page.review
    (fst (Page.handleSubmit
            (route_fetch (stub key_set (Ok (Some scenario_reply)))
                         (fun _ => js "Unexpected token") multipart)
            (Page.setText Page.initial scenario_text)))
    = review_value scenario_review
  /\ Page.error
       (fst (Page.handleSubmit
               (route_fetch (stub None (Ok None))
                            (fun _ => js "Unexpected token") multipart)
               (Page.setText Page.initial scenario_text)))
     = Some (Plain (js "OPENAI_API_KEY is not set on server")).
Proof.
  split.
  - exact (proj1 (proj2 (proj2
             (page_shows_route_answer
                (stub key_set (Ok (Some scenario_reply)))
                (fun _ => js "Unexpected token") multipart
                (Page.setText Page.initial scenario_text) eq_refl)))).
  - exact (proj2 (proj2 (proj2
             (page_shows_route_answer
                (stub None (Ok None))
                (fun _ => js "Unexpected token") multipart
                (Page.setText Page.initial scenario_text) eq_refl)))).
Defined.

(** ** The page: requests in flight *)

(** No handler but [handleSubmit] touches the loading flag. *)
Lemma step_keeps_loading
      (formatFileSize : Z -> jsstring) (st : Page.State) (ev : Page.event) :
  ev <> Page.SubmitBegin ->
  (forall response, ev <> Page.SubmitEnd response) ->
  Page.loading (Page.step formatFileSize st ev) = Page.loading st.
Proof.
  intros Hbegin Hend.
  destruct ev as [| |files|files|value| | |response]; cbn [Page.step];
    try reflexivity.
  - unfold Page.handleDrop. destruct files as [f|]; [|reflexivity].
    unfold Page.processFile.
    destruct (negb _); [reflexivity|]. now destruct (_ >? _).
  - unfold Page.handleFileChange. destruct files as [f|]; [|reflexivity].
    unfold Page.processFile.
    destruct (negb _); [reflexivity|]. now destruct (_ >? _).
  - unfold Page.textarea_onChange.
    now destruct (Page.file (Page.fileState st)).
  - congruence.
  - now destruct (Hend response).
Qed.

Lemma ui_run_in_flight
      (formatFileSize : Z -> jsstring) (events : list Page.event)
      (st st' : Page.State) (n n' : nat) :
  (n = 0%nat /\ Page.loading st = false
   \/ n = 1%nat /\ Page.loading st = true) ->
  ui_run formatFileSize events st n = Some (st', n') ->
  n' = 0%nat /\ Page.loading st' = false
  \/ n' = 1%nat /\ Page.loading st' = true.
Proof.
  revert st n. induction events as [|ev events IH]; intros st n Hinv;
    cbn [ui_run].
  - now intros [= <- <-].
  - destruct ev as [| |files|files|value| | |response];
      try (apply IH; rewrite step_keeps_loading by discriminate;
           exact Hinv).
    + unfold Page.disabled.
      destruct Hinv as [[-> Hload]|[-> Hload]]; rewrite Hload;
        cbn [orb]; [|discriminate].
      destruct (Page.nothing_to_send st) eqn:Hsend; [discriminate|].
      apply IH. right. cbn [Page.step].
      unfold Page.handleSubmit_begin. rewrite Hsend. now split.
    + destruct n as [|n]; [discriminate|].
      apply IH. left.
      destruct Hinv as [[Hn _]|[Hn _]]; [discriminate|].
      injection Hn as ->. split; [reflexivity|].
      cbn [Page.step]. unfold Page.handleSubmit_end.
      now destruct (Page.read_response response).
Qed.

(** X20.  One request at a time.  With [handleSubmit] run only by a
    click on the Analyze button while it is enabled, at most one request
    is in flight at any moment, and the loading flag is on exactly while
    one is: the button stays disabled from the click to the answer,
    whatever is typed, dropped, chosen or reset in between, so a second
    click cannot send the CV to the route twice. *)
Theorem page_one_request_in_flight
        (formatFileSize : Z -> jsstring) (events : list Page.event)
        (st : Page.State) (n : nat) :
  ui_run formatFileSize events Page.initial 0 = Some (st, n) ->
  (n <= 1)%nat
  /\ (Page.loading st = true <-> n = 1%nat)
  /\ (Page.loading st = true -> Page.disabled st = true).
Proof.
  intros Hrun.
  destruct (ui_run_in_flight formatFileSize events Page.initial st 0 n
              (or_introl (conj eq_refl eq_refl)) Hrun)
    as [[-> Hload]|[-> Hload]]; unfold Page.disabled; rewrite Hload.
  - split; [lia|]. split; [split; discriminate|discriminate].
  - split; [lia|]. now split.
Qed.

Lemma page_one_request_in_flight_witness :
  ui_run bytes_label
    [Page.Typing scenario_text; Page.SubmitBegin; Page.Drop (Some cv_docx)]
    Page.initial 0
    = Some (Page.run bytes_label
              [Page.Typing scenario_text; Page.SubmitBegin;
               Page.Drop (Some cv_docx)], 1%nat)
  /\ Page.disabled
       (Page.run bytes_label
          [Page.Typing scenario_text; Page.SubmitBegin;
           Page.Drop (Some cv_docx)]) = true.
Proof.
  split; [reflexivity|].
  apply (proj2 (proj2 (page_one_request_in_flight bytes_label
                         [Page.Typing scenario_text; Page.SubmitBegin;
                          Page.Drop (Some cv_docx)]
                         _ 1%nat eq_refl))).
  reflexivity.
Defined.

(** ** A file and its text *)

(** X21.  A file counts for its text.  When the route extracts a
    non-empty text from the file of a request, the request is answered
    exactly as one that pasted that text and sent no file: same response,
    same model call.  The text field sent along with the file plays no
    part. *)
Theorem POST_file_as_pasted
        (w : World) (t : option jsstring) (f : File) (extracted : jsstring) :
  processFile w f = Ok extracted ->
  extracted <> [] ->
  POST w (submit t (Some f)) = POST w (submit (Some extracted) None).
Proof.
  intros Hproc Hne.
  destruct extracted as [|c s]; [congruence|].
  assert (Hfile : file {| text := t; file := Some f |} <> None)
    by discriminate.
  destruct (falsy (OPENAI_API_KEY w)) eqn:Hkey.
  - rewrite (POST_missing_key w (submit t (Some f))
               {| text := t; file := Some f |} eq_refl
               (or_intror Hfile) Hkey).
    symmetry.
    exact (POST_missing_key w (submit (Some (c :: s)) None)
             {| text := Some (c :: s); file := None |} eq_refl
             (or_introl eq_refl) Hkey).
  - rewrite (POST_file_text w (submit t (Some f))
               {| text := t; file := Some f |} f (c :: s)
               eq_refl eq_refl Hkey Hproc).
    destruct (is_empty (trim (c :: s))) eqn:Htrim.
    + unfold POST, POST_try, submit. cbn [formData].
      rewrite bind_lift_ok. cbn [text file falsy andb or_else].
      now rewrite Hkey, bind_next, Htrim.
    + symmetry. apply POST_accepted. now apply accepted_pasted.
Qed.

Lemma POST_file_as_pasted_witness :
  POST (stub key_set (Ok (Some scenario_reply)))
       (submit (Some (js "ignored")) (Some docx))
  = POST (stub key_set (Ok (Some scenario_reply)))
         (submit (Some (js "Hello World")) None).
Proof.
  apply (POST_file_as_pasted (stub key_set (Ok (Some scenario_reply)))
           (Some (js "ignored")) docx (js "Hello World")).
  - reflexivity.
  - discriminate.
Defined.
